(** * Kepler: metric collection pipeline, shallow embedding

    The development follows the Go packages of the repository:
    - [Cgroup]     : pkg/cgroup/slice_handler.go
    - [Components] : pkg/power/components (backend selection and dispatch)
    - [Channel]    : the counter channel of the metric records
    - [Collector]  : pkg/collector (accelerator and node energy updates)

    Go maps are [gmap]s, a nil map or nil pointer is [None], a run-time
    panic is the outcome [Panic], and everything the code reads from the
    machine (files, meters, libraries) is a function of an explicit world. *)

From Stdlib Require Import ZArith String Ascii List Bool Lia.
From stdpp Require Import base option list gmap strings fin_maps.

Local Open Scope string_scope.

(** ** Outcomes of a call that may panic *)

Inductive run (A : Type) : Type :=
| Done (a : A)
| Panic.
Arguments Done {A} a.
Arguments Panic {A}.

Definition run_bind {A B : Type} (r : run A) (k : A -> run B) : run B :=
  match r with
  | Done a => k a
  | Panic => Panic
  end.

Notation "x <-! r ; k" := (run_bind r (fun x => k))
  (at level 100, r at next level, right associativity).

Definition run_map {A B : Type} (f : A -> B) (r : run A) : run B :=
  match r with
  | Done a => Done (f a)
  | Panic => Panic
  end.

Fixpoint foldM {A B : Type} (f : A -> B -> run A) (l : list B) (a : A) : run A :=
  match l with
  | [] => Done a
  | b :: l' => a' <-! f a b ; foldM f l' a'
  end.

(** ** Go string helpers *)

Fixpoint skip_string (n : nat) (s : string) : string :=
  match n, s with
  | O, _ => s
  | S _, EmptyString => EmptyString
  | S n', String _ s' => skip_string n' s'
  end.

(** First occurrence of [old] in [s] replaced by [new]; an empty [old]
    matches at the start of the string. *)
Fixpoint replace_first (old new s : string) : string :=
  if String.prefix old s then new ++ skip_string (String.length old) s
  else match s with
       | EmptyString => EmptyString
       | String c s' => String c (replace_first old new s')
       end.

(** [strings.Replace(s, old, new, 1)] *)
Definition strings_Replace1 (s old new : string) : string :=
  if String.eqb old new then s else replace_first old new s.

(** [filepath.Join] of a clean directory and a clean single element. *)
Definition filepath_Join (dir elem : string) : string := dir ++ "/" ++ elem.

(** * pkg/cgroup *)

Module Cgroup.

Definition baseCGroupPath : string := "/sys/fs/cgroup".
Definition KubePodCGroupPath : string := "/sys/fs/cgroup/kubepods.slice".
Definition SystemCGroupPath : string := "/sys/fs/cgroup/system.slice".

Inductive StatReader : Type :=
| CPUStatReader (Path : string)
| MemoryStatReader (Path : string)
| IOStatReader (Path : string).

Record SliceHandler : Type := mkSliceHandler {
  statReaders : option (gmap string (list StatReader));
  CPUTopPath : string;
  MemoryTopPath : string;
  IOTopPath : string
}.

Definition Init (s : SliceHandler) : SliceHandler :=
  {| statReaders := Some ∅;
     CPUTopPath := CPUTopPath s;
     MemoryTopPath := MemoryTopPath s;
     IOTopPath := IOTopPath s |}.

Definition GetStatReaders (s : SliceHandler) := statReaders s.
Definition GetCPUTopPath (s : SliceHandler) : string := CPUTopPath s.
Definition GetMemoryTopPath (s : SliceHandler) : string := MemoryTopPath s.
Definition GetIOTopPath (s : SliceHandler) : string := IOTopPath s.

Definition withReaders (s : SliceHandler) (m : gmap string (list StatReader))
  : SliceHandler :=
  {| statReaders := Some m;
     CPUTopPath := CPUTopPath s;
     MemoryTopPath := MemoryTopPath s;
     IOTopPath := IOTopPath s |}.

(** [statReaders[containerID] = readers]: the map is shared with the
    handler, so the handler sees the entry; assignment into a nil map
    panics. *)
Definition SetStatReaders (s : SliceHandler) (containerID : string)
  (readers : list StatReader) : run SliceHandler :=
  match statReaders s with
  | None => Panic
  | Some m => Done (withReaders s (<[containerID := readers]> m))
  end.

(** [statReaders[containerID]] on the map [GetStatReaders] returns, which
    is the handler's own map and may be nil: a nil map has no entry. *)
Definition readersOf (s : SliceHandler) (containerID : string)
  : option (list StatReader) :=
  match GetStatReaders s with
  | None => None
  | Some m => m !! containerID
  end.

(** The legacy per-controller tree, as [filepath.Join] yields it. *)
Definition legacyCPU : string := "/sys/fs/cgroup/cpu".
Definition legacyMemory : string := "/sys/fs/cgroup/memory".
Definition legacyIO : string := "/sys/fs/cgroup/blkio".

Definition topPaths (s : SliceHandler) : string * string * string :=
  (CPUTopPath s, MemoryTopPath s, IOTopPath s).

Definition isCPU (r : StatReader) : bool :=
  match r with CPUStatReader _ => true | _ => false end.
Definition isMemory (r : StatReader) : bool :=
  match r with MemoryStatReader _ => true | _ => false end.
Definition isIO (r : StatReader) : bool :=
  match r with IOStatReader _ => true | _ => false end.

Definition count_readers (p : StatReader -> bool) (l : list StatReader) : nat :=
  length (List.filter p l).

(** One reader of each kind. *)
Definition one_of_each (l : list StatReader) : Prop :=
  count_readers isCPU l = 1%nat /\ count_readers isMemory l = 1%nat
  /\ count_readers isIO l = 1%nat /\ length l = 3%nat.

(** The instance is set, its reader map is made, and every entry holds one
    reader of each kind. *)
Definition readers_wf (inst : option SliceHandler) : Prop :=
  exists s m, inst = Some s /\ statReaders s = Some m /\
    forall id rs, m !! id = Some rs -> one_of_each rs.

Section WithWorld.

(** The file system as the package sees it. [stat_ok w p] says that
    [os.Stat(p)] returns no error; [SearchByContainerID] and the readers'
    [Read] live in other files of the package and are taken as given, and so
    is [convertToStandard]. *)
Variable world : Type.
Variable value : Type.
Variable stat_ok : world -> string -> bool.
Variable SearchByContainerID : world -> string -> string -> string.
Variable Read : world -> StatReader -> gmap string value.
Variable convertToStandard : gmap string value -> gmap string value.

(** [values[k] = v] for every entry of every reader in turn: a later reader
    overwrites an earlier one. *)
Definition mergeReads (w : world) (readers : list StatReader) : gmap string value :=
  fold_left (fun values reader => Read w reader ∪ values) readers ∅.

Definition GetStats (w : world) (s : SliceHandler) (containerID : string)
  : gmap string value :=
  match readersOf s containerID with
  | Some readers => mergeReads w readers
  | None => ∅
  end.

(** The handler together with the paths handed to [os.Stat], in call order. *)
Definition InitSliceHandler (w : world) : SliceHandler * list string :=
  if stat_ok w KubePodCGroupPath then
    (Init {| statReaders := None;
             CPUTopPath := KubePodCGroupPath;
             MemoryTopPath := KubePodCGroupPath;
             IOTopPath := KubePodCGroupPath |},
     [KubePodCGroupPath])
  else if stat_ok w SystemCGroupPath then
    (Init {| statReaders := None;
             CPUTopPath := SystemCGroupPath;
             MemoryTopPath := SystemCGroupPath;
             IOTopPath := SystemCGroupPath |},
     [KubePodCGroupPath; SystemCGroupPath])
  else
    (Init {| statReaders := None;
             CPUTopPath := filepath_Join baseCGroupPath "cpu";
             MemoryTopPath := filepath_Join baseCGroupPath "memory";
             IOTopPath := filepath_Join baseCGroupPath "blkio" |},
     [KubePodCGroupPath; SystemCGroupPath]).

(** [SetSliceHandler]: the package variable [SliceHandlerInstance] is a
    pointer, nil ([None]) until this runs. *)
Definition SetSliceHandler (w : world) : option SliceHandler :=
  Some (fst (InitSliceHandler w)).

Definition TryInitStatReaders (w : world)
  (SliceHandlerInstance : option SliceHandler) (containerID : string)
  : run (option SliceHandler) :=
  match SliceHandlerInstance with
  | None => Panic
  | Some s =>
    match readersOf s containerID with
    | Some _ => Done (Some s)
    | None =>
      let cpuTopPath := GetCPUTopPath s in
      let memoryTopPath := GetMemoryTopPath s in
      let ioTopPath := GetIOTopPath s in
      let containerCPUPath := SearchByContainerID w cpuTopPath containerID in
      let containerMemoryPath :=
        strings_Replace1 containerCPUPath cpuTopPath memoryTopPath in
      let containerIOPath :=
        strings_Replace1 containerCPUPath cpuTopPath ioTopPath in
      s' <-! SetStatReaders s containerID
               [CPUStatReader containerCPUPath;
                MemoryStatReader containerMemoryPath;
                IOStatReader containerIOPath] ;
      Done (Some s')
    end
  end.

Definition GetStandardStat (w : world)
  (SliceHandlerInstance : option SliceHandler) (containerID : string)
  : run (gmap string value) :=
  match SliceHandlerInstance with
  | None => Panic
  | Some s => Done (convertToStandard (GetStats w s containerID))
  end.

(** A run of the package: [SetSliceHandler] at startup, then
    [TryInitStatReaders] for a sequence of container ids, each against the
    file system of its moment. *)
Definition tryInitAll (calls : list (world * string))
  (inst : option SliceHandler) : run (option SliceHandler) :=
  foldM (fun i c => TryInitStatReaders (fst c) i (snd c)) calls inst.

End WithWorld.

Arguments mergeReads {world value} Read w readers.
Arguments GetStats {world value} Read w s containerID.
Arguments InitSliceHandler {world} stat_ok w.
Arguments SetSliceHandler {world} stat_ok w.
Arguments TryInitStatReaders {world} SearchByContainerID w SliceHandlerInstance containerID.
Arguments GetStandardStat {world value} Read convertToStandard w SliceHandlerInstance containerID.
Arguments tryInitAll {world} SearchByContainerID calls inst.

(** ** The walk over the cgroup tree *)

Definition sliceSuffix : string := ".slice".
Definition scopeSuffix : string := ".scope".

(** [strings.HasSuffix] *)
Definition strings_HasSuffix (s suffix : string) : bool :=
  Nat.leb (String.length suffix) (String.length s)
  && String.eqb (skip_string (String.length s - String.length suffix) s) suffix.

(** [strings.Split(s, sep)] for a separator that is not empty, as at the
    three call sites below: [skip] counts the characters of a separator just
    matched that are still to be passed over, [acc] is the piece being
    read. *)
Fixpoint split_go (sep : string) (skip : nat) (acc s : string) : list string :=
  match s with
  | EmptyString => [acc]
  | String c s' =>
    match skip with
    | Datatypes.S k => split_go sep k acc s'
    | O =>
      if String.prefix sep s
      then acc :: split_go sep (String.length sep - 1) EmptyString s'
      else split_go sep O (acc ++ String c EmptyString) s'
    end
  end.

Definition strings_Split (s sep : string) : list string :=
  split_go sep O EmptyString s.

(** [l[len(l)-1]] and [l[0]]: indexing an empty slice panics. *)
Definition last_elem (l : list string) : run string :=
  match List.rev l with
  | [] => Panic
  | x :: _ => Done x
  end.

Definition first_elem (l : list string) : run string :=
  match l with
  | [] => Panic
  | x :: _ => Done x
  end.

(** A file tree as [filepath.Walk] meets it: every entry with its path, a
    directory with its entries in the order the walk lists them (by name);
    a file, or a directory that cannot be read, has none. *)
#[warnings="-register-all"]
Inductive node : Type :=
| Node (path : string) (entries : list node).

Definition node_path (n : node) : string :=
  match n with Node p _ => p end.

(** The entries the walk calls its function on, in call order. *)
Fixpoint nodes (n : node) : list node :=
  match n with
  | Node p es => n :: List.flat_map nodes es
  end.

Definition walk (n : node) : list string := List.map node_path (nodes n).

Fixpoint node_size (n : node) : nat :=
  match n with
  | Node _ es => Datatypes.S (list_sum (List.map node_size es))
  end.

(** The entry [os.Lstat] finds at a path, if any. *)
Definition node_at (fs : node) (p : string) : option node :=
  List.find (fun n => String.eqb (node_path n) p) (nodes fs).

(** The walk function of [searchBySuffix]: whether it returns an error,
    which stops the walk. *)
Definition stops_at (topFolder suffix path : string) : bool :=
  negb (String.eqb path topFolder) && strings_HasSuffix path suffix.

(** [filepath.Walk] calls the function on the root even when the root
    cannot be found; the function answers nil for the root, and the walk
    ends there. *)
Definition searchBySuffix (fs : node) (topFolder suffix : string) : string :=
  match node_at fs topFolder with
  | None => EmptyString
  | Some n =>
    match List.find (stops_at topFolder suffix) (walk n) with
    | Some path => path
    | None => EmptyString
    end
  end.

(** The recursion descends the tree; [fuel] bounds its depth and [None]
    is fuel run out. *)
Fixpoint findContainerScope (fuel : nat) (fs : node) (path : string) : option string :=
  let scopePath := searchBySuffix fs path scopeSuffix in
  if negb (String.eqb scopePath EmptyString) then Some scopePath
  else
    let slicePath := searchBySuffix fs path sliceSuffix in
    if String.eqb slicePath EmptyString then Some EmptyString
    else match fuel with
         | O => None
         | Datatypes.S fuel' => findContainerScope fuel' fs slicePath
         end.

(** The tail of [findExampleContainerID]: the id out of the path of a
    scope. *)
Definition exampleIDOfScope (containerScopePath : string) : run string :=
  let pathSplits := strings_Split containerScopePath "/" in
  fileName <-! last_elem pathSplits ;
  scopeSplit <-! first_elem (strings_Split fileName ".scope") ;
  let partSplits := strings_Split scopeSplit "-" in
  last_elem partSplits.

Definition findExampleContainerID (fuel : nat) (fs : node)
  (slice : option SliceHandler) : option (run string) :=
  match slice with
  | None => Some Panic
  | Some s =>
    let topPath := GetCPUTopPath s in
    match findContainerScope fuel fs topPath with
    | None => None
    | Some containerScopePath =>
      if String.eqb containerScopePath EmptyString then Some (Done EmptyString)
      else Some (exampleIDOfScope containerScopePath)
    end
  end.

Definition has_char (c : Ascii.ascii) (s : string) : bool :=
  existsb (Ascii.eqb c) (list_ascii_of_string s).

Section WithTree.

Variable world : Type.
Variable value : Type.
Variable tree : world -> node.
Variable SearchByContainerID : world -> string -> string -> string.
Variable Read : world -> StatReader -> gmap string value.
Variable convertToStandard : gmap string value -> gmap string value.

(** The metric names, in the order the range over the map yields them,
    with the instance as the call leaves it. *)
Definition GetAvailableCgroupMetrics (fuel : nat) (w : world)
  (SliceHandlerInstance : option SliceHandler)
  : option (run (list string * option SliceHandler)) :=
  match findExampleContainerID fuel (tree w) SliceHandlerInstance with
  | None => None
  | Some found =>
    Some (containerID <-! found ;
          inst <-! TryInitStatReaders SearchByContainerID w SliceHandlerInstance
                     containerID ;
          stats <-! GetStandardStat Read convertToStandard w inst containerID ;
          Done ((map_to_list stats).*1, inst))
  end.

End WithTree.

Arguments GetAvailableCgroupMetrics {world value} tree SearchByContainerID Read
  convertToStandard fuel w SliceHandlerInstance.

End Cgroup.

(** * pkg/power/components *)

(** The [source] package: the energy record of one socket and the
    interface the three backends implement. *)
Module Source.

(** [source.NodeComponentsEnergy], the energy of one socket in mJ. *)
Record NodeComponentsEnergy : Type := mkNodeComponentsEnergy {
  Pkg : Z;
  Core : Z;
  DRAM : Z;
  Uncore : Z
}.

Record powerInterface (world error : Type) : Type := mkPowerInterface {
  GetEnergyFromDram : world -> Z * option error;
  GetEnergyFromCore : world -> Z * option error;
  GetEnergyFromUncore : world -> Z * option error;
  GetEnergyFromPackage : world -> Z * option error;
  GetNodeComponentsEnergy : world -> gmap Z NodeComponentsEnergy;
  StopPower : world -> world;
  IsSystemCollectionSupported : world -> bool
}.
Arguments GetEnergyFromDram {world error} _ _.
Arguments GetEnergyFromCore {world error} _ _.
Arguments GetEnergyFromUncore {world error} _ _.
Arguments GetEnergyFromPackage {world error} _ _.
Arguments GetNodeComponentsEnergy {world error} _ _.
Arguments StopPower {world error} _ _.
Arguments IsSystemCollectionSupported {world error} _ _.

End Source.

Module Components.

(** The three objects [powerImpl] can point to. *)
Inductive backend : Type := Sysfs | MSR | Dummy.

(** Package variables. *)
Record vars : Type := mkVars {
  powerImpl : backend;
  useMSR : bool
}.

(** Their declared initial values. *)
Definition declared : vars := {| powerImpl := Sysfs; useMSR := false |}.

Section WithBackends.

Variable world : Type.
Variable error : Type.
Variable sysfsImpl msrImpl dummyImpl : Source.powerInterface world error.

Definition impl (b : backend) : Source.powerInterface world error :=
  match b with
  | Sysfs => sysfsImpl
  | MSR => msrImpl
  | Dummy => dummyImpl
  end.

(** [init()] *)
Definition init (w : world) (v : vars) : vars :=
  if Source.IsSystemCollectionSupported sysfsImpl w then
    {| powerImpl := Sysfs; useMSR := useMSR v |}
  else if Source.IsSystemCollectionSupported msrImpl w && useMSR v then
    {| powerImpl := MSR; useMSR := useMSR v |}
  else
    {| powerImpl := Dummy; useMSR := useMSR v |}.

Definition GetEnergyFromDram (v : vars) (w : world) : Z * option error :=
  Source.GetEnergyFromDram (impl (powerImpl v)) w.

Definition GetEnergyFromCore (v : vars) (w : world) : Z * option error :=
  Source.GetEnergyFromCore (impl (powerImpl v)) w.

Definition GetEnergyFromUncore (v : vars) (w : world) : Z * option error :=
  Source.GetEnergyFromUncore (impl (powerImpl v)) w.

Definition GetEnergyFromPackage (v : vars) (w : world) : Z * option error :=
  Source.GetEnergyFromPackage (impl (powerImpl v)) w.

Definition GetNodeComponentsEnergy (v : vars) (w : world)
  : gmap Z Source.NodeComponentsEnergy :=
  Source.GetNodeComponentsEnergy (impl (powerImpl v)) w.

Definition IsSystemCollectionSupported (v : vars) (w : world) : bool :=
  Source.IsSystemCollectionSupported (impl (powerImpl v)) w.

Definition StopPower (v : vars) (w : world) : world :=
  Source.StopPower (impl (powerImpl v)) w.

(** One read of the package API. *)
Inductive read : Type :=
| ReadDram | ReadCore | ReadUncore | ReadPackage | ReadComponents.

Inductive reading : Type :=
| Scalar (r : Z * option error)
| PerSocket (m : gmap Z Source.NodeComponentsEnergy).

Definition perform (v : vars) (w : world) (r : read) : reading :=
  match r with
  | ReadDram => Scalar (GetEnergyFromDram v w)
  | ReadCore => Scalar (GetEnergyFromCore v w)
  | ReadUncore => Scalar (GetEnergyFromUncore v w)
  | ReadPackage => Scalar (GetEnergyFromPackage v w)
  | ReadComponents => PerSocket (GetNodeComponentsEnergy v w)
  end.

(** The same read made on a given backend object. *)
Definition perform_on (b : backend) (w : world) (r : read) : reading :=
  match r with
  | ReadDram => Scalar (Source.GetEnergyFromDram (impl b) w)
  | ReadCore => Scalar (Source.GetEnergyFromCore (impl b) w)
  | ReadUncore => Scalar (Source.GetEnergyFromUncore (impl b) w)
  | ReadPackage => Scalar (Source.GetEnergyFromPackage (impl b) w)
  | ReadComponents => PerSocket (Source.GetNodeComponentsEnergy (impl b) w)
  end.

(** Every energy read of the package API hands back what the same method
    of the backend object [i] hands back, in whatever state of the machine. *)
Definition reads_go_to (v : vars) (i : Source.powerInterface world error) : Prop :=
  forall w : world,
    GetEnergyFromDram v w = Source.GetEnergyFromDram i w
    /\ GetEnergyFromCore v w = Source.GetEnergyFromCore i w
    /\ GetEnergyFromUncore v w = Source.GetEnergyFromUncore i w
    /\ GetEnergyFromPackage v w = Source.GetEnergyFromPackage i w
    /\ GetNodeComponentsEnergy v w = Source.GetNodeComponentsEnergy i w.

(** The order of preference written out: direct, sibling, null. *)
Definition preferred (w : world) (flag : bool) : backend :=
  if Source.IsSystemCollectionSupported sysfsImpl w then Sysfs
  else if flag && Source.IsSystemCollectionSupported msrImpl w then MSR
  else Dummy.

End WithBackends.

Arguments impl {world error} _ _ _ _.
Arguments init {world error} _ _ _ _.
Arguments GetEnergyFromDram {world error} _ _ _ _ _.
Arguments GetEnergyFromCore {world error} _ _ _ _ _.
Arguments GetEnergyFromUncore {world error} _ _ _ _ _.
Arguments GetEnergyFromPackage {world error} _ _ _ _ _.
Arguments GetNodeComponentsEnergy {world error} _ _ _ _ _.
Arguments IsSystemCollectionSupported {world error} _ _ _ _ _.
Arguments StopPower {world error} _ _ _ _ _.
Arguments perform {world error} _ _ _ _ _ _.
Arguments perform_on {world error} _ _ _ _ _ _.
Arguments reads_go_to {world error} _ _ _ _ _.
Arguments preferred {world error} _ _ _ _.
Arguments Scalar {error} _.
Arguments PerSocket {error} _.

End Components.

(** * The counter channel *)

Module Channel.

(** Modelled from the spec: the counter channel of the metric records,
    whose Go type lives in package collector/metric, outside the files
    embedded here. Section 3 of the specification gives its state: the
    latest aggregate, the previous aggregate, the current delta and the
    sub-aggregates per producer. *)
Record channel : Type := mkChannel {
  agg : Z;
  prev_agg : Z;
  curr : Z;
  producers : gmap string Z
}.

(** Modelled from the spec: a channel as it is created, before any
    write (the constructor of the channel type is outside these files). *)
Definition new_channel : channel :=
  {| agg := 0; prev_agg := 0; curr := 0; producers := ∅ |}.

Definition sum_producers (m : gmap string Z) : Z :=
  map_fold (fun _ v acc => v + acc)%Z 0%Z m.

(** Modelled from the spec: [add_delta] of section 4.1 (the channel's
    methods are outside these files): [agg += v; curr += v]. *)
Definition add_delta (v : Z) (ch : channel) : channel :=
  {| agg := agg ch + v; prev_agg := prev_agg ch;
     curr := curr ch + v; producers := producers ch |}.

(** Modelled from the spec: the test of [reset_on_restart] of section 4.1
    (the channel's methods are outside these files): the producer reports
    [v], less than what it reported before under the same id. A producer not
    seen before has not restarted. *)
Definition restarted (producer_id : string) (v : Z) (ch : channel) : bool :=
  match producers ch !! producer_id with
  | Some previous => (v <? previous)%Z
  | None => false
  end.

(** Modelled from the spec: [set_aggregate] of sections 3 and 4.1 (the
    channel's methods are outside these files): set or replace this
    producer's contribution; the channel's [agg] is the sum over the
    producers, and [curr] is recomputed as [max(0, new_agg - prev_agg)]. On
    an observed decrease the write is a restart from zero: [v] is accepted
    as the producer's contribution, the baseline [prev_agg] is reset to 0
    and [curr] is the new [agg], so that the next committed [curr] is the
    aggregate after the restart (section 8, invariant 5). *)
Definition set_aggregate (producer_id : string) (v : Z) (ch : channel) : channel :=
  let ps := <[producer_id := v]> (producers ch) in
  let baseline := if restarted producer_id v ch then 0%Z else prev_agg ch in
  {| agg := sum_producers ps; prev_agg := baseline;
     curr := Z.max 0 (sum_producers ps - baseline); producers := ps |}.

(** Modelled from the spec: [commit] of section 4.1 (the channel's
    methods are outside these files):
    [curr = max(0, agg - prev_agg); prev_agg = agg]. *)
Definition commit (ch : channel) : channel :=
  {| agg := agg ch; prev_agg := agg ch;
     curr := Z.max 0 (agg ch - prev_agg ch); producers := producers ch |}.

Inductive write : Type :=
| AddDelta (v : Z)
| SetAggregate (producer_id : string) (v : Z).

Definition apply_write (ch : channel) (wr : write) : channel :=
  match wr with
  | AddDelta v => add_delta v ch
  | SetAggregate p v => set_aggregate p v ch
  end.

(** The write is an aggregate set that the channel takes for a restart. *)
Definition is_restart (ch : channel) (wr : write) : bool :=
  match wr with
  | AddDelta _ => false
  | SetAggregate p v => restarted p v ch
  end.

(** One of the writes is a restart, each write seen against the channel as
    the writes before it left it. *)
Fixpoint restarts (writes : list write) (ch : channel) : bool :=
  match writes with
  | [] => false
  | wr :: rest => is_restart ch wr || restarts rest (apply_write ch wr)
  end.

(** Modelled from the spec: one interval of a channel as sections 4.1 and
    4.7 order it (the collector loop is outside these files): all the writes
    of the sample phase, then [commit] exactly once. *)
Definition interval (writes : list write) (ch : channel) : channel :=
  commit (fold_left apply_write writes ch).

(** The channel after each of a sequence of intervals, oldest first. *)
Fixpoint history (intervals : list (list write)) (ch : channel) : list channel :=
  match intervals with
  | [] => []
  | ws :: rest => let ch' := interval ws ch in ch' :: history rest ch'
  end.

End Channel.

(** * pkg/collector *)

Module Collector.

Definition to_uint64 (z : Z) : Z := (z mod 2 ^ 64)%Z.

(** [accelerator_source.ProcessUtilizationSample], with the two fields
    the collector reads. *)
Record ProcessUtilizationSample : Type := mkSample {
  SmUtil : Z;
  MemUtil : Z
}.

(** Modelled from the spec: the container metric record of package
    collector/metric, which is outside the files embedded here. Section 3
    gives it the names of the workload and a map of channels keyed by
    channel name; the code reaches the accelerator channels through
    [CounterStats]. *)
Record ContainerMetrics : Type := mkContainerMetrics {
  ContainerName : string;
  PodName : string;
  Namespace : string;
  CounterStats : gmap string Channel.channel
}.

(** The record with one channel replaced: a write through the pointer the
    map holds. *)
Definition withCounter (cm : ContainerMetrics) (name : string) (ch : Channel.channel)
  : ContainerMetrics :=
  {| ContainerName := ContainerName cm;
     PodName := PodName cm;
     Namespace := Namespace cm;
     CounterStats := <[name := ch]> (CounterStats cm) |}.

(** The externals of the collector: the machine it reads, the functions
    of the packages accelerator, cgroup, model and collector/metric that it
    calls, and the constants of package config. *)
Record Sys : Type := mkSys {
  world : Type;
  device : Type;
  error : Type;
  float64 : Type;
  NodeMetrics : Type;
  gpuEnergy : Type;
  cpuFrequency : Type;
  (* time *)
  Now : world -> Z;
  (* package accelerator *)
  GetGpus : world -> list device;
  GetProcessResourceUtilizationPerDevice :
    world -> device -> Z -> list (Z * ProcessUtilizationSample) * option error;
  GetGpuEnergyPerGPU : world -> gpuEnergy;
  (* package cgroup *)
  GetContainerIDFromPID : world -> Z -> string * option error;
  containerInfo : world -> string -> Z -> string * string * string;
  (* the ACPI meter *)
  IsPowerSupported : world -> bool;
  GetEnergyFromHost : world -> gmap string float64 * option error;
  GetCPUCoreFrequency : world -> cpuFrequency;
  (* package model *)
  IsNodePlatformPowerModelEnabled : world -> bool;
  GetEstimatedNodePlatformPower : world -> NodeMetrics -> gmap string float64;
  IsNodeComponentPowerModelEnabled : world -> bool;
  GetNodeComponentPowers :
    world -> NodeMetrics -> gmap Z Source.NodeComponentsEnergy;
  (* package components *)
  sysfsImpl : Source.powerInterface world error;
  msrImpl : Source.powerInterface world error;
  dummyImpl : Source.powerInterface world error;
  (* methods of the node metric record *)
  AddNodeResUsageFromContainerResUsage :
    gmap string ContainerMetrics -> NodeMetrics -> NodeMetrics;
  AddLastestPlatformEnergy : gmap string float64 -> NodeMetrics -> NodeMetrics;
  AddNodeComponentsEnergy :
    gmap Z Source.NodeComponentsEnergy -> NodeMetrics -> NodeMetrics;
  AddNodeGPUEnergy : gpuEnergy -> NodeMetrics -> NodeMetrics;
  (* package config and the feature catalog *)
  GPUSMUtilization : string;
  GPUMemUtilization : string;
  AvailableCounters : list string
}.

(** Package variables of config and components that the collector reads. *)
Record globals : Type := mkGlobals {
  EnabledGPU : bool;
  power : Components.vars
}.

Section WithSys.

Variable S : Sys.

Inductive message : Type :=
| MsgError (e : error S)
| MsgResolveFailed (pid : Z) (e : error S) (containerID : string).

(** What a call does to the outside, in order: calls into the other packages
    and lines handed to klog with their verbosity. *)
Inductive event : Type :=
| EvGetGpus
| EvProcessUtilization (d : device S)
| EvGetContainerIDFromPID (pid : Z)
| EvLog (verbosity : nat) (m : message)
| EvIsPowerSupported
| EvGetEnergyFromHost
| EvIsNodePlatformPowerModelEnabled
| EvGetEstimatedNodePlatformPower
| EvIsSystemCollectionSupported
| EvGetNodeComponentsEnergy
| EvIsNodeComponentPowerModelEnabled
| EvGetNodeComponentPowers
| EvGetCPUCoreFrequency
| EvGetGpuEnergyPerGPU.

Record Collector : Type := mkCollector {
  ContainersMetrics : gmap string ContainerMetrics;
  CNodeMetrics : NodeMetrics S;
  NodeCPUFrequency : cpuFrequency S;
  systemProcessName : string
}.

(** The collector, the package variable [lastUtilizationTimestamp] and the
    events so far, oldest first. *)
Record state : Type := mkState {
  coll : Collector;
  lastUtilizationTimestamp : Z;
  trace : list event
}.

Definition emit (e : event) (st : state) : state :=
  {| coll := coll st;
     lastUtilizationTimestamp := lastUtilizationTimestamp st;
     trace := trace st ++ [e] |}.

Definition setColl (c : Collector) (st : state) : state :=
  {| coll := c;
     lastUtilizationTimestamp := lastUtilizationTimestamp st;
     trace := trace st |}.

Definition setContainers (m : gmap string ContainerMetrics) (st : state) : state :=
  setColl {| ContainersMetrics := m;
             CNodeMetrics := CNodeMetrics (coll st);
             NodeCPUFrequency := NodeCPUFrequency (coll st);
             systemProcessName := systemProcessName (coll st) |} st.

Definition setNodeMetrics (n : NodeMetrics S) (st : state) : state :=
  setColl {| ContainersMetrics := ContainersMetrics (coll st);
             CNodeMetrics := n;
             NodeCPUFrequency := NodeCPUFrequency (coll st);
             systemProcessName := systemProcessName (coll st) |} st.

Definition setFrequency (f : cpuFrequency S) (st : state) : state :=
  setColl {| ContainersMetrics := ContainersMetrics (coll st);
             CNodeMetrics := CNodeMetrics (coll st);
             NodeCPUFrequency := f;
             systemProcessName := systemProcessName (coll st) |} st.

Definition logIfError (verbosity : nat) (err : option (error S)) (st : state) : state :=
  match err with
  | Some e => emit (EvLog verbosity (MsgError e)) st
  | None => st
  end.

(** Modelled from the spec: [AddNewCurr] of the channel type, which is
    [add_delta] of section 4.1 ([agg += v; curr += v]); an integer write has
    no domain violation to report. *)
Definition AddNewCurr (v : Z) (ch : Channel.channel) : Channel.channel * option (error S) :=
  (Channel.add_delta v ch, None).

(** Modelled from the spec: [NewContainerMetrics] of package
    collector/metric. Section 3: a channel exists for a name exactly when the
    catalog declares it. *)
Definition NewContainerMetrics (containerName podName namespace : string)
  : ContainerMetrics :=
  {| ContainerName := containerName;
     PodName := podName;
     Namespace := namespace;
     CounterStats :=
       list_to_map ((fun n => (n, Channel.new_channel)) <$> AvailableCounters S) |}.

(** Modelled from the spec: [createContainersMetricsIfNotExist], which
    lives in another file of the package. Section 3: a record is created
    lazily on the first observation of its container id and persists. *)
Definition createContainersMetricsIfNotExist (w : world S) (containerID : string)
  (cgroupID pid : Z) (withCGroupID : bool) (st : state) : state :=
  match ContainersMetrics (coll st) !! containerID with
  | Some _ => st
  | None =>
    let '(containerName, podName, namespace) := containerInfo S w containerID pid in
    setContainers
      (<[containerID := NewContainerMetrics containerName podName namespace]>
         (ContainersMetrics (coll st))) st
  end.

(** [c.ContainersMetrics[id].CounterStats[name].AddNewCurr(v)] with its
    error logged at verbosity 5. Both maps hold pointers: a missing entry is
    a nil pointer and the call panics. *)
Definition addCounter (containerID name : string) (v : Z) (st : state) : run state :=
  match ContainersMetrics (coll st) !! containerID with
  | None => Panic
  | Some cm =>
    match CounterStats cm !! name with
    | None => Panic
    | Some ch =>
      let '(ch', err) := AddNewCurr v ch in
      let cm' := withCounter cm name ch' in
      Done (logIfError 5 err
              (setContainers (<[containerID := cm']> (ContainersMetrics (coll st))) st))
    end
  end.

(** The body of the loop over the pids of one device. *)
Definition accountSample (w : world S) (st : state)
  (entry : Z * ProcessUtilizationSample) : run state :=
  let '(pid, processUtilization) := entry in
  let '(resolved, err) := GetContainerIDFromPID S w (to_uint64 pid) in
  let st := emit (EvGetContainerIDFromPID pid) st in
  let '(containerID, st) :=
    match err with
    | Some e =>
      (systemProcessName (coll st),
       emit (EvLog 5 (MsgResolveFailed pid e (systemProcessName (coll st)))) st)
    | None => (resolved, st)
    end in
  let st := createContainersMetricsIfNotExist w containerID 0 (to_uint64 pid) false st in
  st <-! addCounter containerID (GPUSMUtilization S)
           (to_uint64 (SmUtil processUtilization)) st ;
  addCounter containerID (GPUMemUtilization S)
    (to_uint64 (MemUtil processUtilization)) st.

(** The body of the loop over the devices. The map the query returned is
    ranged over whether or not it came with an error; its entries are given
    in the order the range visits them. *)
Definition accountDevice (w : world S) (st : state) (d : device S) : run state :=
  let '(processesUtilization, err) :=
    GetProcessResourceUtilizationPerDevice S w d (Now S w - lastUtilizationTimestamp st) in
  let st := emit (EvProcessUtilization d) st in
  let st := logIfError 2 err st in
  foldM (accountSample w) processesUtilization st.

Definition setTimestamp (t : Z) (st : state) : state :=
  {| coll := coll st; lastUtilizationTimestamp := t; trace := trace st |}.

Definition updateAcceleratorMetrics (w : world S) (st : state) : run state :=
  st <-! foldM (accountDevice w) (GetGpus S w) (emit EvGetGpus st) ;
  Done (setTimestamp (Now S w) st).

(** [st'] comes after [st] within one call: the timestamp is untouched and
    the events of [st] are the first events of [st']. *)
Definition follows (st st' : state) : Prop :=
  lastUtilizationTimestamp st' = lastUtilizationTimestamp st
  /\ exists evs, trace st' = (trace st ++ evs)%list.

(** What the program holds, apart from the record of events. *)
Definition data (st : state) : Collector * Z :=
  (coll st, lastUtilizationTimestamp st).

Definition updateNodeResourceUsage (st : state) : state :=
  setNodeMetrics
    (AddNodeResUsageFromContainerResUsage S (ContainersMetrics (coll st))
       (CNodeMetrics (coll st))) st.

Definition updatePlatformEnergy (w : world S) (st : state) : state :=
  let st := emit EvIsPowerSupported st in
  let '(nodePlatformEnergy, st) :=
    if IsPowerSupported S w then
      (fst (GetEnergyFromHost S w), emit EvGetEnergyFromHost st)
    else
      let st := emit EvIsNodePlatformPowerModelEnabled st in
      if IsNodePlatformPowerModelEnabled S w then
        (GetEstimatedNodePlatformPower S w (CNodeMetrics (coll st)),
         emit EvGetEstimatedNodePlatformPower st)
      else (∅, st) in
  setNodeMetrics (AddLastestPlatformEnergy S nodePlatformEnergy (CNodeMetrics (coll st))) st.

Definition updateNodeComponentsEnergy (g : globals) (w : world S) (st : state) : state :=
  let st := emit EvIsSystemCollectionSupported st in
  let '(nodeComponentsEnergy, st) :=
    if Components.IsSystemCollectionSupported (sysfsImpl S) (msrImpl S) (dummyImpl S)
         (power g) w then
      (Components.GetNodeComponentsEnergy (sysfsImpl S) (msrImpl S) (dummyImpl S)
         (power g) w,
       emit EvGetNodeComponentsEnergy st)
    else
      let st := emit EvIsNodeComponentPowerModelEnabled st in
      if IsNodeComponentPowerModelEnabled S w then
        (GetNodeComponentPowers S w (CNodeMetrics (coll st)),
         emit EvGetNodeComponentPowers st)
      else (∅, st) in
  setNodeMetrics (AddNodeComponentsEnergy S nodeComponentsEnergy (CNodeMetrics (coll st))) st.

Definition updateNodeGPUEnergy (g : globals) (w : world S) (st : state) : state :=
  if EnabledGPU g then
    let gpuEnergy := GetGpuEnergyPerGPU S w in
    let st := emit EvGetGpuEnergyPerGPU st in
    setNodeMetrics (AddNodeGPUEnergy S gpuEnergy (CNodeMetrics (coll st))) st
  else st.

Definition updateNodeAvgCPUFrequency (w : world S) (st : state) : state :=
  setFrequency (GetCPUCoreFrequency S w) (emit EvGetCPUCoreFrequency st).

Definition updateNodeEnergyMetrics (g : globals) (w : world S) (st : state) : state :=
  let st := updatePlatformEnergy w st in
  let st := updateNodeComponentsEnergy g w st in
  let st := updateNodeAvgCPUFrequency w st in
  updateNodeGPUEnergy g w st.

(** The events of each step of [updateNodeEnergyMetrics], as the machine
    and the package variables decide them. *)
Definition platformEvents (w : world S) : list event :=
  if IsPowerSupported S w then [EvIsPowerSupported; EvGetEnergyFromHost]
  else if IsNodePlatformPowerModelEnabled S w
       then [EvIsPowerSupported; EvIsNodePlatformPowerModelEnabled;
             EvGetEstimatedNodePlatformPower]
       else [EvIsPowerSupported; EvIsNodePlatformPowerModelEnabled].

Definition componentsEvents (g : globals) (w : world S) : list event :=
  if Components.IsSystemCollectionSupported (sysfsImpl S) (msrImpl S) (dummyImpl S)
       (power g) w
  then [EvIsSystemCollectionSupported; EvGetNodeComponentsEnergy]
  else if IsNodeComponentPowerModelEnabled S w
       then [EvIsSystemCollectionSupported; EvIsNodeComponentPowerModelEnabled;
             EvGetNodeComponentPowers]
       else [EvIsSystemCollectionSupported; EvIsNodeComponentPowerModelEnabled].

Definition gpuEvents (g : globals) : list event :=
  if EnabledGPU g then [EvGetGpuEnergyPerGPU] else [].

Definition nodeEnergyEvents (g : globals) (w : world S) : list event :=
  platformEvents w ++ componentsEvents g w ++ [EvGetCPUCoreFrequency] ++ gpuEvents g.

(** The collector after [e] went into the platform channel of the node. *)
Definition platformRecorded (e : gmap string (float64 S)) (st : state) : Collector :=
  coll (setNodeMetrics (AddLastestPlatformEnergy S e (CNodeMetrics (coll st))) st).

(** Position of the first event satisfying [p]. *)
Fixpoint first_index (p : event -> bool) (l : list event) : option nat :=
  match l with
  | [] => None
  | e :: l' => if p e then Some O else option_map Datatypes.S (first_index p l')
  end.

(** Both kinds of event occur and the first [p] comes before the first [q]. *)
Definition precedes (p q : event -> bool) (l : list event) : bool :=
  match first_index p l, first_index q l with
  | Some i, Some j => Nat.ltb i j
  | _, _ => false
  end.

Definition isPlatformRead (e : event) : bool :=
  match e with
  | EvGetEnergyFromHost | EvGetEstimatedNodePlatformPower => true
  | _ => false
  end.

Definition isComponentsRead (e : event) : bool :=
  match e with
  | EvGetNodeComponentsEnergy | EvGetNodeComponentPowers => true
  | _ => false
  end.

Definition isFrequencyRead (e : event) : bool :=
  match e with EvGetCPUCoreFrequency => true | _ => false end.

Definition isGPURead (e : event) : bool :=
  match e with EvGetGpuEnergyPerGPU => true | _ => false end.

(** What a call on the accelerator leaves alone: the node record, the
    CPU frequency, the system-process name, and of every container record
    already there its names and every channel but the two of the
    accelerator. *)
Definition preserved (st st' : state) : Prop :=
  CNodeMetrics (coll st') = CNodeMetrics (coll st)
  /\ NodeCPUFrequency (coll st') = NodeCPUFrequency (coll st)
  /\ systemProcessName (coll st') = systemProcessName (coll st)
  /\ forall id cm,
       ContainersMetrics (coll st) !! id = Some cm ->
       exists cm',
         ContainersMetrics (coll st') !! id = Some cm'
         /\ ContainerName cm' = ContainerName cm
         /\ PodName cm' = PodName cm
         /\ Namespace cm' = Namespace cm
         /\ forall name, name <> GPUSMUtilization S -> name <> GPUMemUtilization S ->
              CounterStats cm' !! name = CounterStats cm !! name.

(** The catalog declares the two accelerator channels and every container
    record holds them: what the accelerator update needs to find its
    channels. *)
Definition ready (st : state) : Prop :=
  In (GPUSMUtilization S) (AvailableCounters S)
  /\ In (GPUMemUtilization S) (AvailableCounters S)
  /\ forall id cm,
       ContainersMetrics (coll st) !! id = Some cm ->
       is_Some (CounterStats cm !! GPUSMUtilization S)
       /\ is_Some (CounterStats cm !! GPUMemUtilization S).

(** The container a sample of [pid] is accounted to: the one the resolver
    names, or the system-process container when the resolver fails. *)
Definition targetOf (w : world S) (sysName : string) (pid : Z) : string :=
  match GetContainerIDFromPID S w (to_uint64 pid) with
  | (_, Some _) => sysName
  | (resolved, None) => resolved
  end.

(** The channel [name] of container [id]; a container not yet seen stands
    at the zero channel its record will start with. *)
Definition channelOf (st : state) (id name : string) : option Channel.channel :=
  match ContainersMetrics (coll st) !! id with
  | Some cm => CounterStats cm !! name
  | None => Some Channel.new_channel
  end.

Definition currOf (st : state) (id name : string) : Z :=
  match channelOf st id name with
  | Some ch => Channel.curr ch
  | None => 0
  end.

(** What the samples of a list add up to for container [id]. *)
Definition attributed (w : world S) (sysName id : string)
  (field : ProcessUtilizationSample -> Z)
  (samples : list (Z * ProcessUtilizationSample)) : Z :=
  fold_right
    (fun entry acc =>
       if String.eqb (targetOf w sysName (fst entry)) id
       then (to_uint64 (field (snd entry)) + acc)%Z else acc)
    0%Z samples.

(** The samples the queries of the devices [ds] hand back in one call,
    device after device. *)
Definition samplesFrom (w : world S) (st : state) (ds : list (device S))
  : list (Z * ProcessUtilizationSample) :=
  List.flat_map
    (fun d => fst (GetProcessResourceUtilizationPerDevice S w d
                     (Now S w - lastUtilizationTimestamp st)))
    ds.

(** The samples of one call, device after device, as the queries hand
    them back. *)
Definition samplesOf (w : world S) (st : state) : list (Z * ProcessUtilizationSample) :=
  List.flat_map
    (fun d => fst (GetProcessResourceUtilizationPerDevice S w d
                     (Now S w - lastUtilizationTimestamp st)))
    (GetGpus S w).

End WithSys.

Arguments MsgError {S} e.
Arguments MsgResolveFailed {S} pid e containerID.
Arguments EvGetGpus {S}.
Arguments EvProcessUtilization {S} d.
Arguments EvGetContainerIDFromPID {S} pid.
Arguments EvLog {S} verbosity m.
Arguments EvIsPowerSupported {S}.
Arguments EvGetEnergyFromHost {S}.
Arguments EvIsNodePlatformPowerModelEnabled {S}.
Arguments EvGetEstimatedNodePlatformPower {S}.
Arguments EvIsSystemCollectionSupported {S}.
Arguments EvGetNodeComponentsEnergy {S}.
Arguments EvIsNodeComponentPowerModelEnabled {S}.
Arguments EvGetNodeComponentPowers {S}.
Arguments EvGetCPUCoreFrequency {S}.
Arguments EvGetGpuEnergyPerGPU {S}.
Arguments ContainersMetrics {S} c.
Arguments CNodeMetrics {S} c.
Arguments NodeCPUFrequency {S} c.
Arguments systemProcessName {S} c.
Arguments coll {S} s.
Arguments lastUtilizationTimestamp {S} s.
Arguments trace {S} s.
Arguments emit {S} e st.
Arguments setTimestamp {S} t st.
Arguments data {S} st.
Arguments follows {S} st st'.
Arguments preserved {S} st st'.
Arguments ready {S} st.
Arguments channelOf {S} st id name.
Arguments currOf {S} st id name.
Arguments setColl {S} c st.
Arguments setContainers {S} m st.
Arguments setNodeMetrics {S} n st.
Arguments setFrequency {S} f st.
Arguments logIfError {S} verbosity err st.
Arguments first_index {S} p l.
Arguments precedes {S} p q l.
Arguments isPlatformRead {S} e.
Arguments isComponentsRead {S} e.
Arguments isFrequencyRead {S} e.
Arguments isGPURead {S} e.

End Collector.

(** * A small concrete machine

    One instance of the externals, on which the functions above run by
    computation: devices are numbers, errors are strings, the node record is
    the list of what was added to it, newest first. *)

Module Demo.

Inductive entry : Type :=
| ResUsage (containers : nat)
| PlatformEnergy (e : gmap string Z)
| ComponentsEnergy (e : gmap Z Source.NodeComponentsEnergy)
| GPUEnergy (e : Z).

Record machine : Type := mkMachine {
  clock : Z;
  meter : option Z;
  platformModel : option Z;
  sysfs : bool;
  componentModel : bool;
  gpus : list nat;
  utilization : nat -> list (Z * Collector.ProcessUtilizationSample) * option string;
  resolve : Z -> string * option string
}.

Definition platformMap (e : Z) : gmap string Z := {[ "node" := e ]}.

Definition socket0 (e : Z) : gmap Z Source.NodeComponentsEnergy :=
  {[ 0%Z := Source.mkNodeComponentsEnergy e e e e ]}.

Definition backendOf (supported : machine -> bool) (e : Z)
  : Source.powerInterface machine string :=
  {| Source.GetEnergyFromDram := fun _ => (e, None);
     Source.GetEnergyFromCore := fun _ => (e, None);
     Source.GetEnergyFromUncore := fun _ => (e, None);
     Source.GetEnergyFromPackage := fun _ => (e, None);
     Source.GetNodeComponentsEnergy := fun _ => socket0 e;
     Source.StopPower := fun m => m;
     Source.IsSystemCollectionSupported := supported |}.

Definition sys : Collector.Sys :=
  {| Collector.world := machine;
     Collector.device := nat;
     Collector.error := string;
     Collector.float64 := Z;
     Collector.NodeMetrics := list entry;
     Collector.gpuEnergy := Z;
     Collector.cpuFrequency := Z;
     Collector.Now := clock;
     Collector.GetGpus := gpus;
     Collector.GetProcessResourceUtilizationPerDevice := fun m d _ => utilization m d;
     Collector.GetGpuEnergyPerGPU := fun _ => 40%Z;
     Collector.GetContainerIDFromPID := resolve;
     Collector.containerInfo := fun _ id _ => (id, "pod", "ns");
     Collector.IsPowerSupported := fun m => bool_decide (is_Some (meter m));
     Collector.GetEnergyFromHost :=
       fun m => match meter m with
                | Some e => (platformMap e, None)
                | None => (∅, Some "no meter")
                end;
     Collector.GetCPUCoreFrequency := fun _ => 2400%Z;
     Collector.IsNodePlatformPowerModelEnabled :=
       fun m => bool_decide (is_Some (platformModel m));
     Collector.GetEstimatedNodePlatformPower :=
       fun m _ => match platformModel m with
                  | Some e => platformMap e
                  | None => ∅
                  end;
     Collector.IsNodeComponentPowerModelEnabled := componentModel;
     Collector.GetNodeComponentPowers := fun _ _ => socket0 3;
     Collector.sysfsImpl := backendOf sysfs 18;
     Collector.msrImpl := backendOf (fun _ => false) 0;
     Collector.dummyImpl := backendOf (fun _ => false) 0;
     Collector.AddNodeResUsageFromContainerResUsage :=
       fun cs n => ResUsage (size cs) :: n;
     Collector.AddLastestPlatformEnergy := fun e n => PlatformEnergy e :: n;
     Collector.AddNodeComponentsEnergy := fun e n => ComponentsEnergy e :: n;
     Collector.AddNodeGPUEnergy := fun e n => GPUEnergy e :: n;
     Collector.GPUSMUtilization := "gpu_sm_util";
     Collector.GPUMemUtilization := "gpu_mem_util";
     Collector.AvailableCounters := ["cpu_cycles"; "gpu_sm_util"; "gpu_mem_util"] |}.

(** Device 0 answers with pids 7 and 8, device 1 fails, device 2 answers
    with pid 9; pid 7 belongs to containerA, the others resolve to nothing. *)
Definition node : machine :=
  {| clock := 3000;
     meter := Some 5%Z;
     platformModel := Some 5%Z;
     sysfs := true;
     componentModel := false;
     gpus := [0; 1; 2]%nat;
     utilization := fun d =>
       match d with
       | 0%nat => ([(7%Z, Collector.mkSample 30 10); (8%Z, Collector.mkSample 5 2)], None)
       | 1%nat => ([], Some "device lost")
       | _ => ([(9%Z, Collector.mkSample 11 4)], None)
       end;
     resolve := fun pid =>
       if Z.eqb pid 7 then ("containerA", None) else ("", Some "no such pid") |}.

(** The same node without a platform meter: the model steps in. *)
Definition node_without_meter : machine :=
  {| clock := clock node; meter := None; platformModel := platformModel node;
     sysfs := sysfs node; componentModel := componentModel node; gpus := gpus node;
     utilization := utilization node; resolve := resolve node |}.

(** A node on which the failed query still hands back a sample. *)
Definition node_partial_failure : machine :=
  {| clock := clock node; meter := meter node; platformModel := platformModel node;
     sysfs := sysfs node; componentModel := componentModel node; gpus := [1]%nat;
     utilization := fun _ => ([(9%Z, Collector.mkSample 11 4)], Some "device lost");
     resolve := resolve node |}.

Definition start : Collector.state sys :=
  Collector.mkState sys
    (Collector.mkCollector sys ∅ [] 0%Z "system_processes") 0 [].

Definition gpu_on : Collector.globals :=
  {| Collector.EnabledGPU := true;
     Collector.power := {| Components.powerImpl := Components.Sysfs;
                           Components.useMSR := false |} |}.

Definition gpu_off : Collector.globals :=
  {| Collector.EnabledGPU := false; Collector.power := Collector.power gpu_on |}.

(** A node without sysfs counters on which the component model is on. *)
Definition node_modelled : machine :=
  {| clock := clock node; meter := None; platformModel := Some 7%Z;
     sysfs := false; componentModel := true; gpus := gpus node;
     utilization := utilization node; resolve := resolve node |}.

(** A node whose two devices have nothing to report, the second with an
    error. *)
Definition node_quiet : machine :=
  {| clock := clock node; meter := meter node; platformModel := platformModel node;
     sysfs := sysfs node; componentModel := componentModel node;
     gpus := [0; 1]%nat;
     utilization := fun d =>
       match d with
       | 0%nat => ([], None)
       | _ => ([], Some "device lost")
       end;
     resolve := resolve node |}.

(** The search and the readers of package cgroup over a tree: a container
    is found at the first path of the walk that ends with its id followed
    by [.scope]. *)
Definition searchIn (fs : Cgroup.node) (top id : string) : string :=
  Cgroup.searchBySuffix fs top (id ++ ".scope").
Definition readAt (fs : Cgroup.node) (r : Cgroup.StatReader) : gmap string Z :=
  match r with
  | Cgroup.CPUStatReader p =>
      if String.eqb p "" then ∅ else {[ "cpu_usage" := 1%Z ]}
  | Cgroup.MemoryStatReader p =>
      if String.eqb p "" then ∅ else {[ "memory_usage" := 2%Z ]}
  | Cgroup.IOStatReader p =>
      if String.eqb p "" then ∅ else {[ "io_bytes" := 3%Z; "cpu_usage" := 9%Z ]}
  end.

Definition kubeHandler : Cgroup.SliceHandler :=
  Cgroup.mkSliceHandler (Some ∅) Cgroup.KubePodCGroupPath Cgroup.KubePodCGroupPath
    Cgroup.KubePodCGroupPath.

Definition abcReaders : list Cgroup.StatReader :=
  [Cgroup.CPUStatReader "/c"; Cgroup.MemoryStatReader "/m"; Cgroup.IOStatReader "/i"].

Definition abcHandler : Cgroup.SliceHandler :=
  Cgroup.withReaders kubeHandler {[ "abc" := abcReaders ]}.

(** A handler whose CPU top path is empty. *)
Definition rootlessHandler : Cgroup.SliceHandler :=
  Cgroup.mkSliceHandler (Some ∅) "" "/mem" "/io".

Definition legacyHandler : Cgroup.SliceHandler :=
  Cgroup.mkSliceHandler (Some ∅) Cgroup.legacyCPU Cgroup.legacyMemory Cgroup.legacyIO.

(** A cgroup tree with one pod and one container scope in it. *)
Definition kubepods : Cgroup.node :=
  Cgroup.Node "/sys/fs/cgroup/kubepods.slice"
    [Cgroup.Node "/sys/fs/cgroup/kubepods.slice/cgroup.procs" [];
     Cgroup.Node "/sys/fs/cgroup/kubepods.slice/kubepods-besteffort.slice"
       [Cgroup.Node
          "/sys/fs/cgroup/kubepods.slice/kubepods-besteffort.slice/kubepods-pod1.slice"
          [Cgroup.Node
             "/sys/fs/cgroup/kubepods.slice/kubepods-besteffort.slice/kubepods-pod1.slice/crio-12b270d3.scope"
             []]]].

(** The same tree before any container runs. *)
Definition kubepods_idle : Cgroup.node :=
  Cgroup.Node "/sys/fs/cgroup/kubepods.slice"
    [Cgroup.Node "/sys/fs/cgroup/kubepods.slice/kubepods-besteffort.slice" []].

(** The file system of package cgroup as the set of paths that exist. *)
Definition files : Type := string -> bool.
Definition exists_in (fs : files) (p : string) : bool := fs p.
Definition no_files : files := fun _ => false.
Definition search (fs : files) (top id : string) : string :=
  if fs (top ++ "/" ++ id) then top ++ "/" ++ id else "".
Definition readFile (fs : files) (r : Cgroup.StatReader) : gmap string Z :=
  match r with
  | Cgroup.CPUStatReader p => if fs p then {[ "cpu" := 1%Z ]} else ∅
  | Cgroup.MemoryStatReader p => if fs p then {[ "memory" := 2%Z ]} else ∅
  | Cgroup.IOStatReader p => if fs p then {[ "io" := 3%Z ]} else ∅
  end.

End Demo.

(** * Facts about the helpers *)

Lemma run_bind_Done {A B : Type} (r : run A) (k : A -> run B) (b : B) :
  run_bind r k = Done b -> exists a, r = Done a /\ k a = Done b.
Proof.
  destruct r as [a|]; simpl; intros H; [eauto | discriminate].
Qed.

Lemma foldM_app {A B : Type} (f : A -> B -> run A) (l1 l2 : list B) (a : A) :
  foldM f (l1 ++ l2) a = run_bind (foldM f l1 a) (foldM f l2).
Proof.
  revert a. induction l1 as [|b l1 IH]; intros a; simpl; [reflexivity|].
  destruct (f a b) as [a'|]; simpl; [apply IH | reflexivity].
Qed.

Example replace_first_path :
  strings_Replace1 "/sys/fs/cgroup/cpu/kubepods/pod1/abc" "/sys/fs/cgroup/cpu"
    "/sys/fs/cgroup/memory" = "/sys/fs/cgroup/memory/kubepods/pod1/abc".
Proof. reflexivity. Qed.

Example replace_first_only_first :
  strings_Replace1 "a/b/a/b" "a" "xy" = "xy/b/a/b".
Proof. reflexivity. Qed.

Example replace_first_absent : strings_Replace1 "" "/top" "/mem" = "".
Proof. reflexivity. Qed.

(** * pkg/cgroup: theorems *)

Section CgroupFacts.

Context {world value : Type}.
Variable stat_ok : world -> string -> bool.
Variable SearchByContainerID : world -> string -> string -> string.
Variable Read : world -> Cgroup.StatReader -> gmap string value.
Variable convertToStandard : gmap string value -> gmap string value.

Local Abbreviation InitSliceHandler := (Cgroup.InitSliceHandler stat_ok).
Local Abbreviation SetSliceHandler := (Cgroup.SetSliceHandler stat_ok).
Local Abbreviation TryInitStatReaders := (Cgroup.TryInitStatReaders SearchByContainerID).
Local Abbreviation tryInitAll := (Cgroup.tryInitAll SearchByContainerID).
Local Abbreviation GetStats := (Cgroup.GetStats Read).
Local Abbreviation GetStandardStat := (Cgroup.GetStandardStat Read convertToStandard).

Lemma InitSliceHandler_readers (w : world) :
  Cgroup.statReaders (fst (InitSliceHandler w)) = Some ∅.
Proof.
  unfold Cgroup.InitSliceHandler.
  destruct (stat_ok w Cgroup.KubePodCGroupPath); [reflexivity|].
  destruct (stat_ok w Cgroup.SystemCGroupPath); reflexivity.
Qed.

(** C5 (as amended). [InitSliceHandler] hands exactly the kube-pods path
    and, if that is missing, the system slice path to [os.Stat]. The first
    of the two that exists becomes all three top paths; when neither exists
    the legacy per-controller paths cpu, memory and blkio under the base
    path are taken without being probed. The reader map starts empty. *)
Theorem C5_InitSliceHandler_discovery (w : world) :
  (stat_ok w Cgroup.KubePodCGroupPath = true ->
     Cgroup.topPaths (fst (InitSliceHandler w))
       = (Cgroup.KubePodCGroupPath, Cgroup.KubePodCGroupPath, Cgroup.KubePodCGroupPath)
     /\ snd (InitSliceHandler w) = [Cgroup.KubePodCGroupPath])
  /\ (stat_ok w Cgroup.KubePodCGroupPath = false ->
      stat_ok w Cgroup.SystemCGroupPath = true ->
     Cgroup.topPaths (fst (InitSliceHandler w))
       = (Cgroup.SystemCGroupPath, Cgroup.SystemCGroupPath, Cgroup.SystemCGroupPath)
     /\ snd (InitSliceHandler w) = [Cgroup.KubePodCGroupPath; Cgroup.SystemCGroupPath])
  /\ (stat_ok w Cgroup.KubePodCGroupPath = false ->
      stat_ok w Cgroup.SystemCGroupPath = false ->
     Cgroup.topPaths (fst (InitSliceHandler w)) = (Cgroup.legacyCPU, Cgroup.legacyMemory, Cgroup.legacyIO)
     /\ snd (InitSliceHandler w) = [Cgroup.KubePodCGroupPath; Cgroup.SystemCGroupPath])
  /\ (forall p, In p (snd (InitSliceHandler w)) ->
        p = Cgroup.KubePodCGroupPath \/ p = Cgroup.SystemCGroupPath)
  /\ Cgroup.statReaders (fst (InitSliceHandler w)) = Some ∅.
Proof.
  unfold Cgroup.InitSliceHandler, Cgroup.topPaths.
  destruct (stat_ok w Cgroup.KubePodCGroupPath) eqn:Hk;
    [| destruct (stat_ok w Cgroup.SystemCGroupPath) eqn:Hs]; simpl;
    repeat split; try discriminate; try reflexivity; intros;
    repeat match goal with
           | H : _ \/ _ |- _ => destruct H
           | H : False |- _ => destruct H
           end; subst; auto.
Qed.

Lemma readersOf_withReaders (s : Cgroup.SliceHandler)
  (m : gmap string (list Cgroup.StatReader)) (id : string) :
  Cgroup.readersOf (Cgroup.withReaders s m) id = m !! id.
Proof. reflexivity. Qed.

Lemma TryInitStatReaders_registered (w : world) (s : Cgroup.SliceHandler) (id : string) :
  is_Some (Cgroup.readersOf s id) ->
  TryInitStatReaders w (Some s) id = Done (Some s).
Proof.
  intros [rs Hrs]. unfold Cgroup.TryInitStatReaders. rewrite Hrs. reflexivity.
Qed.

(** What a call that returns has done: nothing if the id was registered,
    else one entry with three readers was added. *)
Lemma TryInitStatReaders_Done (w : world) (inst inst' : option Cgroup.SliceHandler)
  (id : string) :
  TryInitStatReaders w inst id = Done inst' ->
  exists s s', inst = Some s /\ inst' = Some s' /\
    ((is_Some (Cgroup.readersOf s id) /\ s' = s)
     \/ (exists m cpu mem io,
           Cgroup.statReaders s = Some m /\ m !! id = None /\
           s' = Cgroup.withReaders s
                  (<[id := [Cgroup.CPUStatReader cpu; Cgroup.MemoryStatReader mem;
                            Cgroup.IOStatReader io]]> m))).
Proof.
  unfold Cgroup.TryInitStatReaders.
  destruct inst as [s|]; [|discriminate].
  destruct (Cgroup.readersOf s id) as [rs|] eqn:Hrs.
  - intros [= <-]. exists s, s. repeat split; left; eauto.
  - unfold Cgroup.SetStatReaders. unfold Cgroup.readersOf, Cgroup.GetStatReaders in Hrs.
    destruct (Cgroup.statReaders s) as [m|] eqn:Hm; simpl; [|discriminate].
    intros [= <-]. eexists s, _. repeat split. right.
    eexists m, _, _, _. split; [exact Hm|]. split; [exact Hrs | reflexivity].
Qed.

Lemma TryInitStatReaders_registers (w : world) (inst : option Cgroup.SliceHandler)
  (s' : Cgroup.SliceHandler) (id : string) :
  TryInitStatReaders w inst id = Done (Some s') ->
  is_Some (Cgroup.readersOf s' id).
Proof.
  intros H. apply TryInitStatReaders_Done in H
    as (s & s0 & -> & [= <-] & [[Hreg ->] | (m & cpu & mem & io & Hm & Hid & ->)]).
  - exact Hreg.
  - rewrite readersOf_withReaders, lookup_insert_eq. eauto.
Qed.

Lemma one_of_each_three (cpu mem io : string) :
  Cgroup.one_of_each
    [Cgroup.CPUStatReader cpu; Cgroup.MemoryStatReader mem; Cgroup.IOStatReader io].
Proof. repeat split. Qed.

Lemma SetSliceHandler_wf (w : world) : Cgroup.readers_wf (SetSliceHandler w).
Proof.
  exists (fst (InitSliceHandler w)), ∅.
  split; [reflexivity|]. split; [apply InitSliceHandler_readers|].
  intros k rs H. rewrite lookup_empty in H. discriminate.
Qed.

Lemma TryInitStatReaders_total (w : world) (inst : option Cgroup.SliceHandler)
  (id : string) :
  Cgroup.readers_wf inst ->
  exists inst', TryInitStatReaders w inst id = Done inst' /\ Cgroup.readers_wf inst'.
Proof.
  intros (s & m & -> & Hm & Hwf).
  unfold Cgroup.TryInitStatReaders, Cgroup.readersOf, Cgroup.GetStatReaders, Cgroup.SetStatReaders.
  rewrite Hm. destruct (m !! id) as [rs|] eqn:Hid; simpl.
  - eexists. split; [reflexivity|]. exists s, m. auto.
  - eexists. split; [reflexivity|].
    eexists _, _. split; [reflexivity|]. split; [reflexivity|].
    intros k rs'. rewrite lookup_insert. case_decide.
    + intros [= <-]. apply one_of_each_three.
    + apply Hwf.
Qed.

Lemma tryInitAll_total (calls : list (world * string))
  (inst : option Cgroup.SliceHandler) :
  Cgroup.readers_wf inst ->
  exists inst', tryInitAll calls inst = Done inst' /\ Cgroup.readers_wf inst'.
Proof.
  unfold Cgroup.tryInitAll. revert inst.
  induction calls as [|[w id] calls IH]; intros inst Hwf; cbn [foldM fst snd].
  - eauto.
  - destruct (TryInitStatReaders_total w inst id Hwf) as (inst1 & -> & Hwf1).
    cbn [run_bind]. apply IH, Hwf1.
Qed.

Lemma TryInitStatReaders_again (w1 w2 : world)
  (inst inst' : option Cgroup.SliceHandler) (id : string) :
  TryInitStatReaders w1 inst id = Done inst' ->
  TryInitStatReaders w2 inst' id = Done inst'.
Proof.
  intros H.
  destruct (TryInitStatReaders_Done _ _ _ _ H) as (s & s' & -> & -> & _).
  apply TryInitStatReaders_registered, (TryInitStatReaders_registers _ _ _ _ H).
Qed.

(** C10. [TryInitStatReaders] is idempotent. Once a call for an id has
    returned, a further call for that id, on whatever the file system has
    become, returns the handler as it is; a call for an id that already has
    readers changes nothing; and where every entry held one CPU, one memory
    and one IO reader before the call, every entry does after it, the
    entry of the id included. *)
Theorem C10_TryInitStatReaders_idempotent (w1 w2 : world)
  (inst inst' : option Cgroup.SliceHandler) (id : string) :
  TryInitStatReaders w1 inst id = Done inst' ->
  TryInitStatReaders w2 inst' id = Done inst'
  /\ (forall s, inst = Some s -> is_Some (Cgroup.readersOf s id) -> inst' = inst)
  /\ (Cgroup.readers_wf inst ->
      Cgroup.readers_wf inst'
      /\ exists s' rs, inst' = Some s' /\ Cgroup.readersOf s' id = Some rs
                       /\ Cgroup.one_of_each rs).
Proof.
  intros H.
  destruct (TryInitStatReaders_Done _ _ _ _ H) as (s & s' & -> & -> & Hcase).
  pose proof (TryInitStatReaders_registers _ _ _ _ H) as Hreg.
  split; [apply (TryInitStatReaders_again w1 w2 _ _ id H)|].
  split.
  - intros s0 [= <-] Hs.
    rewrite (TryInitStatReaders_registered w1 s id Hs) in H. congruence.
  - intros Hwf.
    destruct (TryInitStatReaders_total w1 _ id Hwf) as (i1 & Hi1 & Hwf1).
    rewrite H in Hi1. injection Hi1 as <-. split; [exact Hwf1|].
    destruct Hreg as [rs Hrs]. exists s', rs. repeat split; try exact Hrs;
      destruct Hwf1 as (s1 & m1 & [= <-] & Hm1 & Hall);
      unfold Cgroup.readersOf, Cgroup.GetStatReaders in Hrs; rewrite Hm1 in Hrs;
      apply (Hall id rs Hrs).
Qed.

(** After startup and any sequence of calls, the next call returns, and
    calling it twice gives the state that calling it once gives. *)
Corollary TryInitStatReaders_twice_after_startup (w0 w1 w2 : world)
  (calls : list (world * string)) (id : string) :
  exists inst inst',
    tryInitAll calls (SetSliceHandler w0) = Done inst
    /\ TryInitStatReaders w1 inst id = Done inst'
    /\ run_bind (TryInitStatReaders w1 inst id) (fun i => TryInitStatReaders w2 i id)
       = TryInitStatReaders w1 inst id
    /\ Cgroup.readers_wf inst'.
Proof.
  destruct (tryInitAll_total calls _ (SetSliceHandler_wf w0)) as (inst & Hrun & Hwf).
  destruct (TryInitStatReaders_total w1 inst id Hwf) as (inst' & Hcall & Hwf').
  exists inst, inst'. repeat split; try assumption.
  rewrite Hcall. cbn [run_bind].
  apply (TryInitStatReaders_again w1 w2 inst inst' id Hcall).
Qed.

Lemma mergeReads_nil (w : world) : Cgroup.mergeReads Read w [] = ∅.
Proof. reflexivity. Qed.

(** C8. For a container id without registered stat readers, [GetStats]
    returns the empty map, whatever the files hold, and [GetStandardStat]
    returns the standard form of the empty map, which is empty as soon as
    [convertToStandard] makes no entry out of none. Neither panics, and
    neither has an error to return. *)
Theorem C8_GetStats_unregistered (w : world) (s : Cgroup.SliceHandler) (id : string) :
  Cgroup.readersOf s id = None ->
  convertToStandard ∅ = ∅ ->
  GetStats w s id = ∅ /\ GetStandardStat w (Some s) id = Done ∅.
Proof.
  intros Hnone Hconv.
  assert (Hstats : GetStats w s id = ∅).
  { unfold Cgroup.GetStats. rewrite Hnone. reflexivity. }
  split; [exact Hstats|].
  unfold Cgroup.GetStandardStat. fold (GetStats w s id).
  rewrite Hstats, Hconv. reflexivity.
Qed.

End CgroupFacts.

(** * pkg/power/components: theorems *)

Section ComponentsFacts.

Context {world error : Type}.
Variable sysfsImpl msrImpl dummyImpl : Source.powerInterface world error.

Local Abbreviation init := (Components.init sysfsImpl msrImpl).
Local Abbreviation preferred := (Components.preferred sysfsImpl msrImpl).
Local Abbreviation perform := (Components.perform sysfsImpl msrImpl dummyImpl).
Local Abbreviation perform_on := (Components.perform_on sysfsImpl msrImpl dummyImpl).

Lemma init_selects (w0 : world) (v0 : Components.vars) :
  Components.powerImpl (init w0 v0) = preferred w0 (Components.useMSR v0).
Proof.
  unfold Components.init, Components.preferred.
  destruct (Source.IsSystemCollectionSupported sysfsImpl w0); [reflexivity|].
  rewrite andb_comm.
  destruct (Components.useMSR v0 && Source.IsSystemCollectionSupported msrImpl w0);
    reflexivity.
Qed.

Lemma init_keeps_flag (w0 : world) (v0 : Components.vars) :
  Components.useMSR (init w0 v0) = Components.useMSR v0.
Proof.
  unfold Components.init.
  destruct (Source.IsSystemCollectionSupported sysfsImpl w0); [reflexivity|].
  destruct (Source.IsSystemCollectionSupported msrImpl w0 && Components.useMSR v0);
    reflexivity.
Qed.

Lemma perform_dispatch (v : Components.vars) (w : world) (r : Components.read) :
  perform v w r = perform_on (Components.powerImpl v) w r.
Proof. destruct r; reflexivity. Qed.

Lemma reads_of_selected (v : Components.vars) (b : Components.backend)
  (i : Source.powerInterface world error) :
  Components.powerImpl v = b ->
  Components.impl sysfsImpl msrImpl dummyImpl b = i ->
  Components.reads_go_to sysfsImpl msrImpl dummyImpl v i.
Proof.
  intros Hb Hi w.
  unfold Components.GetEnergyFromDram, Components.GetEnergyFromCore,
    Components.GetEnergyFromUncore, Components.GetEnergyFromPackage,
    Components.GetNodeComponentsEnergy.
  rewrite Hb, Hi. repeat split.
Qed.

(** C4. [init] leaves [powerImpl] on the direct (sysfs) backend if that
    reports supported, else on the model-register (MSR) backend if [useMSR]
    is set and that backend reports supported, else on the dummy. The read
    functions take the package variables and leave them, so nothing selects
    again after [init]; and each of [GetEnergyFromDram], [GetEnergyFromCore],
    [GetEnergyFromUncore], [GetEnergyFromPackage] and
    [GetNodeComponentsEnergy], called afterwards in whatever state of the
    machine, hands back what that method of the selected backend object
    ([sysfsImpl], [msrImpl] or [dummyImpl]) hands back. *)
Theorem C4_backend_selected_once (w0 : world) (v0 : Components.vars) :
  (Source.IsSystemCollectionSupported sysfsImpl w0 = true ->
     Components.powerImpl (init w0 v0) = Components.Sysfs
     /\ Components.reads_go_to sysfsImpl msrImpl dummyImpl (init w0 v0) sysfsImpl)
  /\ (Source.IsSystemCollectionSupported sysfsImpl w0 = false ->
      Components.useMSR v0 = true ->
      Source.IsSystemCollectionSupported msrImpl w0 = true ->
      Components.powerImpl (init w0 v0) = Components.MSR
      /\ Components.reads_go_to sysfsImpl msrImpl dummyImpl (init w0 v0) msrImpl)
  /\ (Source.IsSystemCollectionSupported sysfsImpl w0 = false ->
      Components.useMSR v0 = false
      \/ Source.IsSystemCollectionSupported msrImpl w0 = false ->
      Components.powerImpl (init w0 v0) = Components.Dummy
      /\ Components.reads_go_to sysfsImpl msrImpl dummyImpl (init w0 v0) dummyImpl)
  /\ Components.useMSR (init w0 v0) = Components.useMSR v0.
Proof.
  split; [|split; [|split; [|apply init_keeps_flag]]].
  - intros Hs.
    assert (H : Components.powerImpl (init w0 v0) = Components.Sysfs)
      by (unfold Components.init; rewrite Hs; reflexivity).
    split; [exact H | exact (reads_of_selected _ _ _ H eq_refl)].
  - intros Hs Hf Hm.
    assert (H : Components.powerImpl (init w0 v0) = Components.MSR)
      by (unfold Components.init; rewrite Hs, Hm, Hf; reflexivity).
    split; [exact H | exact (reads_of_selected _ _ _ H eq_refl)].
  - intros Hs Hno.
    assert (H : Components.powerImpl (init w0 v0) = Components.Dummy).
    { unfold Components.init. rewrite Hs.
      destruct Hno as [-> | ->]; [rewrite andb_false_r | rewrite andb_false_l];
        reflexivity. }
    split; [exact H | exact (reads_of_selected _ _ _ H eq_refl)].
Qed.

(** With [useMSR] as the source declares it, the MSR backend is never
    the selected one. *)
Lemma init_declared_never_MSR (w0 : world) :
  Components.powerImpl (init w0 Components.declared) <> Components.MSR.
Proof.
  rewrite init_selects. unfold Components.preferred. simpl.
  destruct (Source.IsSystemCollectionSupported sysfsImpl w0); discriminate.
Qed.

End ComponentsFacts.

(** * The counter channel: theorems *)

Section ChannelFacts.

Import Channel.
Local Open Scope Z_scope.

Lemma sum_producers_insert (p : string) (v : Z) (m : gmap string Z) :
  sum_producers (<[p := v]> m) = v + sum_producers (delete p m).
Proof.
  unfold sum_producers. rewrite <- (insert_delete_eq m p v).
  rewrite map_fold_insert_L.
  - reflexivity.
  - intros; lia.
  - apply lookup_delete_eq.
Qed.

Lemma commit_curr (ch : channel) : curr (commit ch) = Z.max 0 (agg ch - prev_agg ch).
Proof. reflexivity. Qed.

Lemma interval_prev_agg (ws : list write) (ch : channel) :
  prev_agg (interval ws ch) = agg (interval ws ch).
Proof. reflexivity. Qed.

Lemma apply_write_prev_agg (ch : channel) (wr : write) :
  prev_agg (apply_write ch wr) = if is_restart ch wr then 0 else prev_agg ch.
Proof. destruct wr; reflexivity. Qed.

(** Without a restart the writes of an interval leave the baseline. *)
Lemma writes_keep_prev_agg (ws : list write) (ch : channel) :
  restarts ws ch = false -> prev_agg (fold_left apply_write ws ch) = prev_agg ch.
Proof.
  revert ch. induction ws as [|wr ws IH]; intros ch H; cbn [fold_left]; [reflexivity|].
  cbn [restarts] in H. apply orb_false_elim in H as [Hwr Hws].
  rewrite (IH _ Hws), apply_write_prev_agg, Hwr. reflexivity.
Qed.

(** A baseline at zero stays there until the commit. *)
Lemma writes_keep_zero (ws : list write) (ch : channel) :
  prev_agg ch = 0 -> prev_agg (fold_left apply_write ws ch) = 0.
Proof.
  revert ch. induction ws as [|wr ws IH]; intros ch H; cbn [fold_left]; [exact H|].
  apply IH. rewrite apply_write_prev_agg, H. destruct (is_restart ch wr); reflexivity.
Qed.

(** After a restart the baseline is zero until the commit. *)
Lemma writes_reset_prev_agg (ws : list write) (ch : channel) :
  restarts ws ch = true -> prev_agg (fold_left apply_write ws ch) = 0.
Proof.
  revert ch. induction ws as [|wr ws IH]; intros ch H; cbn [fold_left restarts] in *;
    [discriminate|].
  destruct (is_restart ch wr) eqn:Hwr.
  - apply writes_keep_zero. rewrite apply_write_prev_agg, Hwr. reflexivity.
  - apply IH. exact H.
Qed.

Lemma interval_curr (ws : list write) (ch : channel) :
  restarts ws ch = false ->
  curr (interval ws ch) = Z.max 0 (agg (interval ws ch) - prev_agg ch).
Proof.
  intros H. unfold interval. rewrite commit_curr, (writes_keep_prev_agg ws ch H).
  reflexivity.
Qed.

Lemma interval_curr_restart (ws : list write) (ch : channel) :
  restarts ws ch = true ->
  curr (interval ws ch) = Z.max 0 (agg (interval ws ch)).
Proof.
  intros H. unfold interval. rewrite commit_curr, (writes_reset_prev_agg ws ch H).
  cbn [agg commit]. rewrite Z.sub_0_r. reflexivity.
Qed.

Lemma restarted_after_set (p : string) (v v' : Z) (ch : channel) :
  restarted p v' (commit (set_aggregate p v ch)) = (v' <? v).
Proof.
  unfold restarted, commit, set_aggregate. cbn [producers].
  rewrite lookup_insert_eq. reflexivity.
Qed.

Lemma set_aggregate_twice (p : string) (v1 v2 : Z) (ch : channel) :
  agg (set_aggregate p v2 (commit (set_aggregate p v1 ch)))
  = agg (set_aggregate p v1 ch) - v1 + v2.
Proof.
  unfold set_aggregate, commit; cbn [agg producers].
  rewrite !sum_producers_insert, delete_insert_eq. lia.
Qed.


End ChannelFacts.

(** * pkg/collector: node energy, theorems *)

Section NodeEnergyFacts.

Import Collector.
Local Open Scope list_scope.
Variable S : Sys.

Local Abbreviation updatePlatformEnergy := (Collector.updatePlatformEnergy S).
Local Abbreviation updateNodeComponentsEnergy := (Collector.updateNodeComponentsEnergy S).
Local Abbreviation updateNodeGPUEnergy := (Collector.updateNodeGPUEnergy S).
Local Abbreviation updateNodeAvgCPUFrequency := (Collector.updateNodeAvgCPUFrequency S).
Local Abbreviation updateNodeEnergyMetrics := (Collector.updateNodeEnergyMetrics S).

Lemma updatePlatformEnergy_trace (w : world S) (st : state S) :
  trace (updatePlatformEnergy w st) = trace st ++ platformEvents S w.
Proof.
  unfold Collector.updatePlatformEnergy, platformEvents.
  destruct (IsPowerSupported S w); [|destruct (IsNodePlatformPowerModelEnabled S w)];
    simpl; rewrite <- ?app_assoc; reflexivity.
Qed.

Lemma updateNodeComponentsEnergy_trace (g : globals) (w : world S) (st : state S) :
  trace (updateNodeComponentsEnergy g w st) = trace st ++ componentsEvents S g w.
Proof.
  unfold Collector.updateNodeComponentsEnergy, componentsEvents.
  destruct (Components.IsSystemCollectionSupported _ _ _ _ _);
    [|destruct (IsNodeComponentPowerModelEnabled S w)];
    simpl; rewrite <- ?app_assoc; reflexivity.
Qed.

Lemma updateNodeAvgCPUFrequency_trace (w : world S) (st : state S) :
  trace (updateNodeAvgCPUFrequency w st) = trace st ++ [EvGetCPUCoreFrequency].
Proof. reflexivity. Qed.

Lemma updateNodeGPUEnergy_trace (g : globals) (w : world S) (st : state S) :
  trace (updateNodeGPUEnergy g w st) = trace st ++ gpuEvents S g.
Proof.
  unfold Collector.updateNodeGPUEnergy, gpuEvents. destruct (EnabledGPU g); simpl;
    [reflexivity | symmetry; apply app_nil_r].
Qed.

Lemma updateNodeEnergyMetrics_trace (g : globals) (w : world S) (st : state S) :
  trace (updateNodeEnergyMetrics g w st) = trace st ++ nodeEnergyEvents S g w.
Proof.
  unfold Collector.updateNodeEnergyMetrics, nodeEnergyEvents.
  rewrite updateNodeGPUEnergy_trace, updateNodeAvgCPUFrequency_trace,
    updateNodeComponentsEnergy_trace, updatePlatformEnergy_trace.
  rewrite <- !app_assoc. reflexivity.
Qed.

(** C7 (as amended). [updateNodeEnergyMetrics] reads the platform energy
    first, the node component energies second, the CPU frequency third and
    the GPU energy, when enabled, last: no component read comes before a
    platform read, and wherever two of these reads both happen they happen
    in that order. *)
Theorem C7_node_reads_order (g : globals) (w : world S) (st : state S) :
  trace (updateNodeEnergyMetrics g w st) = trace st ++ nodeEnergyEvents S g w
  /\ precedes isComponentsRead isPlatformRead (nodeEnergyEvents S g w) = false
  /\ (existsb isPlatformRead (nodeEnergyEvents S g w) = true ->
      existsb isComponentsRead (nodeEnergyEvents S g w) = true ->
      precedes isPlatformRead isComponentsRead (nodeEnergyEvents S g w) = true)
  /\ (existsb isPlatformRead (nodeEnergyEvents S g w) = true ->
      precedes isPlatformRead isFrequencyRead (nodeEnergyEvents S g w) = true)
  /\ (existsb isComponentsRead (nodeEnergyEvents S g w) = true ->
      precedes isComponentsRead isFrequencyRead (nodeEnergyEvents S g w) = true)
  /\ precedes isFrequencyRead isPlatformRead (nodeEnergyEvents S g w) = false
  /\ precedes isFrequencyRead isComponentsRead (nodeEnergyEvents S g w) = false
  /\ (EnabledGPU g = true ->
      precedes isFrequencyRead isGPURead (nodeEnergyEvents S g w) = true).
Proof.
  split; [apply updateNodeEnergyMetrics_trace|].
  unfold nodeEnergyEvents, platformEvents, componentsEvents, gpuEvents.
  destruct (IsPowerSupported S w), (IsNodePlatformPowerModelEnabled S w),
    (Components.IsSystemCollectionSupported _ _ _ _ _),
    (IsNodeComponentPowerModelEnabled S w), (EnabledGPU g);
    repeat split; intros; try reflexivity; try discriminate.
Qed.

(** [updatePlatformEnergy] records the energy read from the ACPI meter
    whenever the meter reports power as supported, whether or not the model
    is enabled; the estimate of the model only when the meter is unsupported
    and the model enabled; and an empty map otherwise. All three go through
    the one [AddLastestPlatformEnergy] of the node record, and the function
    hands it the map alone: a measured map and an equal estimated map leave
    the same collector. *)
Theorem updatePlatformEnergy_precedence (w : world S) (st : state S) :
  (IsPowerSupported S w = true ->
     coll (updatePlatformEnergy w st)
     = platformRecorded S (fst (GetEnergyFromHost S w)) st)
  /\ (IsPowerSupported S w = false -> IsNodePlatformPowerModelEnabled S w = true ->
     coll (updatePlatformEnergy w st)
     = platformRecorded S
         (GetEstimatedNodePlatformPower S w (CNodeMetrics (coll st))) st)
  /\ (IsPowerSupported S w = false -> IsNodePlatformPowerModelEnabled S w = false ->
     coll (updatePlatformEnergy w st) = platformRecorded S ∅ st)
  /\ (forall w' : world S,
        IsPowerSupported S w = true ->
        IsPowerSupported S w' = false -> IsNodePlatformPowerModelEnabled S w' = true ->
        fst (GetEnergyFromHost S w)
        = GetEstimatedNodePlatformPower S w' (CNodeMetrics (coll st)) ->
        coll (updatePlatformEnergy w st) = coll (updatePlatformEnergy w' st)).
Proof.
  unfold Collector.updatePlatformEnergy, platformRecorded.
  repeat split.
  - intros ->. reflexivity.
  - intros -> ->. reflexivity.
  - intros -> ->. reflexivity.
  - intros w' -> -> -> Heq. simpl. rewrite Heq. reflexivity.
Qed.

(** C9. With the GPU feature disabled [updateNodeGPUEnergy] returns the
    state it was given: no read is made and the node record, like the rest of
    the collector, is what it was. With the feature enabled it reads the
    per-GPU energy once and adds it to the node record; so a changed state
    means the feature is enabled. *)
Theorem C9_updateNodeGPUEnergy_gated (g : globals) (w : world S) (st : state S) :
  (EnabledGPU g = false -> updateNodeGPUEnergy g w st = st)
  /\ (EnabledGPU g = true ->
      updateNodeGPUEnergy g w st
      = setNodeMetrics
          (AddNodeGPUEnergy S (GetGpuEnergyPerGPU S w) (CNodeMetrics (coll st)))
          (emit EvGetGpuEnergyPerGPU st))
  /\ (updateNodeGPUEnergy g w st <> st -> EnabledGPU g = true).
Proof.
  unfold Collector.updateNodeGPUEnergy.
  destruct (EnabledGPU g); repeat split; intros; try reflexivity; try discriminate.
  congruence.
Qed.

End NodeEnergyFacts.

(** * pkg/collector: accelerator metrics, theorems *)

Section AcceleratorFacts.

Import Collector.
Local Open Scope list_scope.
Variable S : Sys.

Local Abbreviation addCounter := (Collector.addCounter S).
Local Abbreviation accountSample := (Collector.accountSample S).
Local Abbreviation accountDevice := (Collector.accountDevice S).
Local Abbreviation updateAcceleratorMetrics := (Collector.updateAcceleratorMetrics S).
Local Abbreviation createContainersMetricsIfNotExist :=
  (Collector.createContainersMetricsIfNotExist S).

(** Two states that hold the same data differ in their events only. *)
Lemma data_eq (st st' : state S) :
  data st = data st' ->
  coll st = coll st' /\ lastUtilizationTimestamp st = lastUtilizationTimestamp st'.
Proof. unfold data. intros [= H1 H2]. auto. Qed.

Ltac same_data H :=
  apply data_eq in H; destruct H as [?Hc ?Ht];
  repeat match goal with st : state S |- _ => destruct st end;
  simpl in *; subst.

Lemma emit_data (e : event S) (st : state S) : data (emit e st) = data st.
Proof. reflexivity. Qed.

Lemma logIfError_data (v : nat) (err : option (error S)) (st : state S) :
  data (logIfError v err st) = data st.
Proof. destruct err; reflexivity. Qed.

Lemma create_data (w : world S) (id : string) (cg pid : Z) (b : bool) (st st' : state S) :
  data st = data st' ->
  data (createContainersMetricsIfNotExist w id cg pid b st)
  = data (createContainersMetricsIfNotExist w id cg pid b st').
Proof.
  intros H. same_data H. unfold Collector.createContainersMetricsIfNotExist. simpl.
  destruct (ContainersMetrics _ !! id); [reflexivity|].
  destruct (containerInfo S w id pid) as [[? ?] ?]. reflexivity.
Qed.

Lemma addCounter_data (id name : string) (v : Z) (st st' : state S) :
  data st = data st' ->
  run_map data (addCounter id name v st) = run_map data (addCounter id name v st').
Proof.
  intros H. same_data H. unfold Collector.addCounter. simpl.
  destruct (ContainersMetrics _ !! id) as [cm|]; [|reflexivity].
  destruct (CounterStats cm !! name); reflexivity.
Qed.

Lemma run_bind_data (r r' : run (state S)) (k k' : state S -> run (state S)) :
  run_map data r = run_map data r' ->
  (forall a a', data a = data a' -> run_map data (k a) = run_map data (k' a')) ->
  run_map data (run_bind r k) = run_map data (run_bind r' k').
Proof.
  intros Hr Hk. destruct r, r'; simpl in *; try discriminate; [|reflexivity].
  apply Hk. congruence.
Qed.

Lemma accountSample_data (w : world S) (entry : Z * ProcessUtilizationSample)
  (st st' : state S) :
  data st = data st' ->
  run_map data (accountSample w st entry) = run_map data (accountSample w st' entry).
Proof.
  intros H. destruct entry as [pid u]. unfold Collector.accountSample.
  destruct (GetContainerIDFromPID S w (to_uint64 pid)) as [resolved [e|]].
  - assert (Hn : systemProcessName (coll st) = systemProcessName (coll st')).
    { apply data_eq in H. destruct H as [-> _]. reflexivity. }
    cbn [emit coll]. rewrite Hn.
    apply run_bind_data; [|intros a a' Ha; apply addCounter_data, Ha].
    apply addCounter_data, create_data. rewrite !emit_data. exact H.
  - apply run_bind_data; [|intros a a' Ha; apply addCounter_data, Ha].
    apply addCounter_data, create_data. rewrite !emit_data. exact H.
Qed.

Lemma foldM_data {B : Type} (f : state S -> B -> run (state S)) (l : list B) :
  (forall a a' b, data a = data a' -> run_map data (f a b) = run_map data (f a' b)) ->
  forall st st', data st = data st' ->
    run_map data (foldM f l st) = run_map data (foldM f l st').
Proof.
  intros Hf. induction l as [|b l IH]; intros st st' H; simpl.
  - congruence.
  - apply run_bind_data; [apply Hf, H | exact IH].
Qed.

Lemma accountDevice_data (w : world S) (d : device S) (st st' : state S) :
  data st = data st' ->
  run_map data (accountDevice w st d) = run_map data (accountDevice w st' d).
Proof.
  intros H. unfold Collector.accountDevice.
  assert (Ht : lastUtilizationTimestamp st = lastUtilizationTimestamp st')
    by (apply data_eq in H; tauto).
  rewrite Ht.
  destruct (GetProcessResourceUtilizationPerDevice S w d _) as [samples err].
  apply foldM_data; [intros; apply accountSample_data; assumption|].
  rewrite !logIfError_data, !emit_data. exact H.
Qed.

Lemma follows_refl (st : state S) : follows st st.
Proof. split; [reflexivity|]. exists []. symmetry. apply app_nil_r. Qed.

Lemma follows_trans (a b c : state S) : follows a b -> follows b c -> follows a c.
Proof.
  intros [Ht1 [e1 H1]] [Ht2 [e2 H2]]. split; [congruence|].
  exists (e1 ++ e2). rewrite H2, H1, app_assoc. reflexivity.
Qed.

Lemma follows_emit (e : event S) (st : state S) : follows st (emit e st).
Proof. split; [reflexivity|]. exists [e]. reflexivity. Qed.

Lemma follows_logIfError (v : nat) (err : option (error S)) (st : state S) :
  follows st (logIfError v err st).
Proof. destruct err; [apply follows_emit | apply follows_refl]. Qed.

Lemma follows_setContainers (m : gmap string ContainerMetrics) (st : state S) :
  follows st (setContainers m st).
Proof. split; [reflexivity|]. exists []. symmetry. apply app_nil_r. Qed.

Lemma follows_create (w : world S) (id : string) (cg pid : Z) (b : bool) (st : state S) :
  follows st (createContainersMetricsIfNotExist w id cg pid b st).
Proof.
  unfold Collector.createContainersMetricsIfNotExist.
  destruct (ContainersMetrics _ !! id); [apply follows_refl|].
  destruct (containerInfo S w id pid) as [[? ?] ?]. apply follows_setContainers.
Qed.

(** A write that finds its record and its channel. *)
Lemma addCounter_found (id name : string) (v : Z) (st : state S)
  (cm : ContainerMetrics) (ch : Channel.channel) :
  ContainersMetrics (coll st) !! id = Some cm ->
  CounterStats cm !! name = Some ch ->
  addCounter id name v st
  = Done (setContainers
            (<[id := withCounter cm name (Channel.add_delta v ch)]>
               (ContainersMetrics (coll st))) st).
Proof.
  intros Hcm Hch. unfold Collector.addCounter. rewrite Hcm, Hch. reflexivity.
Qed.

Lemma addCounter_Done (id name : string) (v : Z) (st st' : state S) :
  addCounter id name v st = Done st' ->
  exists cm ch,
    ContainersMetrics (coll st) !! id = Some cm /\ CounterStats cm !! name = Some ch
    /\ st' = setContainers
               (<[id := withCounter cm name (Channel.add_delta v ch)]>
                  (ContainersMetrics (coll st))) st.
Proof.
  unfold Collector.addCounter.
  destruct (ContainersMetrics _ !! id) as [cm|] eqn:Hcm; [|discriminate].
  destruct (CounterStats cm !! name) as [ch|] eqn:Hch; [|discriminate].
  simpl. intros [= <-]. eauto.
Qed.

Lemma follows_addCounter (id name : string) (v : Z) (st st' : state S) :
  addCounter id name v st = Done st' -> follows st st'.
Proof.
  intros H. apply addCounter_Done in H as (cm & ch & _ & _ & ->).
  apply follows_setContainers.
Qed.

Lemma follows_accountSample (w : world S) (entry : Z * ProcessUtilizationSample)
  (st st' : state S) :
  accountSample w st entry = Done st' -> follows st st'.
Proof.
  destruct entry as [pid u]. unfold Collector.accountSample.
  destruct (GetContainerIDFromPID S w (to_uint64 pid)) as [resolved [e|]];
    intros H; apply run_bind_Done in H as (s1 & H1 & H2);
    apply follows_addCounter in H1, H2;
    (eapply follows_trans; [|exact H2]); (eapply follows_trans; [|exact H1]);
    (eapply follows_trans; [|apply follows_create]).
  - eapply follows_trans; apply follows_emit.
  - apply follows_emit.
Qed.

Lemma follows_foldM {B : Type} (f : state S -> B -> run (state S)) (l : list B) :
  (forall a b a', f a b = Done a' -> follows a a') ->
  forall st st', foldM f l st = Done st' -> follows st st'.
Proof.
  intros Hf. induction l as [|b l IH]; intros st st'; simpl.
  - intros [= <-]. apply follows_refl.
  - intros H. apply run_bind_Done in H as (s1 & H1 & H2).
    eapply follows_trans; [apply (Hf _ _ _ H1) | apply (IH _ _ H2)].
Qed.

Lemma follows_accountDevice (w : world S) (d : device S) (st st' : state S) :
  accountDevice w st d = Done st' -> follows st st'.
Proof.
  unfold Collector.accountDevice.
  destruct (GetProcessResourceUtilizationPerDevice S w d _) as [samples err].
  intros H. apply follows_foldM in H;
    [|intros a b a'; apply follows_accountSample].
  eapply follows_trans; [|exact H].
  eapply follows_trans; [apply follows_emit | apply follows_logIfError].
Qed.

(** A device whose query fails with no entries: two events, nothing else. *)
Lemma accountDevice_failed (w : world S) (d : device S) (e : error S) (st : state S) :
  GetProcessResourceUtilizationPerDevice S w d (Now S w - lastUtilizationTimestamp st)
  = ([], Some e) ->
  accountDevice w st d
  = Done (emit (EvLog 2 (MsgError e)) (emit (EvProcessUtilization d) st)).
Proof.
  intros H. unfold Collector.accountDevice. rewrite H. reflexivity.
Qed.

Lemma follows_devices (w : world S) (l : list (device S)) (st st' : state S) :
  foldM (accountDevice w) l st = Done st' -> follows st st'.
Proof.
  apply follows_foldM. intros a b a'. apply follows_accountDevice.
Qed.

Lemma devices_data (w : world S) (l : list (device S)) (st st' : state S) :
  data st = data st' ->
  run_map data (foldM (accountDevice w) l st)
  = run_map data (foldM (accountDevice w) l st').
Proof.
  apply foldM_data. intros a a' b. apply accountDevice_data.
Qed.

(** The loop over the devices with a failed device in it holds, in the
    end, what the loop without that device holds. *)
Lemma failed_device_skipped (w : world S) (l1 l2 : list (device S)) (d : device S)
  (e : error S) (st : state S) :
  GetProcessResourceUtilizationPerDevice S w d (Now S w - lastUtilizationTimestamp st)
  = ([], Some e) ->
  run_map data (foldM (accountDevice w) (l1 ++ d :: l2) st)
  = run_map data (foldM (accountDevice w) (l1 ++ l2) st).
Proof.
  intros Hq. rewrite !foldM_app.
  destruct (foldM (accountDevice w) l1 st) as [s1|] eqn:H1; [|reflexivity].
  cbn [run_bind foldM].
  pose proof (follows_devices _ _ _ _ H1) as [Ht _].
  rewrite accountDevice_failed with (e := e) by (rewrite Ht; exact Hq).
  cbn [run_bind]. apply devices_data. reflexivity.
Qed.

Lemma failed_device_logged (w : world S) (l1 l2 : list (device S)) (d : device S)
  (e : error S) (st st' : state S) :
  GetProcessResourceUtilizationPerDevice S w d (Now S w - lastUtilizationTimestamp st)
  = ([], Some e) ->
  foldM (accountDevice w) (l1 ++ d :: l2) st = Done st' ->
  In (EvLog 2 (MsgError e)) (trace st').
Proof.
  intros Hq H. rewrite foldM_app in H.
  apply run_bind_Done in H as (s1 & H1 & H). cbn [foldM] in H.
  apply run_bind_Done in H as (s2 & H2 & H3).
  pose proof (follows_devices _ _ _ _ H1) as [Ht _].
  rewrite accountDevice_failed with (e := e) in H2 by (rewrite Ht; exact Hq).
  injection H2 as <-.
  apply follows_devices in H3 as [_ [evs ->]].
  apply in_or_app. left. apply in_or_app. right. left. reflexivity.
Qed.

(** The loop ranges over whatever the query handed back: entries that come
    together with an error are accounted like any others. *)
Lemma entries_with_error_accounted (w : world S) (d : device S) (e : error S)
  (samples : list (Z * ProcessUtilizationSample)) (st : state S) :
  GetProcessResourceUtilizationPerDevice S w d (Now S w - lastUtilizationTimestamp st)
  = (samples, Some e) ->
  accountDevice w st d
  = foldM (accountSample w) samples
      (emit (EvLog 2 (MsgError e)) (emit (EvProcessUtilization d) st)).
Proof.
  intros H. unfold Collector.accountDevice. rewrite H. reflexivity.
Qed.

(** A fresh record has a zero channel for every name of the catalog. *)
Lemma NewContainerMetrics_lookup (a b c name : string) :
  In name (AvailableCounters S) ->
  CounterStats (NewContainerMetrics S a b c) !! name = Some Channel.new_channel.
Proof.
  unfold NewContainerMetrics. cbn [CounterStats].
  induction (AvailableCounters S) as [|n l IH]; intros Hin; [destruct Hin|].
  cbn [fmap list_fmap list_to_map foldr uncurry]. rewrite lookup_insert.
  case_decide; [reflexivity|].
  destruct Hin as [->|Hin]; [contradiction | apply IH, Hin].
Qed.

Lemma create_lookup (w : world S) (id : string) (cg pid : Z) (b : bool) (st : state S) :
  is_Some (ContainersMetrics (coll (createContainersMetricsIfNotExist w id cg pid b st))
             !! id).
Proof.
  unfold Collector.createContainersMetricsIfNotExist.
  destruct (ContainersMetrics (coll st) !! id) as [cm|] eqn:Hcm; [rewrite Hcm; eauto|].
  destruct (containerInfo S w id pid) as [[? ?] ?]. simpl.
  rewrite lookup_insert_eq. eauto.
Qed.

Lemma create_lookup_ne (w : world S) (id id' : string) (cg pid : Z) (b : bool)
  (st : state S) :
  id <> id' ->
  ContainersMetrics (coll (createContainersMetricsIfNotExist w id cg pid b st)) !! id'
  = ContainersMetrics (coll st) !! id'.
Proof.
  intros Hne. unfold Collector.createContainersMetricsIfNotExist.
  destruct (ContainersMetrics (coll st) !! id) as [cm|]; [reflexivity|].
  destruct (containerInfo S w id pid) as [[? ?] ?]. simpl.
  apply lookup_insert_ne, Hne.
Qed.

Lemma create_frame (w : world S) (id : string) (cg pid : Z) (b : bool) (st : state S) :
  let st' := createContainersMetricsIfNotExist w id cg pid b st in
  trace st' = trace st
  /\ lastUtilizationTimestamp st' = lastUtilizationTimestamp st
  /\ CNodeMetrics (coll st') = CNodeMetrics (coll st)
  /\ systemProcessName (coll st') = systemProcessName (coll st).
Proof.
  unfold Collector.createContainersMetricsIfNotExist.
  destruct (ContainersMetrics (coll st) !! id) as [cm|]; [repeat split|].
  destruct (containerInfo S w id pid) as [[? ?] ?]. repeat split.
Qed.

Lemma create_found_or_new (w : world S) (id : string) (cg pid : Z) (b : bool)
  (st : state S) (cm0 : ContainerMetrics) :
  ContainersMetrics (coll (createContainersMetricsIfNotExist w id cg pid b st)) !! id
  = Some cm0 ->
  (forall cm, ContainersMetrics (coll st) !! id = Some cm -> cm0 = cm)
  /\ (ContainersMetrics (coll st) !! id = None ->
      exists a b c, cm0 = NewContainerMetrics S a b c).
Proof.
  unfold Collector.createContainersMetricsIfNotExist.
  destruct (ContainersMetrics (coll st) !! id) as [cm|] eqn:Hcm.
  - rewrite Hcm. intros [= <-]. split; [intros ? [= <-]; reflexivity | discriminate].
  - destruct (containerInfo S w id pid) as [[a' b'] c']. simpl.
    rewrite lookup_insert_eq. intros [= <-]. split; [discriminate | eauto].
Qed.

(** C3. A sampled pid whose container the resolver fails to determine is
    accounted to the system-process container: the container id becomes
    [systemProcessName], the record of that name is created if there is
    none, and the SM and memory utilization of the pid are added onto its two
    accelerator channels. No other channel and no other container changes,
    and the failure leaves one line logged at verbosity 5. The record, found
    or created, is assumed to hold the two channels (without them the call
    panics on a nil pointer). *)
Theorem C3_unresolved_pid_to_system_process (w : world S) (st : state S)
  (pid : Z) (u : ProcessUtilizationSample) (resolved : string) (e : error S)
  (cm0 : ContainerMetrics) (sm mem : Channel.channel) :
  GetContainerIDFromPID S w (to_uint64 pid) = (resolved, Some e) ->
  ContainersMetrics
    (coll (createContainersMetricsIfNotExist w (systemProcessName (coll st)) 0
             (to_uint64 pid) false st))
    !! systemProcessName (coll st) = Some cm0 ->
  CounterStats cm0 !! GPUSMUtilization S = Some sm ->
  CounterStats cm0 !! GPUMemUtilization S = Some mem ->
  GPUSMUtilization S <> GPUMemUtilization S ->
  exists (st' : state S) (cm' : ContainerMetrics),
    accountSample w st (pid, u) = Done st'
    /\ ContainersMetrics (coll st') !! systemProcessName (coll st) = Some cm'
    /\ CounterStats cm' !! GPUSMUtilization S
       = Some (Channel.add_delta (to_uint64 (SmUtil u)) sm)
    /\ CounterStats cm' !! GPUMemUtilization S
       = Some (Channel.add_delta (to_uint64 (MemUtil u)) mem)
    /\ (forall name, name <> GPUSMUtilization S -> name <> GPUMemUtilization S ->
          CounterStats cm' !! name = CounterStats cm0 !! name)
    /\ (forall id, id <> systemProcessName (coll st) ->
          ContainersMetrics (coll st') !! id = ContainersMetrics (coll st) !! id)
    /\ trace st'
       = trace st ++ [EvGetContainerIDFromPID pid;
                      EvLog 5 (MsgResolveFailed pid e (systemProcessName (coll st)))]
    /\ (forall cm, ContainersMetrics (coll st) !! systemProcessName (coll st) = Some cm ->
          cm0 = cm)
    /\ (ContainersMetrics (coll st) !! systemProcessName (coll st) = None ->
        exists a b c, cm0 = NewContainerMetrics S a b c).
Proof.
  set (sysName := systemProcessName (coll st)).
  intros Hres Hcm0 Hsm Hmem Hne.
  unfold Collector.accountSample. rewrite Hres.
  cbn [emit coll]. fold sysName.
  set (st1 := emit (EvLog 5 (MsgResolveFailed pid e sysName))
                (emit (EvGetContainerIDFromPID pid) st)).
  assert (Hst1 : createContainersMetricsIfNotExist w sysName 0 (to_uint64 pid) false st1
                 = setColl
                     (coll (createContainersMetricsIfNotExist w sysName 0
                              (to_uint64 pid) false st)) st1).
  { unfold Collector.createContainersMetricsIfNotExist. subst st1. cbn [emit coll].
    destruct (ContainersMetrics (coll st) !! sysName); [destruct st; reflexivity|].
    destruct (containerInfo S w sysName (to_uint64 pid)) as [[? ?] ?]. reflexivity. }
  rewrite Hst1.
  set (c1 := coll (createContainersMetricsIfNotExist w sysName 0 (to_uint64 pid) false st))
    in *.
  rewrite (addCounter_found sysName (GPUSMUtilization S) _ (setColl c1 st1) cm0 sm
             Hcm0 Hsm).
  cbn [run_bind].
  set (cmA := withCounter cm0 (GPUSMUtilization S)
                (Channel.add_delta (to_uint64 (SmUtil u)) sm)).
  rewrite (addCounter_found sysName (GPUMemUtilization S) _ _ cmA mem).
  2:{ cbn [setContainers setColl coll ContainersMetrics]. apply lookup_insert_eq. }
  2:{ subst cmA. cbn [withCounter CounterStats].
      rewrite lookup_insert_ne by exact Hne. exact Hmem. }
  eexists _, _. split; [reflexivity|].
  cbn [setContainers setColl coll ContainersMetrics trace].
  split; [apply lookup_insert_eq|].
  cbn [withCounter CounterStats].
  split; [rewrite lookup_insert_ne by congruence; apply lookup_insert_eq|].
  split; [apply lookup_insert_eq|].
  split.
  - intros name H1 H2. rewrite lookup_insert_ne by congruence.
    subst cmA. cbn [withCounter CounterStats].
    rewrite lookup_insert_ne by congruence. reflexivity.
  - split.
    + intros id Hid. rewrite !lookup_insert_ne by congruence.
      subst c1. apply create_lookup_ne. congruence.
    + split; [subst st1; cbn [emit trace]; rewrite <- app_assoc; reflexivity|].
      subst c1. apply (create_found_or_new w sysName 0 (to_uint64 pid) false st cm0 Hcm0).
Qed.

End AcceleratorFacts.

(** * Concrete runs *)

Section Runs.

Local Open Scope list_scope.
Local Open Scope Z_scope.

(** ** pkg/cgroup *)

(** C5, counterexample to the claim as stated. On a machine where none of
    the candidates exists, [os.Stat] is called on two paths, not three: the
    legacy tree is not among them, and it is selected although it does not
    exist. *)
Lemma C5_legacy_not_probed :
  length (snd (Cgroup.InitSliceHandler Demo.exists_in Demo.no_files)) = 2%nat
  /\ ~ In Cgroup.legacyCPU (snd (Cgroup.InitSliceHandler Demo.exists_in Demo.no_files))
  /\ Cgroup.topPaths (fst (Cgroup.InitSliceHandler Demo.exists_in Demo.no_files))
     = (Cgroup.legacyCPU, Cgroup.legacyMemory, Cgroup.legacyIO)
  /\ Demo.exists_in Demo.no_files Cgroup.legacyCPU = false.
Proof.
  repeat split. intros [H|[H|[]]]; discriminate H.
Qed.

Example InitSliceHandler_kubepods :
  Cgroup.topPaths
    (fst (Cgroup.InitSliceHandler Demo.exists_in
            (fun p => String.eqb p Cgroup.KubePodCGroupPath)))
  = (Cgroup.KubePodCGroupPath, Cgroup.KubePodCGroupPath, Cgroup.KubePodCGroupPath).
Proof. reflexivity. Qed.

Example InitSliceHandler_system :
  Cgroup.InitSliceHandler Demo.exists_in (fun p => String.eqb p Cgroup.SystemCGroupPath)
  = (Cgroup.mkSliceHandler (Some ∅) Cgroup.SystemCGroupPath Cgroup.SystemCGroupPath
       Cgroup.SystemCGroupPath,
     [Cgroup.KubePodCGroupPath; Cgroup.SystemCGroupPath]).
Proof. reflexivity. Qed.

Lemma C8_GetStats_unregistered_witness :
  Cgroup.readersOf (fst (Cgroup.InitSliceHandler Demo.exists_in Demo.no_files)) "abc"
  = None
  /\ (fun m : gmap string Z => m) ∅ = ∅
  /\ Cgroup.GetStats Demo.readFile Demo.no_files
       (fst (Cgroup.InitSliceHandler Demo.exists_in Demo.no_files)) "abc" = ∅
  /\ Cgroup.GetStandardStat Demo.readFile (fun m => m) Demo.no_files
       (Cgroup.SetSliceHandler Demo.exists_in Demo.no_files) "abc" = Done ∅.
Proof.
  split; [reflexivity|]. split; [reflexivity|].
  apply (C8_GetStats_unregistered Demo.readFile (fun m => m) Demo.no_files
           (fst (Cgroup.InitSliceHandler Demo.exists_in Demo.no_files)) "abc");
    reflexivity.
Defined.

Lemma C10_TryInitStatReaders_idempotent_witness :
  exists inst' : option Cgroup.SliceHandler,
    Cgroup.TryInitStatReaders Demo.search Demo.no_files
      (Cgroup.SetSliceHandler Demo.exists_in Demo.no_files) "abc" = Done inst'
    /\ Cgroup.TryInitStatReaders Demo.search (fun _ => true) inst' "abc" = Done inst'.
Proof.
  eexists. split; [reflexivity|].
  apply (C10_TryInitStatReaders_idempotent Demo.search Demo.no_files (fun _ => true)
           (Cgroup.SetSliceHandler Demo.exists_in Demo.no_files) _ "abc" eq_refl).
Defined.

Example TryInitStatReaders_paths :
  Cgroup.TryInitStatReaders Demo.search (fun _ => true)
    (Some (Cgroup.mkSliceHandler (Some ∅) Cgroup.legacyCPU Cgroup.legacyMemory
             Cgroup.legacyIO)) "abc"
  = Done (Some (Cgroup.mkSliceHandler
                  (Some {[ "abc" := [Cgroup.CPUStatReader "/sys/fs/cgroup/cpu/abc";
                                     Cgroup.MemoryStatReader "/sys/fs/cgroup/memory/abc";
                                     Cgroup.IOStatReader "/sys/fs/cgroup/blkio/abc"] ]})
                  Cgroup.legacyCPU Cgroup.legacyMemory Cgroup.legacyIO)).
Proof. vm_compute. reflexivity. Qed.

(** A handler whose map was never made: the lookup finds nothing and the
    assignment panics. *)
Example TryInitStatReaders_nil_map :
  Cgroup.TryInitStatReaders Demo.search Demo.no_files
    (Some (Cgroup.mkSliceHandler None "" "" "")) "abc" = Panic.
Proof. reflexivity. Qed.

(** ** pkg/collector *)

(** The same map, once read from the meter and once estimated by the model
    on the node without a meter, leaves one and the same collector. *)
Example updatePlatformEnergy_same_map :
  Collector.IsPowerSupported Demo.sys Demo.node = true
  /\ Collector.IsPowerSupported Demo.sys Demo.node_without_meter = false
  /\ Collector.IsNodePlatformPowerModelEnabled Demo.sys Demo.node_without_meter = true
  /\ Collector.coll (Collector.updatePlatformEnergy Demo.sys Demo.node Demo.start)
     = Collector.coll
         (Collector.updatePlatformEnergy Demo.sys Demo.node_without_meter Demo.start).
Proof. repeat split. Qed.

(** On the node with both a meter and a model, the measurement is what is
    recorded and the model is not consulted. *)
Example updatePlatformEnergy_measured_wins :
  Collector.updatePlatformEnergy Demo.sys Demo.node Demo.start
  = Collector.mkState Demo.sys
      (Collector.mkCollector Demo.sys ∅
         [Demo.PlatformEnergy (Demo.platformMap 5)] 0 "system_processes")
      0 [Collector.EvIsPowerSupported; Collector.EvGetEnergyFromHost].
Proof. reflexivity. Qed.

(** C7, counterexample to the claim as stated. On the node with every source
    present the platform read is the first read and the component read comes
    after it. *)
Lemma C7_platform_read_first :
  Collector.trace
    (Collector.updateNodeEnergyMetrics Demo.sys Demo.gpu_on Demo.node Demo.start)
  = [Collector.EvIsPowerSupported; Collector.EvGetEnergyFromHost;
     Collector.EvIsSystemCollectionSupported; Collector.EvGetNodeComponentsEnergy;
     Collector.EvGetCPUCoreFrequency; Collector.EvGetGpuEnergyPerGPU]
  /\ Collector.precedes Collector.isComponentsRead Collector.isPlatformRead
       (Collector.trace
          (Collector.updateNodeEnergyMetrics Demo.sys Demo.gpu_on Demo.node Demo.start))
     = false
  /\ Collector.precedes Collector.isPlatformRead Collector.isComponentsRead
       (Collector.trace
          (Collector.updateNodeEnergyMetrics Demo.sys Demo.gpu_on Demo.node Demo.start))
     = true.
Proof. repeat split. Qed.

Example updateNodeGPUEnergy_off :
  Collector.updateNodeGPUEnergy Demo.sys Demo.gpu_off Demo.node Demo.start = Demo.start.
Proof. reflexivity. Qed.

Example updateNodeGPUEnergy_on :
  Collector.updateNodeGPUEnergy Demo.sys Demo.gpu_on Demo.node Demo.start
  = Collector.mkState Demo.sys
      (Collector.mkCollector Demo.sys ∅ [Demo.GPUEnergy 40] 0 "system_processes")
      0 [Collector.EvGetGpuEnergyPerGPU].
Proof. reflexivity. Qed.

Lemma C3_unresolved_pid_witness :
  exists (st' : Collector.state Demo.sys) (cm' : Collector.ContainerMetrics),
    Collector.accountSample Demo.sys Demo.node Demo.start
      (8, Collector.mkSample 5 2) = Done st'
    /\ Collector.ContainersMetrics (Collector.coll st') !! "system_processes" = Some cm'
    /\ Collector.CounterStats cm' !! "gpu_sm_util"
       = Some (Channel.mkChannel 5 0 5 ∅)
    /\ Collector.CounterStats cm' !! "gpu_mem_util"
       = Some (Channel.mkChannel 2 0 2 ∅).
Proof.
  destruct (C3_unresolved_pid_to_system_process Demo.sys Demo.node Demo.start
              8 (Collector.mkSample 5 2) "" "no such pid"
              (Collector.NewContainerMetrics Demo.sys "system_processes" "pod" "ns")
              Channel.new_channel Channel.new_channel)
    as (st' & cm' & Hrun & Hcm & Hsm & Hmem & _).
  - reflexivity.
  - vm_compute. reflexivity.
  - vm_compute. reflexivity.
  - vm_compute. reflexivity.
  - discriminate.
  - exists st', cm'. repeat split; assumption.
Defined.

(** The whole call on the demo node: pid 7 goes to its container, pids 8
    and 9, which do not resolve, add up in the system-process container, and
    the failed device 1 adds nothing. *)
Example updateAcceleratorMetrics_node :
  run_map
    (fun st =>
       (fun cm => Channel.curr <$> (Collector.CounterStats cm !! "gpu_sm_util"))
       <$> Collector.ContainersMetrics (Collector.coll st))
    (Collector.updateAcceleratorMetrics Demo.sys Demo.node Demo.start)
  = Done {[ "containerA" := Some 30; "system_processes" := Some 16 ]}.
Proof. vm_compute. reflexivity. Qed.

(** Entries handed back together with an error are accounted. *)
Example updateAcceleratorMetrics_partial_failure :
  run_map
    (fun st =>
       (fun cm => Channel.curr <$> (Collector.CounterStats cm !! "gpu_sm_util"))
       <$> Collector.ContainersMetrics (Collector.coll st))
    (Collector.updateAcceleratorMetrics Demo.sys Demo.node_partial_failure Demo.start)
  = Done {[ "system_processes" := Some 11 ]}.
Proof. vm_compute. reflexivity. Qed.

(** Without the accelerator channels in the record the write panics. *)
Example addCounter_missing_channel :
  Collector.addCounter Demo.sys "c" "gpu_sm_util" 1
    (Collector.setContainers
       {[ "c" := Collector.mkContainerMetrics "c" "pod" "ns" ∅ ]} Demo.start)
  = Panic.
Proof. vm_compute. reflexivity. Qed.

(** ** The counter channel *)


Example channel_10_then_20 :
  Channel.history [[Channel.SetAggregate "containerA" 10];
                   [Channel.SetAggregate "containerA" 20]] Channel.new_channel
  = [Channel.mkChannel 10 10 10 {[ "containerA" := 10 ]};
     Channel.mkChannel 20 20 10 {[ "containerA" := 20 ]}].
Proof. vm_compute. reflexivity. Qed.

(** ** pkg/power/components *)

Example init_demo_sysfs :
  Components.powerImpl
    (Components.init (Collector.sysfsImpl Demo.sys) (Collector.msrImpl Demo.sys)
       Demo.node Components.declared)
  = Components.Sysfs.
Proof. reflexivity. Qed.

Example init_demo_dummy :
  Components.powerImpl
    (Components.init (Demo.backendOf (fun _ => false) 0) (Demo.backendOf (fun _ => true) 0)
       Demo.node Components.declared)
  = Components.Dummy.
Proof. reflexivity. Qed.

Example init_demo_msr :
  Components.powerImpl
    (Components.init (Demo.backendOf (fun _ => false) 0) (Demo.backendOf (fun _ => true) 0)
       Demo.node (Components.mkVars Components.Sysfs true))
  = Components.MSR.
Proof. reflexivity. Qed.

End Runs.

(** * pkg/cgroup: the walk over the cgroup tree, theorems *)

Section WalkFacts.

Import Cgroup.
Local Open Scope list_scope.

Lemma node_induction (P : node -> Prop) :
  (forall p es, Forall P es -> P (Node p es)) -> forall n, P n.
Proof.
  intros H. fix IH 1. intros [p es]. apply H.
  induction es as [|e es IHes]; constructor; [apply IH | exact IHes].
Qed.

Lemma nodes_self (n : node) : In n (nodes n).
Proof. destruct n. left. reflexivity. Qed.

Lemma nodes_unfold (p : string) (es : list node) :
  nodes (Node p es) = Node p es :: List.flat_map nodes es.
Proof. reflexivity. Qed.

Lemma nodes_trans (n m x : node) : In m (nodes n) -> In x (nodes m) -> In x (nodes n).
Proof.
  revert m x. induction n as [p es IH] using node_induction. intros m x Hm Hx.
  rewrite nodes_unfold in Hm |- *. destruct Hm as [<-|Hm]; [exact Hx|].
  right. apply in_flat_map in Hm as (e & He & Hm). apply in_flat_map.
  exists e. split; [exact He|].
  rewrite Forall_forall in IH. apply (IH e (proj2 (list_elem_of_In _ _) He) m x Hm Hx).
Qed.

Lemma nodes_size (n m : node) :
  In m (nodes n) -> m = n \/ (node_size m < node_size n)%nat.
Proof.
  revert m. induction n as [p es IH] using node_induction. intros m Hm.
  rewrite nodes_unfold in Hm. destruct Hm as [<-|Hm]; [left; reflexivity|].
  right. apply in_flat_map in Hm as (e & He & Hm).
  rewrite Forall_forall in IH.
  assert (Hle : (node_size m <= node_size e)%nat).
  { destruct (IH e (proj2 (list_elem_of_In _ _) He) m Hm) as [->|]; lia. }
  assert (Hsum : (node_size e <= list_sum (List.map node_size es))%nat).
  { clear -He. induction es as [|a es IHes]; [destruct He|].
    simpl. destruct He as [->|He]; [lia | specialize (IHes He); lia]. }
  simpl. lia.
Qed.

Lemma walk_incl (n m : node) (x : string) :
  In m (nodes n) -> In x (walk m) -> In x (walk n).
Proof.
  unfold walk. intros Hm Hx. apply in_map_iff in Hx as (y & <- & Hy).
  apply in_map, (nodes_trans n m y Hm Hy).
Qed.

Lemma NoDup_map_part {A B : Type} (f : B -> string) (g : A -> list B)
  (l : list A) (e : A) :
  List.NoDup (List.map f (List.flat_map g l)) -> In e l ->
  List.NoDup (List.map f (g e)).
Proof.
  induction l as [|a l IH]; intros Hnd He; [destruct He|].
  simpl in Hnd. rewrite List.map_app in Hnd.
  destruct He as [->|He].
  - apply List.NoDup_app_remove_r in Hnd. exact Hnd.
  - apply List.NoDup_app_remove_l in Hnd. apply IH; assumption.
Qed.

Lemma walk_unfold (p : string) (es : list node) :
  walk (Node p es) = p :: List.map node_path (List.flat_map nodes es).
Proof. reflexivity. Qed.

Lemma walk_NoDup_sub (n m : node) :
  List.NoDup (walk n) -> In m (nodes n) -> List.NoDup (walk m).
Proof.
  revert m. induction n as [p es IH] using node_induction. intros m Hnd Hm.
  rewrite nodes_unfold in Hm. destruct Hm as [<-|Hm]; [exact Hnd|].
  apply in_flat_map in Hm as (e & He & Hm).
  rewrite Forall_forall in IH.
  apply (IH e (proj2 (list_elem_of_In _ _) He) m); [|exact Hm].
  rewrite walk_unfold in Hnd. apply List.NoDup_cons_iff in Hnd as [_ Hnd].
  apply (NoDup_map_part node_path nodes es e Hnd He).
Qed.

(** Below its root, a tree of distinct paths does not hold the root's
    path again. *)
Lemma walk_root_once (p : string) (es : list node) (m : node) (x : string) :
  List.NoDup (walk (Node p es)) ->
  In m (List.flat_map nodes es) -> In x (walk m) -> x <> p.
Proof.
  intros Hnd Hm Hx ->. rewrite walk_unfold in Hnd.
  apply List.NoDup_cons_iff in Hnd as [Hnotin _]. apply Hnotin.
  unfold walk in Hx. apply in_map_iff in Hx as (y & <- & Hy).
  apply in_map. apply in_flat_map in Hm as (e & He & Hm).
  apply in_flat_map. exists e. split; [exact He | apply (nodes_trans e m y Hm Hy)].
Qed.

Lemma NoDup_map_inj {A : Type} (f : A -> string) (l : list A) (x y : A) :
  List.NoDup (List.map f l) -> In x l -> In y l -> f x = f y -> x = y.
Proof.
  induction l as [|a l IH]; intros Hnd Hx Hy Hf; [destruct Hx|].
  simpl in Hnd. apply List.NoDup_cons_iff in Hnd as [Hnotin Hnd].
  destruct Hx as [->|Hx], Hy as [->|Hy].
  - reflexivity.
  - exfalso. apply Hnotin. rewrite Hf. apply in_map, Hy.
  - exfalso. apply Hnotin. rewrite <- Hf. apply in_map, Hx.
  - apply IH; assumption.
Qed.

Lemma node_at_Some (fs n : node) (p : string) :
  node_at fs p = Some n -> In n (nodes fs) /\ node_path n = p.
Proof.
  unfold node_at. intros H. apply List.find_some in H as [Hin Heq].
  split; [exact Hin | apply String.eqb_eq, Heq].
Qed.

Lemma node_at_unique (fs n : node) :
  List.NoDup (walk fs) -> In n (nodes fs) -> node_at fs (node_path n) = Some n.
Proof.
  intros Hnd Hin. unfold node_at.
  destruct (List.find _ (nodes fs)) as [m|] eqn:Hfind.
  - apply List.find_some in Hfind as [Hm Heq]. apply String.eqb_eq in Heq.
    f_equal. apply (NoDup_map_inj node_path (nodes fs) m n Hnd Hm Hin Heq).
  - exfalso. apply (List.find_none _ _ Hfind n) in Hin.
    rewrite String.eqb_refl in Hin. discriminate.
Qed.

Lemma find_first {A : Type} (f : A -> bool) (l : list A) (x : A) :
  List.find f l = Some x ->
  exists l1 l2, l = l1 ++ x :: l2 /\ f x = true /\ forall y, In y l1 -> f y = false.
Proof.
  induction l as [|a l IH]; [discriminate|]. simpl.
  destruct (f a) eqn:Hfa.
  - intros [= <-]. exists [], l. repeat split; [exact Hfa | intros y []].
  - intros H. destruct (IH H) as (l1 & l2 & -> & Hfx & Hl1).
    exists (a :: l1), l2. repeat split; [exact Hfx|].
    intros y [<-|Hy]; [exact Hfa | apply Hl1, Hy].
Qed.

Lemma HasSuffix_nonempty (s suffix : string) :
  strings_HasSuffix s suffix = true -> suffix <> EmptyString -> s <> EmptyString.
Proof.
  unfold strings_HasSuffix. intros H Hne ->. apply andb_true_iff in H as [Hlen _].
  apply Nat.leb_le in Hlen. destruct suffix; [contradiction | simpl in Hlen; lia].
Qed.

Lemma stops_at_true (top suffix x : string) :
  stops_at top suffix x = true <-> x <> top /\ strings_HasSuffix x suffix = true.
Proof.
  unfold stops_at. rewrite andb_true_iff, negb_true_iff, String.eqb_neq. tauto.
Qed.

(** What [searchBySuffix] returns, for a suffix that is not empty: a path
    that is not the empty string is the first path of the walk from
    [topFolder], other than [topFolder] itself, that ends with the suffix;
    the empty string means that the walk met no such path. *)
Lemma searchBySuffix_found (fs : node) (top suffix r : string) :
  searchBySuffix fs top suffix = r -> r <> EmptyString ->
  exists n, node_at fs top = Some n
            /\ List.find (stops_at top suffix) (walk n) = Some r.
Proof.
  unfold searchBySuffix. destruct (node_at fs top) as [n|]; [|congruence].
  destruct (List.find _ (walk n)) as [x|] eqn:Hfind; [|congruence].
  intros <- _. exists n. split; [reflexivity | exact Hfind].
Qed.

Lemma searchBySuffix_none (fs n : node) (top suffix : string) :
  suffix <> EmptyString ->
  searchBySuffix fs top suffix = EmptyString -> node_at fs top = Some n ->
  List.find (stops_at top suffix) (walk n) = None.
Proof.
  unfold searchBySuffix. intros Hne H Hn. rewrite Hn in H.
  destruct (List.find _ (walk n)) as [x|] eqn:Hfind; [|reflexivity].
  subst x. apply List.find_some in Hfind as [_ Hstop].
  apply stops_at_true in Hstop as [_ Hsuf].
  exfalso. exact (HasSuffix_nonempty _ _ Hsuf Hne eq_refl).
Qed.

Lemma searchBySuffix_absent (fs : node) (top suffix : string) :
  node_at fs top = None -> searchBySuffix fs top suffix = EmptyString.
Proof. unfold searchBySuffix. intros ->. reflexivity. Qed.

(** Where the walk from [path] met no scope, the slice it met holds none
    either, and is a smaller tree. *)
Lemma no_scope_below (fs n : node) (path x : string) :
  List.NoDup (walk fs) ->
  node_at fs path = Some n ->
  List.find (stops_at path scopeSuffix) (walk n) = None ->
  List.find (stops_at path sliceSuffix) (walk n) = Some x ->
  exists m, node_at fs x = Some m /\ (node_size m < node_size n)%nat
            /\ List.find (stops_at x scopeSuffix) (walk m) = None.
Proof.
  intros Hnd Hn Hscope Hslice.
  apply node_at_Some in Hn as [Hn Hpath].
  apply List.find_some in Hslice as [Hx Hstop].
  apply stops_at_true in Hstop as [Hxne _].
  unfold walk in Hx. apply in_map_iff in Hx as (m & Hm & Hmn).
  assert (Hneq : m <> n) by (intros ->; congruence).
  exists m. split; [|split].
  - rewrite <- Hm. apply node_at_unique; [exact Hnd|].
    apply (nodes_trans fs n m Hn Hmn).
  - destruct (nodes_size n m Hmn) as [->|Hlt]; [contradiction | exact Hlt].
  - destruct (List.find (stops_at x scopeSuffix) (walk m)) as [y|] eqn:Hy; [|reflexivity].
    exfalso. apply List.find_some in Hy as [Hyin Hystop].
    apply stops_at_true in Hystop as [_ Hysuf].
    pose proof (List.find_none _ _ Hscope y (walk_incl n m y Hmn Hyin)) as Hnone.
    assert (Hyne : y <> path).
    { destruct n as [p es]. simpl in Hpath. subst p.
      rewrite nodes_unfold in Hmn. destruct Hmn as [Heq|Hmn]; [congruence|].
      apply (walk_root_once path es m y); [|exact Hmn|exact Hyin].
      apply (walk_NoDup_sub fs (Node path es) Hnd Hn). }
    assert (Htrue : stops_at path scopeSuffix y = true)
      by (apply stops_at_true; split; assumption).
    congruence.
Qed.

Lemma findContainerScope_unfold (fuel : nat) (fs : node) (path : string) :
  findContainerScope fuel fs path
  = if negb (String.eqb (searchBySuffix fs path scopeSuffix) EmptyString)
    then Some (searchBySuffix fs path scopeSuffix)
    else if String.eqb (searchBySuffix fs path sliceSuffix) EmptyString
         then Some EmptyString
         else match fuel with
              | O => None
              | Datatypes.S fuel' =>
                findContainerScope fuel' fs (searchBySuffix fs path sliceSuffix)
              end.
Proof. destruct fuel; reflexivity. Qed.

Lemma findContainerScope_bounded (fs : node) :
  List.NoDup (walk fs) ->
  forall (k fuel : nat) (path : string),
    (forall n, node_at fs path = Some n -> (node_size n <= k)%nat) ->
    (k <= fuel)%nat ->
    findContainerScope fuel fs path = Some (searchBySuffix fs path scopeSuffix).
Proof.
  intros Hnd. induction k as [|k IH]; intros fuel path Hsize Hfuel;
    rewrite findContainerScope_unfold;
    destruct (String.eqb (searchBySuffix fs path scopeSuffix) EmptyString) eqn:Hscope;
    simpl; try reflexivity;
    apply String.eqb_eq in Hscope; rewrite Hscope;
    destruct (String.eqb (searchBySuffix fs path sliceSuffix) EmptyString) eqn:Hslice;
    try reflexivity;
    apply String.eqb_neq in Hslice;
    destruct (searchBySuffix_found fs path sliceSuffix _ eq_refl Hslice)
      as (n & Hn & Hfind);
    pose proof (searchBySuffix_none fs n path scopeSuffix ltac:(discriminate) Hscope Hn)
      as Hnone;
    destruct (no_scope_below fs n path _ Hnd Hn Hnone Hfind) as (m & Hm & Hlt & Hmnone);
    specialize (Hsize n Hn).
  - lia.
  - destruct fuel as [|fuel]; [lia|].
    rewrite (IH fuel (searchBySuffix fs path sliceSuffix)).
    + unfold searchBySuffix at 1. rewrite Hm, Hmnone. reflexivity.
    + intros m' Hm'. rewrite Hm in Hm'. injection Hm' as <-. lia.
    + lia.
Qed.

(** [searchBySuffix] with a suffix that is not empty: where the top path
    cannot be walked the result is the empty string; otherwise the result
    is the first path of the walk, other than the top path itself, that
    ends with the suffix, and the empty string when the walk has no such
    path. *)
Theorem searchBySuffix_first_match (fs : node) (top suffix : string) :
  suffix <> EmptyString ->
  (node_at fs top = None -> searchBySuffix fs top suffix = EmptyString)
  /\ (forall n, node_at fs top = Some n ->
        (searchBySuffix fs top suffix = EmptyString
         /\ forall x, In x (walk n) -> x <> top -> strings_HasSuffix x suffix = false)
        \/ (exists before after,
              walk n = before ++ searchBySuffix fs top suffix :: after
              /\ searchBySuffix fs top suffix <> EmptyString
              /\ searchBySuffix fs top suffix <> top
              /\ strings_HasSuffix (searchBySuffix fs top suffix) suffix = true
              /\ forall y, In y before ->
                   y = top \/ strings_HasSuffix y suffix = false)).
Proof.
  intros Hne. split; [apply searchBySuffix_absent|].
  intros n Hn. unfold searchBySuffix. rewrite Hn.
  destruct (List.find (stops_at top suffix) (walk n)) as [r|] eqn:Hfind.
  - right. apply find_first in Hfind as (l1 & l2 & Hw & Hstop & Hl1).
    apply stops_at_true in Hstop as [Hrne Hsuf].
    exists l1, l2. repeat split; try assumption.
    + apply (HasSuffix_nonempty _ _ Hsuf Hne).
    + intros y Hy. specialize (Hl1 y Hy). unfold stops_at in Hl1.
      apply andb_false_iff in Hl1 as [H|H]; [left | right; exact H].
      apply negb_false_iff, String.eqb_eq in H. exact H.
  - left. split; [reflexivity|]. intros x Hx Hxne.
    pose proof (List.find_none _ _ Hfind x Hx) as Hnone. unfold stops_at in Hnone.
    apply andb_false_iff in Hnone as [H|H]; [|exact H].
    apply negb_false_iff, String.eqb_eq in H. contradiction.
Qed.

Lemma findContainerScope_sized (fs : node) (fuel : nat) (path : string) :
  List.NoDup (walk fs) ->
  (node_size fs <= fuel)%nat ->
  findContainerScope fuel fs path = Some (searchBySuffix fs path scopeSuffix).
Proof.
  intros Hnd Hfuel.
  apply (findContainerScope_bounded fs Hnd (node_size fs)); [|exact Hfuel].
  intros n Hn. apply node_at_Some in Hn as [Hn _].
  destruct (nodes_size fs n Hn) as [->|]; lia.
Qed.

(** In a tree of distinct paths, with fuel for its size, [findContainerScope]
    returns, and what it returns is the first scope of the walk from [path]:
    where that walk meets no scope, the descent into the slices finds none
    either and ends with the empty string. *)
Theorem findContainerScope_is_first_scope (fs : node) (fuel : nat) (path : string) :
  List.NoDup (walk fs) ->
  (node_size fs <= fuel)%nat ->
  findContainerScope fuel fs path = Some (searchBySuffix fs path scopeSuffix)
  /\ (searchBySuffix fs path scopeSuffix = EmptyString
      \/ (strings_HasSuffix (searchBySuffix fs path scopeSuffix) scopeSuffix = true
          /\ searchBySuffix fs path scopeSuffix <> path
          /\ In (searchBySuffix fs path scopeSuffix) (walk fs))).
Proof.
  intros Hnd Hfuel. split.
  - apply findContainerScope_sized; assumption.
  - destruct (String.eqb (searchBySuffix fs path scopeSuffix) EmptyString) eqn:He.
    + left. apply String.eqb_eq, He.
    + right. apply String.eqb_neq in He.
      destruct (searchBySuffix_found fs path scopeSuffix _ eq_refl He) as (n & Hn & Hfind).
      apply List.find_some in Hfind as [Hin Hstop].
      apply stops_at_true in Hstop as [Hne Hsuf].
      repeat split; try assumption.
      apply node_at_Some in Hn as [Hn _]. apply (walk_incl fs n _ Hn Hin).
Qed.

End WalkFacts.

(** * Go strings: theorems *)

Section StringFacts.

Import Cgroup.
Local Open Scope list_scope.

Lemma string_app_cons (c : Ascii.ascii) (a b : string) :
  (String c a ++ b)%string = String c (a ++ b)%string.
Proof. reflexivity. Qed.

Lemma string_app_nil_l (b : string) : (EmptyString ++ b)%string = b.
Proof. reflexivity. Qed.

Lemma string_app_nil_r (s : string) : (s ++ "")%string = s.
Proof.
  induction s as [|c s IH]; [reflexivity|]. rewrite string_app_cons, IH. reflexivity.
Qed.

Lemma string_app_assoc (a b c : string) :
  ((a ++ b) ++ c)%string = (a ++ b ++ c)%string.
Proof.
  induction a as [|x a IH]; [reflexivity|]. rewrite !string_app_cons, IH. reflexivity.
Qed.

Lemma prefix_nil_l (s : string) : String.prefix EmptyString s = true.
Proof. destruct s; reflexivity. Qed.

Lemma prefix_app (a b : string) : String.prefix a (a ++ b)%string = true.
Proof.
  induction a as [|x a IH]; [apply prefix_nil_l|].
  rewrite string_app_cons. cbn [String.prefix].
  destruct (Ascii.ascii_dec x x); [exact IH | contradiction].
Qed.

Lemma skip_string_app (a b : string) :
  skip_string (String.length a) (a ++ b)%string = b.
Proof.
  induction a as [|x a IH]; [destruct b; reflexivity|].
  rewrite string_app_cons. exact IH.
Qed.

Lemma prefix_char (c x : Ascii.ascii) (s : string) :
  String.prefix (String c EmptyString) (String x s) = Ascii.eqb c x.
Proof.
  cbn [String.prefix]. destruct (Ascii.ascii_dec c x) as [->|Hne].
  - rewrite prefix_nil_l, Ascii.eqb_refl. reflexivity.
  - symmetry. apply Ascii.eqb_neq, Hne.
Qed.

Lemma has_char_cons (c x : Ascii.ascii) (s : string) :
  has_char c (String x s) = Ascii.eqb c x || has_char c s.
Proof. reflexivity. Qed.

Lemma has_char_app (c : Ascii.ascii) (a b : string) :
  has_char c (a ++ b)%string = has_char c a || has_char c b.
Proof.
  induction a as [|x a IH]; [reflexivity|].
  rewrite string_app_cons, !has_char_cons, IH, orb_assoc. reflexivity.
Qed.

Lemma strings_Replace1_prefix (old new rest : string) :
  strings_Replace1 (old ++ rest) old new = (new ++ rest)%string.
Proof.
  unfold strings_Replace1. destruct (String.eqb old new) eqn:He.
  - apply String.eqb_eq in He. subst. reflexivity.
  - destruct old as [|c old].
    + rewrite string_app_nil_l. destruct rest; reflexivity.
    + rewrite string_app_cons. cbn [replace_first]. rewrite <- string_app_cons.
      rewrite prefix_app, skip_string_app. reflexivity.
Qed.

Lemma strings_Replace1_empty (old new : string) :
  old <> EmptyString -> strings_Replace1 EmptyString old new = EmptyString.
Proof.
  intros Hne. unfold strings_Replace1. destruct (String.eqb old new); [reflexivity|].
  destruct old; [contradiction | reflexivity].
Qed.

(** An empty [old] matches at the start, also of the empty string. *)
Lemma strings_Replace1_nothing (new : string) :
  strings_Replace1 EmptyString EmptyString new = new.
Proof.
  unfold strings_Replace1. destruct (String.eqb EmptyString new) eqn:He.
  - apply String.eqb_eq in He. exact He.
  - cbn. destruct new; reflexivity || (rewrite string_app_nil_r; reflexivity).
Qed.

Lemma strings_Replace1_same (s old : string) : strings_Replace1 s old old = s.
Proof. unfold strings_Replace1. rewrite String.eqb_refl. reflexivity. Qed.

Lemma split_go_nonempty (sep : string) (skip : nat) (acc s : string) :
  split_go sep skip acc s <> [].
Proof.
  revert skip acc. induction s as [|c s IH]; intros skip acc; [discriminate|].
  cbn [split_go]. destruct skip; [|apply IH].
  destruct (String.prefix sep (String c s)); [discriminate | apply IH].
Qed.

Lemma last_elem_cons (x : string) (l : list string) :
  l <> [] -> last_elem (x :: l) = last_elem l.
Proof.
  intros Hl. unfold last_elem. simpl.
  destruct (List.rev l) as [|y r] eqn:Hr; [|reflexivity].
  exfalso. apply Hl. rewrite <- (List.rev_involutive l), Hr. reflexivity.
Qed.

Lemma last_elem_Done (l : list string) :
  l <> [] -> exists x, last_elem l = Done x /\ In x l.
Proof.
  intros Hl. unfold last_elem. destruct (List.rev l) as [|y r] eqn:Hr.
  - exfalso. apply Hl. rewrite <- (List.rev_involutive l), Hr. reflexivity.
  - exists y. split; [reflexivity|]. apply List.in_rev. rewrite Hr. left. reflexivity.
Qed.

Lemma first_elem_Done (l : list string) :
  l <> [] -> exists x, first_elem l = Done x /\ In x l.
Proof. destruct l as [|x l]; [contradiction|]. intros _. exists x. split; [reflexivity | left; reflexivity]. Qed.

(** The pieces of a split are made of characters of the string. *)
Lemma split_go_chars (sep : string) (c : Ascii.ascii) (s : string) :
  forall (skip : nat) (acc e : string),
    In e (split_go sep skip acc s) -> has_char c e = true ->
    has_char c acc = true \/ has_char c s = true.
Proof.
  induction s as [|x s IH]; intros skip acc e He Hc.
  - destruct He as [<-|[]]. left. exact Hc.
  - cbn [split_go] in He. rewrite has_char_cons. destruct skip as [|k].
    + destruct (String.prefix sep (String x s)).
      * destruct He as [<-|He]; [left; exact Hc|].
        destruct (IH _ _ _ He Hc) as [H|H]; [discriminate H|].
        right. rewrite H. apply orb_true_r.
      * destruct (IH _ _ _ He Hc) as [H|H].
        -- rewrite has_char_app, has_char_cons in H.
           apply orb_true_iff in H as [H|H]; [left; exact H|].
           right. rewrite orb_false_r in H. rewrite H. reflexivity.
        -- right. rewrite H. apply orb_true_r.
    + destruct (IH _ _ _ He Hc) as [H|H]; [left; exact H|].
      right. rewrite H. apply orb_true_r.
Qed.

(** No piece of a split at one character holds that character. *)
Lemma split_go_char_free (c : Ascii.ascii) (s : string) :
  forall (acc e : string),
    has_char c acc = false ->
    In e (split_go (String c EmptyString) O acc s) -> has_char c e = false.
Proof.
  induction s as [|x s IH]; intros acc e Hacc He.
  - destruct He as [<-|[]]. exact Hacc.
  - cbn [split_go] in He. rewrite prefix_char in He.
    destruct (Ascii.eqb c x) eqn:Hcx.
    + destruct He as [<-|He]; [exact Hacc|].
      apply (IH EmptyString e eq_refl He).
    + apply (IH (acc ++ String x EmptyString)%string e); [|exact He].
      rewrite has_char_app, has_char_cons, Hacc, Hcx. reflexivity.
Qed.

Lemma split_go_no_sep (c : Ascii.ascii) (s acc : string) :
  has_char c s = false ->
  split_go (String c EmptyString) O acc s = [(acc ++ s)%string].
Proof.
  revert acc. induction s as [|x s IH]; intros acc Hs.
  - rewrite string_app_nil_r. reflexivity.
  - rewrite has_char_cons in Hs. apply orb_false_iff in Hs as [Hcx Hs].
    cbn [split_go]. rewrite prefix_char, Hcx, (IH _ Hs), string_app_assoc.
    reflexivity.
Qed.

(** The last piece of a split at one character is what follows its last
    occurrence. *)
Lemma split_last_piece (c : Ascii.ascii) (a b : string) :
  has_char c b = false ->
  forall acc, last_elem (split_go (String c EmptyString) O acc (a ++ String c b)%string)
              = Done b.
Proof.
  intros Hb. induction a as [|x a IH]; intros acc.
  - rewrite string_app_nil_l. cbn [split_go]. rewrite prefix_char, Ascii.eqb_refl.
    cbn [String.length Nat.sub]. rewrite (split_go_no_sep c b EmptyString Hb).
    reflexivity.
  - rewrite string_app_cons. cbn [split_go]. rewrite prefix_char.
    destruct (Ascii.eqb c x).
    + cbn [String.length Nat.sub]. rewrite last_elem_cons by apply split_go_nonempty.
      apply IH.
    + apply IH.
Qed.

(** The first piece of a split at [.scope] is what precedes it, when
    that has no dot in it. *)
Lemma split_first_piece (stem rest : string) :
  has_char "."%char stem = false ->
  forall acc,
    first_elem (split_go ".scope" O acc (stem ++ ".scope" ++ rest)%string)
    = Done (acc ++ stem)%string.
Proof.
  intros Hstem. induction stem as [|x stem IH]; intros acc.
  - rewrite string_app_nil_l, string_app_nil_r.
    change (".scope" ++ rest)%string with (String "."%char ("scope" ++ rest)%string).
    cbn [split_go].
    change (String "."%char ("scope" ++ rest)%string) with (".scope" ++ rest)%string.
    rewrite prefix_app. reflexivity.
  - rewrite has_char_cons in Hstem. apply orb_false_iff in Hstem as [Hx Hstem].
    rewrite string_app_cons. cbn [split_go].
    assert (Hp : String.prefix ".scope" (String x (stem ++ ".scope" ++ rest)%string) = false).
    { cbn [String.prefix]. destruct (Ascii.ascii_dec "."%char x) as [<-|]; [|reflexivity].
      rewrite Ascii.eqb_refl in Hx. discriminate. }
    rewrite Hp, (IH Hstem), string_app_assoc. reflexivity.
Qed.

Lemma exampleIDOfScope_Done (containerScopePath : string) :
  exists id, exampleIDOfScope containerScopePath = Done id
             /\ has_char "/"%char id = false /\ has_char "-"%char id = false.
Proof.
  unfold exampleIDOfScope, strings_Split.
  destruct (last_elem_Done (split_go "/" O EmptyString containerScopePath)
              (split_go_nonempty _ _ _ _)) as (fileName & -> & HfileIn).
  cbn [run_bind].
  destruct (first_elem_Done (split_go ".scope" O EmptyString fileName)
              (split_go_nonempty _ _ _ _)) as (scopeSplit & -> & HscopeIn).
  cbn [run_bind].
  destruct (last_elem_Done (split_go "-" O EmptyString scopeSplit)
              (split_go_nonempty _ _ _ _)) as (id & -> & HidIn).
  exists id. split; [reflexivity|].
  pose proof (split_go_char_free "/"%char containerScopePath EmptyString fileName
                eq_refl HfileIn) as Hfile.
  split; [|apply (split_go_char_free "-"%char scopeSplit EmptyString id eq_refl HidIn)].
  destruct (has_char "/"%char id) eqn:Hid; [|reflexivity].
  destruct (split_go_chars _ "/"%char _ _ _ _ HidIn Hid) as [H|H]; [discriminate H|].
  destruct (split_go_chars _ "/"%char _ _ _ _ HscopeIn H) as [H'|H']; [discriminate H'|].
  congruence.
Qed.

(** [findExampleContainerID], the parsing: whatever the path, no index
    is out of range, and the id handed back has no slash and no dash in
    it. *)
Theorem exampleIDOfScope_never_panics (containerScopePath : string) :
  exists id, exampleIDOfScope containerScopePath = Done id
             /\ has_char "/"%char id = false /\ has_char "-"%char id = false.
Proof. apply exampleIDOfScope_Done. Qed.

(** The id of a scope named [<runtime>-<id>.scope] is [<id>], for an id of
    letters and digits: no slash, no dot and no dash in it, and no slash and
    no dot in the name of the runtime. *)
Theorem exampleIDOfScope_of_scope_name (dir runtime id : string) :
  has_char "/"%char runtime = false -> has_char "."%char runtime = false ->
  has_char "/"%char id = false -> has_char "."%char id = false ->
  has_char "-"%char id = false ->
  exampleIDOfScope (dir ++ "/" ++ runtime ++ "-" ++ id ++ ".scope")%string = Done id.
Proof.
  intros Hr1 Hr2 Hi1 Hi2 Hi3. unfold exampleIDOfScope, strings_Split.
  change ("/" ++ runtime ++ "-" ++ id ++ ".scope")%string
    with (String "/"%char (runtime ++ "-" ++ id ++ ".scope"))%string.
  rewrite split_last_piece.
  2:{ rewrite !has_char_app, Hr1, Hi1. reflexivity. }
  cbn [run_bind].
  replace (runtime ++ "-" ++ id ++ ".scope")%string
    with ((runtime ++ "-" ++ id) ++ ".scope" ++ "")%string
    by (rewrite !string_app_assoc, string_app_nil_r; reflexivity).
  rewrite split_first_piece.
  2:{ rewrite !has_char_app, Hr2, Hi2. reflexivity. }
  cbn [run_bind]. rewrite string_app_nil_l.
  change ("-" ++ id)%string with (String "-"%char id).
  apply split_last_piece, Hi3.
Qed.

End StringFacts.

(** * pkg/cgroup: the example container and the available metrics *)

Section ExampleFacts.

Import Cgroup.
Local Open Scope list_scope.

Context {world value : Type}.
Variable tree : world -> node.
Variable SearchByContainerID : world -> string -> string -> string.
Variable Read : world -> StatReader -> gmap string value.
Variable convertToStandard : gmap string value -> gmap string value.

Local Abbreviation GetAvailableCgroupMetrics :=
  (Cgroup.GetAvailableCgroupMetrics tree SearchByContainerID Read convertToStandard).

Lemma findExampleContainerID_Done (fs : node) (fuel : nat) (s : SliceHandler) :
  List.NoDup (walk fs) ->
  (node_size fs <= fuel)%nat ->
  exists id,
    findExampleContainerID fuel fs (Some s) = Some (Done id)
    /\ has_char "/"%char id = false /\ has_char "-"%char id = false
    /\ (searchBySuffix fs (CPUTopPath s) scopeSuffix = EmptyString -> id = EmptyString).
Proof.
  intros Hnd Hfuel. unfold findExampleContainerID, GetCPUTopPath.
  rewrite (findContainerScope_sized fs fuel (CPUTopPath s) Hnd Hfuel).
  destruct (String.eqb (searchBySuffix fs (CPUTopPath s) scopeSuffix) EmptyString)
    eqn:He.
  - exists EmptyString. repeat split.
  - destruct (exampleIDOfScope_Done
                (searchBySuffix fs (CPUTopPath s) scopeSuffix)) as (id & -> & H1 & H2).
    exists id. repeat split; try assumption.
    intros H. rewrite H in He. discriminate.
Qed.

(** On a tree of distinct paths and with fuel for its size,
    [findExampleContainerID] of a handler that is set returns an id, without
    panic; the id has no slash and no dash in it, and is the empty string
    when there is no scope below the CPU top path. *)
Theorem findExampleContainerID_returns (fs : node) (fuel : nat) (s : SliceHandler) :
  List.NoDup (walk fs) ->
  (node_size fs <= fuel)%nat ->
  exists id,
    findExampleContainerID fuel fs (Some s) = Some (Done id)
    /\ has_char "/"%char id = false /\ has_char "-"%char id = false
    /\ (searchBySuffix fs (CPUTopPath s) scopeSuffix = EmptyString -> id = EmptyString).
Proof. apply findExampleContainerID_Done. Qed.

(** [GetAvailableCgroupMetrics] on a package that was started: it returns
    without panic, it leaves stat readers registered for the example
    container id (the empty id when the tree has no scope), and the names it
    returns are the keys of that container's standard stats, each once. *)
Theorem GetAvailableCgroupMetrics_registers_example (fuel : nat) (w : world)
  (inst : option SliceHandler) :
  List.NoDup (walk (tree w)) ->
  (node_size (tree w) <= fuel)%nat ->
  readers_wf inst ->
  exists (id : string) (metrics : list string) (s' : SliceHandler),
    findExampleContainerID fuel (tree w) inst = Some (Done id)
    /\ GetAvailableCgroupMetrics fuel w inst = Some (Done (metrics, Some s'))
    /\ Cgroup.TryInitStatReaders SearchByContainerID w inst id = Done (Some s')
    /\ is_Some (readersOf s' id)
    /\ List.NoDup metrics
    /\ forall k, In k metrics
                 <-> is_Some (convertToStandard (Cgroup.GetStats Read w s' id) !! k).
Proof.
  intros Hnd Hfuel Hwf.
  destruct Hwf as (s & m & -> & Hm & Hall).
  destruct (findExampleContainerID_Done (tree w) fuel s Hnd Hfuel) as (id & Hid & _).
  destruct (TryInitStatReaders_total SearchByContainerID w (Some s) id)
    as (inst' & Hcall & (s' & m' & -> & Hm' & Hall')).
  { exists s, m. auto. }
  exists id, (map_to_list (convertToStandard (Cgroup.GetStats Read w s' id))).*1, s'.
  split; [exact Hid|]. split.
  - unfold Cgroup.GetAvailableCgroupMetrics. rewrite Hid. cbn [run_bind].
    rewrite Hcall. reflexivity.
  - split; [exact Hcall|]. split.
    + apply (TryInitStatReaders_registers SearchByContainerID w _ _ _ Hcall).
    + split; [apply NoDup_ListNoDup, NoDup_fst_map_to_list|].
      intros k. rewrite <- list_elem_of_In, list_elem_of_fmap. split.
      * intros ([k' v] & -> & Hkv). apply elem_of_map_to_list in Hkv. eauto.
      * intros [v Hv]. exists (k, v). split; [reflexivity|].
        apply elem_of_map_to_list, Hv.
Qed.

End ExampleFacts.

(** * pkg/cgroup: readers and stats, further theorems *)

Section ReaderFacts.

Import Cgroup.
Local Open Scope list_scope.

Context {world value : Type}.
Variable SearchByContainerID : world -> string -> string -> string.
Variable Read : world -> StatReader -> gmap string value.

Local Abbreviation TryInitStatReaders := (Cgroup.TryInitStatReaders SearchByContainerID).
Local Abbreviation GetStats := (Cgroup.GetStats Read).
Local Abbreviation mergeReads := (Cgroup.mergeReads Read).

Lemma mergeReads_snoc (w : world) (rs : list StatReader) (r : StatReader) :
  mergeReads w (rs ++ [r]) = Read w r ∪ mergeReads w rs.
Proof. unfold Cgroup.mergeReads. rewrite fold_left_app. reflexivity. Qed.

Lemma mergeReads_lookup_None (w : world) (rs : list StatReader) (k : string) :
  mergeReads w rs !! k = None <-> forall r, In r rs -> Read w r !! k = None.
Proof.
  induction rs as [|r rs IH] using rev_ind.
  - split; [intros _ r [] | intros _; apply lookup_empty].
  - rewrite mergeReads_snoc, lookup_union_None, IH. split.
    + intros [Hr Hrs] r' Hin. apply in_app_or in Hin as [Hin|[<-|[]]]; auto.
    + intros H. split; [apply H, in_or_app; right; left; reflexivity|].
      intros r' Hin. apply H, in_or_app. left. exact Hin.
Qed.

Lemma mergeReads_last_wins (w : world) (rs1 rs2 : list StatReader) (r : StatReader)
  (k : string) (v : value) :
  Read w r !! k = Some v ->
  (forall r', In r' rs2 -> Read w r' !! k = None) ->
  mergeReads w (rs1 ++ r :: rs2) !! k = Some v.
Proof.
  intros Hr. induction rs2 as [|r2 rs2 IH] using rev_ind; intros Hrs2.
  - change (rs1 ++ [r]) with (rs1 ++ [r]). rewrite mergeReads_snoc.
    apply lookup_union_Some_l, Hr.
  - rewrite app_comm_cons, app_assoc, mergeReads_snoc.
    rewrite lookup_union_r by (apply Hrs2, in_or_app; right; left; reflexivity).
    apply IH. intros r' Hin. apply Hrs2, in_or_app. left. exact Hin.
Qed.

(** [GetStats] with readers registered: for every key the last reader of
    the list that reads it decides the value, and a key is missing from the
    result exactly when no reader reads it. *)
Theorem GetStats_last_reader_wins (w : world) (s : SliceHandler) (id : string)
  (rs : list StatReader) :
  readersOf s id = Some rs ->
  (forall rs1 r rs2 k v,
      rs = rs1 ++ r :: rs2 -> Read w r !! k = Some v ->
      (forall r', In r' rs2 -> Read w r' !! k = None) ->
      GetStats w s id !! k = Some v)
  /\ (forall k, GetStats w s id !! k = None
                <-> forall r, In r rs -> Read w r !! k = None).
Proof.
  intros Hrs. unfold Cgroup.GetStats. rewrite Hrs. split.
  - intros rs1 r rs2 k v -> Hr Hrs2. apply mergeReads_last_wins; assumption.
  - intros k. apply mergeReads_lookup_None.
Qed.

(** The entry a call makes for an id it does not know. *)
Lemma TryInitStatReaders_new (w : world) (s : SliceHandler)
  (m : gmap string (list StatReader)) (id : string) :
  statReaders s = Some m -> m !! id = None ->
  TryInitStatReaders w (Some s) id
  = Done (Some (withReaders s
       (<[id := [CPUStatReader (SearchByContainerID w (CPUTopPath s) id);
                 MemoryStatReader
                   (strings_Replace1 (SearchByContainerID w (CPUTopPath s) id)
                      (CPUTopPath s) (MemoryTopPath s));
                 IOStatReader
                   (strings_Replace1 (SearchByContainerID w (CPUTopPath s) id)
                      (CPUTopPath s) (IOTopPath s))]]> m))).
Proof.
  intros Hm Hid.
  unfold Cgroup.TryInitStatReaders, readersOf, GetStatReaders, SetStatReaders.
  rewrite Hm, Hid. reflexivity.
Qed.

(** A container found below the CPU top path gets its memory and IO
    readers at the same place below the memory and IO top paths. *)
Theorem TryInitStatReaders_paths_below_top (w : world) (s : SliceHandler)
  (m : gmap string (list StatReader)) (id rest : string) :
  statReaders s = Some m -> m !! id = None ->
  SearchByContainerID w (CPUTopPath s) id = (CPUTopPath s ++ rest)%string ->
  TryInitStatReaders w (Some s) id
  = Done (Some (withReaders s
       (<[id := [CPUStatReader (CPUTopPath s ++ rest)%string;
                 MemoryStatReader (MemoryTopPath s ++ rest)%string;
                 IOStatReader (IOTopPath s ++ rest)%string]]> m))).
Proof.
  intros Hm Hid Hfound. rewrite (TryInitStatReaders_new w s m id Hm Hid), Hfound.
  rewrite !strings_Replace1_prefix. reflexivity.
Qed.

(** A container that the search does not find (it returns the empty
    path) still gets its three readers. With a CPU top path that is not
    empty, as [InitSliceHandler] leaves it, each has the empty path. With an
    empty CPU top path [strings.Replace] finds the empty top path at the
    start of the empty container path and puts the memory and the IO top
    path there: the memory and IO readers get those two paths. *)
Theorem TryInitStatReaders_not_found (w : world) (s : SliceHandler)
  (m : gmap string (list StatReader)) (id : string) :
  statReaders s = Some m -> m !! id = None ->
  SearchByContainerID w (CPUTopPath s) id = EmptyString ->
  (CPUTopPath s <> EmptyString ->
   TryInitStatReaders w (Some s) id
   = Done (Some (withReaders s
        (<[id := [CPUStatReader EmptyString; MemoryStatReader EmptyString;
                  IOStatReader EmptyString]]> m))))
  /\ (CPUTopPath s = EmptyString ->
      TryInitStatReaders w (Some s) id
      = Done (Some (withReaders s
           (<[id := [CPUStatReader EmptyString; MemoryStatReader (MemoryTopPath s);
                     IOStatReader (IOTopPath s)]]> m)))).
Proof.
  intros Hm Hid Hfound. rewrite (TryInitStatReaders_new w s m id Hm Hid), Hfound.
  split.
  - intros Htop. rewrite !strings_Replace1_empty by exact Htop. reflexivity.
  - intros ->. rewrite !strings_Replace1_nothing. reflexivity.
Qed.

(** A call that returns leaves the top paths and the readers of every
    other container as they were. *)
Theorem TryInitStatReaders_frame (w : world) (s s' : SliceHandler) (id : string) :
  TryInitStatReaders w (Some s) id = Done (Some s') ->
  topPaths s' = topPaths s
  /\ forall id', id' <> id -> readersOf s' id' = readersOf s id'.
Proof.
  intros H.
  destruct (TryInitStatReaders_Done SearchByContainerID w _ _ id H)
    as (s0 & s1 & [= <-] & [= <-] & [[_ ->] | (m & cpu & mem & io & Hm & Hid & ->)]).
  - split; reflexivity.
  - split; [reflexivity|]. intros id' Hne.
    unfold readersOf, GetStatReaders. rewrite Hm. cbn [withReaders statReaders].
    apply lookup_insert_ne. congruence.
Qed.

(** Readers set by [SetStatReaders] are the ones [GetStats] reads through,
    and [TryInitStatReaders] does not replace them; the readers of the other
    containers and the top paths stay. On a map that was never made the call
    panics. *)
Theorem SetStatReaders_then_read (w : world) (s : SliceHandler) (id : string)
  (rs : list StatReader) :
  (statReaders s = None -> SetStatReaders s id rs = Panic)
  /\ (forall s', SetStatReaders s id rs = Done s' ->
        readersOf s' id = Some rs
        /\ (forall id', id' <> id -> readersOf s' id' = readersOf s id')
        /\ topPaths s' = topPaths s
        /\ GetStats w s' id = mergeReads w rs
        /\ TryInitStatReaders w (Some s') id = Done (Some s')).
Proof.
  unfold SetStatReaders. split; [intros ->; reflexivity|].
  intros s'. destruct (statReaders s) as [m|] eqn:Hm; [|discriminate].
  intros [= <-].
  assert (Hread : readersOf (withReaders s (<[id:=rs]> m)) id = Some rs).
  { unfold readersOf, GetStatReaders. cbn [withReaders statReaders].
    apply lookup_insert_eq. }
  split; [exact Hread|]. split.
  - intros id' Hne. unfold readersOf, GetStatReaders. rewrite Hm.
    cbn [withReaders statReaders]. apply lookup_insert_ne. congruence.
  - split; [reflexivity|]. split.
    + unfold Cgroup.GetStats. rewrite Hread. reflexivity.
    + unfold Cgroup.TryInitStatReaders. rewrite Hread. reflexivity.
Qed.

End ReaderFacts.

(** * pkg/power/components: further theorems *)

Section BackendFacts.

Context {world error : Type}.
Variable sysfsImpl msrImpl dummyImpl : Source.powerInterface world error.

Local Abbreviation init := (Components.init sysfsImpl msrImpl).

(** [init] does not look at the backend selected before: it depends on the
    package variables through [useMSR] only, and running it again on the
    same machine selects the same backend. *)
Theorem init_forgets_and_repeats (w : world) (v v' : Components.vars) :
  (Components.useMSR v = Components.useMSR v' -> init w v = init w v')
  /\ init w (init w v) = init w v.
Proof.
  split.
  - intros H. unfold Components.init. rewrite H. reflexivity.
  - unfold Components.init.
    destruct (Source.IsSystemCollectionSupported sysfsImpl w); [reflexivity|].
    destruct (Source.IsSystemCollectionSupported msrImpl w) eqn:Hm;
      destruct (Components.useMSR v) eqn:Hv; cbn; rewrite ?Hm, ?Hv; reflexivity.
Qed.

(** With [useMSR] off, as the package declares it, the MSR backend is never
    selected, whatever it reports: the choice is sysfs if supported, else
    the dummy. *)
Theorem init_without_flag (w : world) (v : Components.vars) :
  Components.useMSR v = false ->
  Components.powerImpl (init w v)
  = (if Source.IsSystemCollectionSupported sysfsImpl w
     then Components.Sysfs else Components.Dummy)
  /\ Components.powerImpl (init w v) <> Components.MSR.
Proof.
  intros Hflag. unfold Components.init. rewrite Hflag, andb_false_r.
  destruct (Source.IsSystemCollectionSupported sysfsImpl w); split;
    try reflexivity; discriminate.
Qed.

(** When [init] settles on sysfs or MSR, the package reports collection as
    supported on the machine as it is at that moment; it can report it as
    unsupported there only after settling on the dummy. *)
Theorem init_selected_is_supported (w : world) (v : Components.vars) :
  Components.powerImpl (init w v) <> Components.Dummy ->
  Components.IsSystemCollectionSupported sysfsImpl msrImpl dummyImpl (init w v) w = true.
Proof.
  unfold Components.IsSystemCollectionSupported, Components.init.
  destruct (Source.IsSystemCollectionSupported sysfsImpl w) eqn:Hs;
    [intros _; exact Hs|].
  destruct (Source.IsSystemCollectionSupported msrImpl w) eqn:Hm;
    destruct (Components.useMSR v); cbn; intros H; try contradiction; exact Hm.
Qed.

End BackendFacts.

(** * pkg/collector: node energy, further theorems *)

Section NodeEnergyMoreFacts.

Import Collector.
Local Open Scope list_scope.
Variable S : Sys.

Local Abbreviation updatePlatformEnergy := (Collector.updatePlatformEnergy S).
Local Abbreviation updateNodeComponentsEnergy := (Collector.updateNodeComponentsEnergy S).
Local Abbreviation updateNodeGPUEnergy := (Collector.updateNodeGPUEnergy S).
Local Abbreviation updateNodeAvgCPUFrequency := (Collector.updateNodeAvgCPUFrequency S).
Local Abbreviation updateNodeEnergyMetrics := (Collector.updateNodeEnergyMetrics S).
Local Abbreviation supported :=
  (Components.IsSystemCollectionSupported (sysfsImpl S) (msrImpl S) (dummyImpl S)).
Local Abbreviation reading :=
  (Components.GetNodeComponentsEnergy (sysfsImpl S) (msrImpl S) (dummyImpl S)).

(** [updateNodeComponentsEnergy]: the reading of the selected backend is
    recorded whenever the package reports collection as supported, and the
    model is not asked; the model's estimate is recorded only when
    collection is unsupported and the component model enabled; otherwise an
    empty map is recorded. Nothing but the node record changes. *)
Theorem updateNodeComponentsEnergy_precedence (g : globals) (w : world S) (st : state S) :
  (supported (power g) w = true ->
     updateNodeComponentsEnergy g w st
     = setNodeMetrics
         (AddNodeComponentsEnergy S (reading (power g) w) (CNodeMetrics (coll st)))
         (emit EvGetNodeComponentsEnergy (emit EvIsSystemCollectionSupported st)))
  /\ (supported (power g) w = false -> IsNodeComponentPowerModelEnabled S w = true ->
     updateNodeComponentsEnergy g w st
     = setNodeMetrics
         (AddNodeComponentsEnergy S (GetNodeComponentPowers S w (CNodeMetrics (coll st)))
            (CNodeMetrics (coll st)))
         (emit EvGetNodeComponentPowers
            (emit EvIsNodeComponentPowerModelEnabled
               (emit EvIsSystemCollectionSupported st))))
  /\ (supported (power g) w = false -> IsNodeComponentPowerModelEnabled S w = false ->
     updateNodeComponentsEnergy g w st
     = setNodeMetrics (AddNodeComponentsEnergy S ∅ (CNodeMetrics (coll st)))
         (emit EvIsNodeComponentPowerModelEnabled
            (emit EvIsSystemCollectionSupported st))).
Proof.
  unfold Collector.updateNodeComponentsEnergy. repeat split.
  - intros ->. reflexivity.
  - intros -> ->. reflexivity.
  - intros -> ->. reflexivity.
Qed.

(** [updateNodeEnergyMetrics] leaves the containers, the system-process
    name and the utilization timestamp alone, and leaves the CPU frequency
    at what the meter reports. *)
Theorem updateNodeEnergyMetrics_frame (g : globals) (w : world S) (st : state S) :
  ContainersMetrics (coll (updateNodeEnergyMetrics g w st)) = ContainersMetrics (coll st)
  /\ systemProcessName (coll (updateNodeEnergyMetrics g w st)) = systemProcessName (coll st)
  /\ lastUtilizationTimestamp (updateNodeEnergyMetrics g w st) = lastUtilizationTimestamp st
  /\ NodeCPUFrequency (coll (updateNodeEnergyMetrics g w st)) = GetCPUCoreFrequency S w.
Proof.
  unfold Collector.updateNodeEnergyMetrics, Collector.updateNodeGPUEnergy,
    Collector.updateNodeAvgCPUFrequency, Collector.updateNodeComponentsEnergy,
    Collector.updatePlatformEnergy.
  destruct (IsPowerSupported S w), (IsNodePlatformPowerModelEnabled S w),
    (Components.IsSystemCollectionSupported _ _ _ _ _),
    (IsNodeComponentPowerModelEnabled S w), (EnabledGPU g); repeat split.
Qed.

(** The component model, when it is the source, is given the node record
    that already holds the platform energy of this same call. *)
Theorem component_model_sees_platform_energy (g : globals) (w : world S) (st : state S) :
  supported (power g) w = false -> IsNodeComponentPowerModelEnabled S w = true ->
  EnabledGPU g = false ->
  CNodeMetrics (coll (updateNodeEnergyMetrics g w st))
  = AddNodeComponentsEnergy S
      (GetNodeComponentPowers S w (CNodeMetrics (coll (updatePlatformEnergy w st))))
      (CNodeMetrics (coll (updatePlatformEnergy w st))).
Proof.
  intros Hsup Hmodel Hgpu.
  unfold Collector.updateNodeEnergyMetrics, Collector.updateNodeGPUEnergy,
    Collector.updateNodeAvgCPUFrequency, Collector.updateNodeComponentsEnergy.
  rewrite Hgpu, Hsup, Hmodel. reflexivity.
Qed.

(** From startup to the first read: when the sysfs backend reports
    supported at startup and still does at the read, the energy recorded is
    the one read from sysfs, whatever the models are set to. *)
Theorem sysfs_reading_recorded (g : globals) (v0 : Components.vars)
  (w0 w : world S) (st : state S) :
  power g = Components.init (sysfsImpl S) (msrImpl S) w0 v0 ->
  Source.IsSystemCollectionSupported (sysfsImpl S) w0 = true ->
  Source.IsSystemCollectionSupported (sysfsImpl S) w = true ->
  CNodeMetrics (coll (updateNodeComponentsEnergy g w st))
  = AddNodeComponentsEnergy S (Source.GetNodeComponentsEnergy (sysfsImpl S) w)
      (CNodeMetrics (coll st)).
Proof.
  intros Hg H0 Hw. unfold Collector.updateNodeComponentsEnergy.
  unfold Components.IsSystemCollectionSupported, Components.GetNodeComponentsEnergy.
  rewrite Hg. unfold Components.init. rewrite H0. cbn [Components.powerImpl Components.impl].
  rewrite Hw. reflexivity.
Qed.

End NodeEnergyMoreFacts.

(** * pkg/collector: accelerator metrics, further theorems *)

Section AcceleratorMoreFacts.

Import Collector.
Local Open Scope list_scope.
Local Open Scope Z_scope.
Variable S : Sys.

Local Abbreviation addCounter := (Collector.addCounter S).
Local Abbreviation accountSample := (Collector.accountSample S).
Local Abbreviation accountDevice := (Collector.accountDevice S).
Local Abbreviation updateAcceleratorMetrics := (Collector.updateAcceleratorMetrics S).
Local Abbreviation create := (Collector.createContainersMetricsIfNotExist S).
Local Abbreviation SM := (GPUSMUtilization S).
Local Abbreviation Mem := (GPUMemUtilization S).

(** One sample, whichever way the resolver answers: the two writes go to
    the container [targetOf] names, found or created in a state that holds
    what [st] holds. *)
Lemma accountSample_target (w : world S) (st : state S) (pid : Z)
  (u : ProcessUtilizationSample) :
  exists st0 : state S,
    coll st0 = coll st /\ follows st st0
    /\ accountSample w st (pid, u)
       = run_bind
           (addCounter (targetOf S w (systemProcessName (coll st)) pid) SM
              (to_uint64 (SmUtil u))
              (create w (targetOf S w (systemProcessName (coll st)) pid) 0
                 (to_uint64 pid) false st0))
           (addCounter (targetOf S w (systemProcessName (coll st)) pid) Mem
              (to_uint64 (MemUtil u))).
Proof.
  unfold Collector.accountSample, targetOf.
  destruct (GetContainerIDFromPID S w (to_uint64 pid)) as [resolved [e|]].
  - eexists. split; [|split; [|reflexivity]]; [reflexivity|].
    eapply follows_trans; apply follows_emit.
  - eexists. split; [|split; [|reflexivity]]; [reflexivity|]. apply follows_emit.
Qed.

Lemma NewContainerMetrics_channels (a b c name : string) (ch : Channel.channel) :
  CounterStats (NewContainerMetrics S a b c) !! name = Some ch ->
  ch = Channel.new_channel.
Proof.
  unfold NewContainerMetrics. cbn [CounterStats].
  induction (AvailableCounters S) as [|n l IH].
  - cbn. rewrite lookup_empty. discriminate.
  - cbn [fmap list_fmap list_to_map foldr uncurry]. rewrite lookup_insert.
    case_decide; [intros [= <-]; reflexivity | exact IH].
Qed.

Lemma create_coll (w : world S) (id : string) (cg pid : Z) (b : bool) (st st0 : state S) :
  coll st0 = coll st ->
  coll (create w id cg pid b st0) = coll (create w id cg pid b st).
Proof.
  intros H. unfold Collector.createContainersMetricsIfNotExist. rewrite H.
  destruct (ContainersMetrics (coll st) !! id); [exact H|].
  destruct (containerInfo S w id pid) as [[? ?] ?].
  unfold setContainers, setColl. cbn [coll]. rewrite H. reflexivity.
Qed.

Lemma create_channelOf (w : world S) (id id' name : string) (cg pid : Z) (b : bool)
  (st : state S) (cm0 : ContainerMetrics) :
  ContainersMetrics (coll (create w id cg pid b st)) !! id = Some cm0 ->
  channelOf (create w id cg pid b st) id' name = channelOf st id' name
  \/ (id' = id /\ CounterStats cm0 !! name = None
      /\ ContainersMetrics (coll st) !! id = None).
Proof.
  intros Hcm0. unfold channelOf.
  destruct (String.eqb id id') eqn:Heq.
  - apply String.eqb_eq in Heq. subst id'. rewrite Hcm0.
    destruct (create_found_or_new S w id cg pid b st cm0 Hcm0) as [Hfound Hnew].
    destruct (ContainersMetrics (coll st) !! id) as [cm|] eqn:Hcm.
    + left. rewrite (Hfound cm eq_refl). reflexivity.
    + destruct (Hnew eq_refl) as (a' & b' & c' & ->).
      destruct (CounterStats (NewContainerMetrics S a' b' c') !! name) as [ch|] eqn:Hch.
      * left. rewrite (NewContainerMetrics_channels _ _ _ _ _ Hch). reflexivity.
      * right. auto.
  - apply String.eqb_neq in Heq. left.
    rewrite (create_lookup_ne S w id id' cg pid b st Heq). reflexivity.
Qed.

Lemma channelOf_setContainers (m : gmap string ContainerMetrics) (st : state S)
  (id name : string) :
  channelOf (setContainers m st) id name
  = match m !! id with
    | Some cm => CounterStats cm !! name
    | None => Some Channel.new_channel
    end.
Proof. reflexivity. Qed.

(** What one sample does to the channel [name] of container [id], for
    [name] one of the two accelerator channels. *)
Lemma accountSample_channel (w : world S) (st st' : state S) (pid : Z)
  (u : ProcessUtilizationSample) (id : string) :
  SM <> Mem ->
  accountSample w st (pid, u) = Done st' ->
  systemProcessName (coll st') = systemProcessName (coll st)
  /\ channelOf st' id SM
     = (if String.eqb (targetOf S w (systemProcessName (coll st)) pid) id
        then Channel.add_delta (to_uint64 (SmUtil u)) <$> channelOf st id SM
        else channelOf st id SM)
  /\ channelOf st' id Mem
     = (if String.eqb (targetOf S w (systemProcessName (coll st)) pid) id
        then Channel.add_delta (to_uint64 (MemUtil u)) <$> channelOf st id Mem
        else channelOf st id Mem)
  /\ (targetOf S w (systemProcessName (coll st)) pid = id ->
      is_Some (channelOf st id SM) /\ is_Some (channelOf st id Mem)).
Proof.
  intros Hne H.
  destruct (accountSample_target w st pid u) as (st0 & Hc0 & _ & Heq).
  rewrite Heq in H. clear Heq.
  set (tgt := targetOf S w (systemProcessName (coll st)) pid) in *.
  apply run_bind_Done in H as (st2 & H1 & H2).
  apply addCounter_Done in H1 as (cm0 & sm & Hcm0 & Hsm & ->).
  apply addCounter_Done in H2 as (cmA & mem & HcmA & Hmem & ->).
  cbn [setContainers setColl coll ContainersMetrics] in HcmA.
  rewrite lookup_insert_eq in HcmA. injection HcmA as <-.
  cbn [withCounter CounterStats] in Hmem.
  rewrite lookup_insert_ne in Hmem by exact Hne.
  rewrite (create_coll w tgt 0 (to_uint64 pid) false st st0 Hc0) in Hcm0 |- *.
  split.
  { cbn [setContainers setColl coll systemProcessName].
    rewrite (create_coll w tgt 0 (to_uint64 pid) false st st0 Hc0).
    destruct (create_frame S w tgt 0 (to_uint64 pid) false st) as (_ & _ & _ & Hn).
    exact Hn. }
  rewrite !channelOf_setContainers.
  cbn [setContainers setColl coll ContainersMetrics].
  rewrite insert_insert_eq.
  destruct (String.eqb tgt id) eqn:Hid.
  - apply String.eqb_eq in Hid. subst id. rewrite lookup_insert_eq.
    cbn [withCounter CounterStats].
    assert (HchS : channelOf st tgt SM = Some sm).
    { destruct (create_channelOf w tgt tgt SM 0 (to_uint64 pid) false st cm0 Hcm0)
        as [Hch|(_ & Hnone & _)]; [|congruence].
      rewrite <- Hch. unfold channelOf. rewrite Hcm0. exact Hsm. }
    assert (HchM : channelOf st tgt Mem = Some mem).
    { destruct (create_channelOf w tgt tgt Mem 0 (to_uint64 pid) false st cm0 Hcm0)
        as [Hch|(_ & Hnone & _)]; [|congruence].
      rewrite <- Hch. unfold channelOf. rewrite Hcm0. exact Hmem. }
    rewrite HchS, HchM. split; [|split].
    + rewrite lookup_insert_ne by congruence. rewrite lookup_insert_eq. reflexivity.
    + rewrite lookup_insert_eq. reflexivity.
    + intros _. split; eauto.
  - apply String.eqb_neq in Hid. rewrite lookup_insert_ne by exact Hid.
    fold (channelOf (create w tgt 0 (to_uint64 pid) false st) id SM).
    fold (channelOf (create w tgt 0 (to_uint64 pid) false st) id Mem).
    split; [|split].
    + destruct (create_channelOf w tgt id SM 0 (to_uint64 pid) false st cm0 Hcm0)
        as [Hch|(Heq & _)]; [exact Hch | congruence].
    + destruct (create_channelOf w tgt id Mem 0 (to_uint64 pid) false st cm0 Hcm0)
        as [Hch|(Heq & _)]; [exact Hch | congruence].
    + intros Heq. contradiction.
Qed.

Lemma accountSample_curr (w : world S) (st st' : state S) (pid : Z)
  (u : ProcessUtilizationSample) (id : string) :
  SM <> Mem ->
  accountSample w st (pid, u) = Done st' ->
  systemProcessName (coll st') = systemProcessName (coll st)
  /\ currOf st' id SM
     = currOf st id SM
       + attributed S w (systemProcessName (coll st)) id SmUtil [(pid, u)]
  /\ currOf st' id Mem
     = currOf st id Mem
       + attributed S w (systemProcessName (coll st)) id MemUtil [(pid, u)].
Proof.
  intros Hne H.
  destruct (accountSample_channel w st st' pid u id Hne H) as (Hn & Hs & Hm & Hsome).
  split; [exact Hn|]. unfold currOf, attributed. cbn [fold_right fst snd].
  rewrite Hs, Hm.
  destruct (String.eqb (targetOf S w (systemProcessName (coll st)) pid) id) eqn:Hid.
  - apply String.eqb_eq in Hid. destruct (Hsome Hid) as [[a Ha] [b Hb]].
    rewrite Ha, Hb. cbn. split; lia.
  - split; lia.
Qed.

Lemma attributed_app (w : world S) (sysName id : string)
  (field : ProcessUtilizationSample -> Z) (l1 l2 : list (Z * ProcessUtilizationSample)) :
  attributed S w sysName id field (l1 ++ l2)
  = attributed S w sysName id field l1 + attributed S w sysName id field l2.
Proof.
  unfold attributed. induction l1 as [|e l1 IH]; [reflexivity|].
  cbn [app fold_right]. rewrite IH.
  destruct (String.eqb (targetOf S w sysName (fst e)) id); lia.
Qed.

Lemma samples_curr (w : world S) (id : string)
  (samples : list (Z * ProcessUtilizationSample)) :
  SM <> Mem ->
  forall st st' : state S,
    foldM (accountSample w) samples st = Done st' ->
    systemProcessName (coll st') = systemProcessName (coll st)
    /\ currOf st' id SM
       = currOf st id SM + attributed S w (systemProcessName (coll st)) id SmUtil samples
    /\ currOf st' id Mem
       = currOf st id Mem + attributed S w (systemProcessName (coll st)) id MemUtil samples.
Proof.
  intros Hne. induction samples as [|[pid u] samples IH]; intros st st' H.
  - injection H as <-. cbn. repeat split; lia.
  - cbn [foldM] in H. apply run_bind_Done in H as (st1 & H1 & H2).
    destruct (accountSample_curr w st st1 pid u id Hne H1) as (Hn1 & Hs1 & Hm1).
    destruct (IH st1 st' H2) as (Hn2 & Hs2 & Hm2).
    rewrite Hn1 in Hn2, Hs2, Hm2.
    change ((pid, u) :: samples) with ([(pid, u)] ++ samples).
    rewrite !attributed_app. repeat split; [congruence | lia | lia].
Qed.

Lemma currOf_coll (st st0 : state S) (id name : string) :
  coll st0 = coll st -> currOf st0 id name = currOf st id name.
Proof. unfold currOf, channelOf. intros ->. reflexivity. Qed.

Lemma device_curr (w : world S) (id : string) (d : device S) (st st' : state S) :
  SM <> Mem ->
  accountDevice w st d = Done st' ->
  systemProcessName (coll st') = systemProcessName (coll st)
  /\ lastUtilizationTimestamp st' = lastUtilizationTimestamp st
  /\ currOf st' id SM
     = currOf st id SM
       + attributed S w (systemProcessName (coll st)) id SmUtil
           (fst (GetProcessResourceUtilizationPerDevice S w d
                   (Now S w - lastUtilizationTimestamp st)))
  /\ currOf st' id Mem
     = currOf st id Mem
       + attributed S w (systemProcessName (coll st)) id MemUtil
           (fst (GetProcessResourceUtilizationPerDevice S w d
                   (Now S w - lastUtilizationTimestamp st))).
Proof.
  intros Hne H.
  pose proof (follows_accountDevice S w d st st' H) as [Ht _].
  unfold Collector.accountDevice in H.
  destruct (GetProcessResourceUtilizationPerDevice S w d _) as [samples err].
  destruct (samples_curr w id samples Hne _ _ H) as (Hn & Hs & Hm).
  assert (Hc : coll (logIfError 2 err (emit (EvProcessUtilization d) st)) = coll st)
    by (destruct err; reflexivity).
  rewrite Hc in Hn, Hs, Hm.
  rewrite (currOf_coll st _ id SM Hc) in Hs.
  rewrite (currOf_coll st _ id Mem Hc) in Hm.
  cbn [fst]. auto.
Qed.

Lemma devices_curr (w : world S) (id : string) (ds : list (device S)) :
  SM <> Mem ->
  forall st st' : state S,
    foldM (accountDevice w) ds st = Done st' ->
    systemProcessName (coll st') = systemProcessName (coll st)
    /\ currOf st' id SM
       = currOf st id SM
         + attributed S w (systemProcessName (coll st)) id SmUtil
             (List.flat_map
                (fun d => fst (GetProcessResourceUtilizationPerDevice S w d
                                 (Now S w - lastUtilizationTimestamp st))) ds)
    /\ currOf st' id Mem
       = currOf st id Mem
         + attributed S w (systemProcessName (coll st)) id MemUtil
             (List.flat_map
                (fun d => fst (GetProcessResourceUtilizationPerDevice S w d
                                 (Now S w - lastUtilizationTimestamp st))) ds).
Proof.
  intros Hne. induction ds as [|d ds IH]; intros st st' H.
  - injection H as <-. cbn. repeat split; lia.
  - cbn [foldM] in H. apply run_bind_Done in H as (st1 & H1 & H2).
    destruct (device_curr w id d st st1 Hne H1) as (Hn1 & Ht1 & Hs1 & Hm1).
    destruct (IH st1 st' H2) as (Hn2 & Hs2 & Hm2).
    rewrite Hn1 in Hn2. rewrite Hn1, Ht1 in Hs2, Hm2.
    cbn [List.flat_map]. rewrite !attributed_app.
    repeat split; [congruence | lia | lia].
Qed.

(** Utilization is additive: when [updateAcceleratorMetrics] returns, the
    current SM utilization of every container has grown by the sum of the SM
    utilization of the samples of this call that are accounted to it, over
    all devices, and its memory utilization likewise; a container without
    such a sample stands where it stood. *)
Theorem updateAcceleratorMetrics_adds_up (w : world S) (st st' : state S) (id : string) :
  SM <> Mem ->
  updateAcceleratorMetrics w st = Done st' ->
  currOf st' id SM
  = currOf st id SM
    + attributed S w (systemProcessName (coll st)) id SmUtil (samplesOf S w st)
  /\ currOf st' id Mem
     = currOf st id Mem
       + attributed S w (systemProcessName (coll st)) id MemUtil (samplesOf S w st).
Proof.
  intros Hne H. unfold Collector.updateAcceleratorMetrics in H.
  apply run_bind_Done in H as (st1 & H1 & [= <-]).
  destruct (devices_curr w id (GetGpus S w) Hne _ _ H1) as (_ & Hs & Hm).
  unfold samplesOf. split; [exact Hs | exact Hm].
Qed.

(** The turn of a device whose query comes back with an error: the query,
    then the line logged at verbosity 2, next to each other in the events of
    the loop. *)
Lemma failed_device_trace (w : world S) (l1 l2 : list (device S)) (d : device S)
  (e : error S) (entries : list (Z * ProcessUtilizationSample)) (st st' : state S) :
  GetProcessResourceUtilizationPerDevice S w d (Now S w - lastUtilizationTimestamp st)
  = (entries, Some e) ->
  foldM (accountDevice w) (l1 ++ d :: l2) st = Done st' ->
  exists evs1 evs2,
    trace st' = trace st ++ evs1 ++ [EvProcessUtilization d; EvLog 2 (MsgError e)] ++ evs2.
Proof.
  intros Hq H. rewrite foldM_app in H.
  apply run_bind_Done in H as (s1 & H1 & H). cbn [foldM] in H.
  apply run_bind_Done in H as (s2 & H2 & H3).
  pose proof (follows_devices S _ _ _ _ H1) as [Ht [ev1 E1]].
  unfold Collector.accountDevice in H2. rewrite Ht, Hq in H2.
  apply (follows_foldM S) in H2 as [_ [ev2 E2]];
    [|intros a b a'; apply follows_accountSample].
  apply (follows_devices S) in H3 as [_ [ev3 E3]].
  exists ev1, (ev2 ++ ev3). rewrite E3, E2. cbn [logIfError emit trace]. rewrite E1.
  rewrite <- !app_assoc. reflexivity.
Qed.

Lemma samplesFrom_split (w : world S) (st : state S) (l1 l2 : list (device S))
  (d : device S) :
  samplesFrom S w st (l1 ++ d :: l2)
  = samplesFrom S w st l1
    ++ fst (GetProcessResourceUtilizationPerDevice S w d
              (Now S w - lastUtilizationTimestamp st))
    ++ samplesFrom S w st l2.
Proof. unfold samplesFrom. rewrite flat_map_app. reflexivity. Qed.


Lemma preserved_coll (st st0 : state S) : coll st0 = coll st -> preserved st st0.
Proof.
  intros H. unfold preserved. rewrite H. repeat split. intros id cm Hcm.
  exists cm. repeat split. exact Hcm.
Qed.

Lemma preserved_trans (a b c : state S) : preserved a b -> preserved b c -> preserved a c.
Proof.
  intros (A1 & A2 & A3 & A4) (B1 & B2 & B3 & B4).
  split; [congruence|]. split; [congruence|]. split; [congruence|].
  intros id cm Hcm.
  destruct (A4 id cm Hcm) as (cm1 & Hcm1 & N1 & P1 & S1 & C1).
  destruct (B4 id cm1 Hcm1) as (cm2 & Hcm2 & N2 & P2 & S2 & C2).
  exists cm2. split; [exact Hcm2|].
  split; [congruence|]. split; [congruence|]. split; [congruence|].
  intros name H1 H2. rewrite (C2 name H1 H2). apply C1; assumption.
Qed.

Lemma preserved_create (w : world S) (id : string) (cg pid : Z) (b : bool) (st : state S) :
  preserved st (create w id cg pid b st).
Proof.
  unfold Collector.createContainersMetricsIfNotExist.
  destruct (ContainersMetrics (coll st) !! id) as [cm|] eqn:Hid;
    [apply preserved_coll; reflexivity|].
  destruct (containerInfo S w id pid) as [[? ?] ?].
  repeat split. intros id' cm Hcm. exists cm.
  cbn [setContainers setColl coll ContainersMetrics].
  rewrite lookup_insert_ne by congruence. repeat split. exact Hcm.
Qed.

Lemma preserved_addCounter (id name : string) (v : Z) (st st' : state S) :
  name = SM \/ name = Mem ->
  addCounter id name v st = Done st' -> preserved st st'.
Proof.
  intros Hname H. apply addCounter_Done in H as (cm & ch & Hcm & Hch & ->).
  repeat split. intros id' cm0 Hcm0.
  cbn [setContainers setColl coll ContainersMetrics]. rewrite lookup_insert.
  case_decide as Hid.
  - subst id'. rewrite Hcm in Hcm0. injection Hcm0 as <-.
    eexists. split; [reflexivity|]. repeat split.
    intros n H1 H2. cbn [withCounter CounterStats].
    apply lookup_insert_ne. destruct Hname; congruence.
  - exists cm0. repeat split. exact Hcm0.
Qed.

Lemma preserved_accountSample (w : world S) (entry : Z * ProcessUtilizationSample)
  (st st' : state S) :
  accountSample w st entry = Done st' -> preserved st st'.
Proof.
  destruct entry as [pid u]. intros H.
  destruct (accountSample_target w st pid u) as (st0 & Hc0 & _ & Heq).
  rewrite Heq in H. apply run_bind_Done in H as (st2 & H1 & H2).
  apply preserved_addCounter in H1; [|left; reflexivity].
  apply preserved_addCounter in H2; [|right; reflexivity].
  eapply preserved_trans; [|exact H2]. eapply preserved_trans; [|exact H1].
  eapply preserved_trans; [apply preserved_coll, Hc0 | apply preserved_create].
Qed.

Lemma preserved_foldM {B : Type} (f : state S -> B -> run (state S)) (l : list B) :
  (forall a b a', f a b = Done a' -> preserved a a') ->
  forall st st', foldM f l st = Done st' -> preserved st st'.
Proof.
  intros Hf. induction l as [|b l IH]; intros st st'; cbn [foldM].
  - intros [= <-]. apply preserved_coll. reflexivity.
  - intros H. apply run_bind_Done in H as (s1 & H1 & H2).
    eapply preserved_trans; [apply (Hf _ _ _ H1) | apply (IH _ _ H2)].
Qed.

Lemma preserved_accountDevice (w : world S) (d : device S) (st st' : state S) :
  accountDevice w st d = Done st' -> preserved st st'.
Proof.
  unfold Collector.accountDevice.
  destruct (GetProcessResourceUtilizationPerDevice S w d _) as [samples err].
  intros H. apply preserved_foldM in H;
    [|intros a b a'; apply preserved_accountSample].
  eapply preserved_trans; [|exact H]. apply preserved_coll.
  destruct err; reflexivity.
Qed.

(** What [updateAcceleratorMetrics] never touches. When it returns, the
    node record, the CPU frequency and the system-process name are what
    they were; no container record is gone; every record that was there has
    kept its names and all its channels but the two of the accelerator; and
    the utilization timestamp is the time of the call. *)
Theorem updateAcceleratorMetrics_frame (w : world S) (st st' : state S) :
  updateAcceleratorMetrics w st = Done st' ->
  preserved st st' /\ lastUtilizationTimestamp st' = Now S w.
Proof.
  unfold Collector.updateAcceleratorMetrics. intros H.
  apply run_bind_Done in H as (st1 & H1 & [= <-]). split; [|reflexivity].
  apply preserved_foldM in H1; [|intros a b a'; apply preserved_accountDevice].
  eapply preserved_trans; [|apply preserved_coll; reflexivity].
  eapply preserved_trans; [|exact H1]. apply preserved_coll. reflexivity.
Qed.

Lemma devices_without_samples (w : world S) (ds : list (device S)) :
  forall st : state S,
    (forall d, In d ds ->
       fst (GetProcessResourceUtilizationPerDevice S w d
              (Now S w - lastUtilizationTimestamp st)) = []) ->
    exists st', foldM (accountDevice w) ds st = Done st'
                /\ coll st' = coll st
                /\ lastUtilizationTimestamp st' = lastUtilizationTimestamp st.
Proof.
  induction ds as [|d ds IH]; intros st Hall; cbn [foldM].
  - eauto.
  - unfold Collector.accountDevice at 1.
    pose proof (Hall d (or_introl eq_refl)) as Hd.
    destruct (GetProcessResourceUtilizationPerDevice S w d _) as [samples err].
    cbn [fst] in Hd. subst samples. cbn [foldM run_bind].
    destruct (IH (logIfError 2 err (emit (EvProcessUtilization d) st)))
      as (st' & Hrun & Hc & Ht).
    { intros d' Hd'. replace (lastUtilizationTimestamp (logIfError 2 err _))
        with (lastUtilizationTimestamp st) by (destruct err; reflexivity).
      apply Hall. right. exact Hd'. }
    exists st'. split; [exact Hrun|]. split.
    + rewrite Hc. destruct err; reflexivity.
    + rewrite Ht. destruct err; reflexivity.
Qed.

(** With no device, or with devices that all hand back no entries,
    [updateAcceleratorMetrics] returns without panic and changes nothing in
    the collector; only the utilization timestamp moves to the time of the
    call. *)
Theorem updateAcceleratorMetrics_no_samples (w : world S) (st : state S) :
  (forall d, In d (GetGpus S w) ->
     fst (GetProcessResourceUtilizationPerDevice S w d
            (Now S w - lastUtilizationTimestamp st)) = []) ->
  exists st', updateAcceleratorMetrics w st = Done st'
              /\ coll st' = coll st
              /\ lastUtilizationTimestamp st' = Now S w.
Proof.
  intros Hall. unfold Collector.updateAcceleratorMetrics.
  destruct (devices_without_samples w (GetGpus S w) (emit EvGetGpus st) Hall)
    as (st1 & -> & Hc & _).
  eexists. split; [reflexivity|]. split; [exact Hc | reflexivity].
Qed.

(** A pid that resolves is accounted to the container the resolver names:
    both utilization values go onto that container's two channels, the
    channels of every other container stay, and nothing is logged. *)
Theorem resolved_pid_to_its_container (w : world S) (st st' : state S) (pid : Z)
  (u : ProcessUtilizationSample) (resolved : string) :
  SM <> Mem ->
  GetContainerIDFromPID S w (to_uint64 pid) = (resolved, None) ->
  accountSample w st (pid, u) = Done st' ->
  channelOf st' resolved SM
  = Channel.add_delta (to_uint64 (SmUtil u)) <$> channelOf st resolved SM
  /\ channelOf st' resolved Mem
     = Channel.add_delta (to_uint64 (MemUtil u)) <$> channelOf st resolved Mem
  /\ is_Some (channelOf st' resolved SM) /\ is_Some (channelOf st' resolved Mem)
  /\ (forall id, id <> resolved ->
        channelOf st' id SM = channelOf st id SM
        /\ channelOf st' id Mem = channelOf st id Mem)
  /\ trace st' = trace st ++ [EvGetContainerIDFromPID pid].
Proof.
  intros Hne Hres H.
  assert (Htgt : targetOf S w (systemProcessName (coll st)) pid = resolved)
    by (unfold targetOf; rewrite Hres; reflexivity).
  destruct (accountSample_channel w st st' pid u resolved Hne H)
    as (_ & Hs & Hm & Hsome).
  rewrite Htgt, String.eqb_refl in Hs, Hm.
  destruct (Hsome Htgt) as [[a Ha] [b Hb]].
  split; [exact Hs|]. split; [exact Hm|].
  split; [rewrite Hs, Ha; cbn; eauto|]. split; [rewrite Hm, Hb; cbn; eauto|].
  split.
  - intros id Hid.
    destruct (accountSample_channel w st st' pid u id Hne H) as (_ & Hs' & Hm' & _).
    rewrite Htgt in Hs', Hm'.
    assert (Hf : String.eqb resolved id = false) by (apply String.eqb_neq; congruence).
    rewrite Hf in Hs', Hm'. split; assumption.
  - unfold Collector.accountSample in H. rewrite Hres in H.
    apply run_bind_Done in H as (st2 & H1 & H2).
    apply addCounter_Done in H1 as (cm0 & sm & _ & _ & ->).
    apply addCounter_Done in H2 as (cmA & mem & _ & _ & ->).
    cbn [setContainers setColl trace].
    destruct (create_frame S w resolved 0 (to_uint64 pid) false
                (emit (EvGetContainerIDFromPID pid) st)) as (Htr & _).
    rewrite Htr. reflexivity.
Qed.

Lemma ready_coll (st st0 : state S) : coll st0 = coll st -> ready st -> ready st0.
Proof. unfold ready. intros ->. auto. Qed.

Lemma ready_create (w : world S) (id : string) (cg pid : Z) (b : bool) (st : state S) :
  ready st -> ready (create w id cg pid b st).
Proof.
  intros (HS & HM & Hall). unfold Collector.createContainersMetricsIfNotExist.
  destruct (ContainersMetrics (coll st) !! id) as [cm|] eqn:Hid;
    [split; [|split]; assumption|].
  destruct (containerInfo S w id pid) as [[a' b'] c'].
  split; [exact HS|]. split; [exact HM|]. intros id' cm.
  cbn [setContainers setColl coll ContainersMetrics]. rewrite lookup_insert.
  case_decide; [|apply Hall].
  intros [= <-]. rewrite !(NewContainerMetrics_lookup S) by assumption. split; eauto.
Qed.

Lemma addCounter_ready (id name : string) (v : Z) (st : state S) :
  ready st -> is_Some (ContainersMetrics (coll st) !! id) ->
  name = SM \/ name = Mem ->
  exists st', addCounter id name v st = Done st' /\ ready st'
              /\ is_Some (ContainersMetrics (coll st') !! id).
Proof.
  intros (HS & HM & Hall) [cm Hcm] Hname.
  destruct (Hall id cm Hcm) as [[chS HchS] [chM HchM]].
  assert (Hch : exists ch, CounterStats cm !! name = Some ch)
    by (destruct Hname as [->| ->]; eauto).
  destruct Hch as [ch Hch].
  rewrite (addCounter_found S id name v st cm ch Hcm Hch).
  eexists. split; [reflexivity|].
  cbn [setContainers setColl coll ContainersMetrics]. split.
  - split; [exact HS|]. split; [exact HM|]. intros id' cm'.
    cbn [setContainers setColl coll ContainersMetrics]. rewrite lookup_insert.
    case_decide; [|apply Hall].
    intros [= <-]. cbn [withCounter CounterStats]. rewrite !lookup_insert.
    split; case_decide; eauto.
  - rewrite lookup_insert_eq. eauto.
Qed.

Lemma accountSample_Done (w : world S) (entry : Z * ProcessUtilizationSample)
  (st : state S) :
  ready st -> exists st', accountSample w st entry = Done st' /\ ready st'.
Proof.
  destruct entry as [pid u]. intros Hready.
  destruct (accountSample_target w st pid u) as (st0 & Hc0 & _ & ->).
  set (tgt := targetOf S w (systemProcessName (coll st)) pid).
  destruct (addCounter_ready tgt SM (to_uint64 (SmUtil u))
              (create w tgt 0 (to_uint64 pid) false st0))
    as (st1 & -> & Hr1 & Hin1).
  - apply ready_create, (ready_coll st st0 Hc0 Hready).
  - apply create_lookup.
  - left. reflexivity.
  - cbn [run_bind].
    destruct (addCounter_ready tgt Mem (to_uint64 (MemUtil u)) st1 Hr1 Hin1)
      as (st2 & -> & Hr2 & _); [right; reflexivity|].
    eauto.
Qed.

Lemma samples_Done (w : world S) (samples : list (Z * ProcessUtilizationSample)) :
  forall st : state S,
    ready st -> exists st', foldM (accountSample w) samples st = Done st' /\ ready st'.
Proof.
  induction samples as [|e samples IH]; intros st Hready; cbn [foldM]; [eauto|].
  destruct (accountSample_Done w e st Hready) as (st1 & -> & Hr1).
  cbn [run_bind]. apply IH, Hr1.
Qed.

Lemma devices_Done (w : world S) (ds : list (device S)) :
  forall st : state S,
    ready st -> exists st', foldM (accountDevice w) ds st = Done st' /\ ready st'.
Proof.
  induction ds as [|d ds IH]; intros st Hready; cbn [foldM]; [eauto|].
  unfold Collector.accountDevice at 1.
  destruct (GetProcessResourceUtilizationPerDevice S w d _) as [samples err].
  destruct (samples_Done w samples (logIfError 2 err (emit (EvProcessUtilization d) st)))
    as (st1 & -> & Hr1).
  - apply (ready_coll st); [destruct err; reflexivity | exact Hready].
  - cbn [run_bind]. apply IH, Hr1.
Qed.

Lemma updateAcceleratorMetrics_Done (w : world S) (st : state S) :
  ready st -> exists st', updateAcceleratorMetrics w st = Done st' /\ ready st'.
Proof.
  intros Hready. unfold Collector.updateAcceleratorMetrics.
  destruct (devices_Done w (GetGpus S w) (emit EvGetGpus st)) as (st1 & -> & Hr1).
  - apply (ready_coll st); [reflexivity | exact Hready].
  - eexists. split; [reflexivity|]. apply (ready_coll st1); [reflexivity | exact Hr1].
Qed.

(** [updateAcceleratorMetrics] does not panic once the catalog declares
    the two accelerator channels and every container record holds them, and
    it leaves the collector in that condition: the records it creates hold
    the two channels, and the records it writes to keep them. *)
Theorem updateAcceleratorMetrics_never_panics (w : world S) (st : state S) :
  ready st -> exists st', updateAcceleratorMetrics w st = Done st' /\ ready st'.
Proof. apply updateAcceleratorMetrics_Done. Qed.

End AcceleratorMoreFacts.

(** * Concrete runs of the further theorems *)

Section MoreRuns.

Local Open Scope list_scope.
Local Open Scope Z_scope.

Lemma kubepods_distinct : List.NoDup (Cgroup.walk Demo.kubepods).
Proof.
  apply NoDup_ListNoDup.
  apply (bool_decide_unpack (NoDup (Cgroup.walk Demo.kubepods))).
  vm_compute. exact I.
Qed.

Lemma searchBySuffix_first_match_witness :
  ".scope" <> EmptyString
  /\ Cgroup.searchBySuffix Demo.kubepods Cgroup.KubePodCGroupPath ".scope"
     = "/sys/fs/cgroup/kubepods.slice/kubepods-besteffort.slice/kubepods-pod1.slice/crio-12b270d3.scope"
  /\ (Cgroup.node_at Demo.kubepods "/nowhere" = None ->
      Cgroup.searchBySuffix Demo.kubepods "/nowhere" ".scope" = EmptyString).
Proof.
  split; [discriminate|]. split; [reflexivity|].
  apply (searchBySuffix_first_match Demo.kubepods "/nowhere" ".scope"). discriminate.
Defined.

Lemma findContainerScope_is_first_scope_witness :
  Cgroup.findContainerScope 5 Demo.kubepods Cgroup.KubePodCGroupPath
  = Some (Cgroup.searchBySuffix Demo.kubepods Cgroup.KubePodCGroupPath Cgroup.scopeSuffix).
Proof.
  apply (findContainerScope_is_first_scope Demo.kubepods 5 Cgroup.KubePodCGroupPath
           kubepods_distinct).
  vm_compute. lia.
Defined.

Lemma exampleIDOfScope_of_scope_name_witness :
  Cgroup.exampleIDOfScope
    ("/sys/fs/cgroup/kubepods.slice/kubepods-pod1.slice" ++ "/" ++ "cri-containerd"
       ++ "-" ++ "12b270d3b4ec" ++ ".scope")%string
  = Done "12b270d3b4ec".
Proof.
  apply (exampleIDOfScope_of_scope_name
           "/sys/fs/cgroup/kubepods.slice/kubepods-pod1.slice" "cri-containerd"
           "12b270d3b4ec"); reflexivity.
Defined.

Lemma findExampleContainerID_returns_witness :
  exists id,
    Cgroup.findExampleContainerID 5 Demo.kubepods (Some Demo.kubeHandler)
    = Some (Done id)
    /\ Cgroup.has_char "/"%char id = false /\ Cgroup.has_char "-"%char id = false.
Proof.
  destruct (findExampleContainerID_returns Demo.kubepods 5 Demo.kubeHandler
              kubepods_distinct) as (id & H1 & H2 & H3 & _).
  - vm_compute. lia.
  - exists id. auto.
Defined.

Example findExampleContainerID_kubepods :
  Cgroup.findExampleContainerID 5 Demo.kubepods (Some Demo.kubeHandler)
  = Some (Done "12b270d3").
Proof. vm_compute. reflexivity. Qed.

Example findExampleContainerID_idle :
  Cgroup.findExampleContainerID 5 Demo.kubepods_idle (Some Demo.kubeHandler)
  = Some (Done "").
Proof. vm_compute. reflexivity. Qed.

Lemma GetAvailableCgroupMetrics_registers_example_witness :
  exists (id : string) (metrics : list string) (s' : Cgroup.SliceHandler),
    Cgroup.GetAvailableCgroupMetrics (fun fs => fs) Demo.searchIn Demo.readAt
      (fun m => m) 5%nat Demo.kubepods (Some Demo.kubeHandler)
    = Some (Done (metrics, Some s'))
    /\ is_Some (Cgroup.readersOf s' id)
    /\ List.NoDup metrics.
Proof.
  destruct (GetAvailableCgroupMetrics_registers_example (fun fs => fs) Demo.searchIn
              Demo.readAt (fun m => m) 5%nat Demo.kubepods (Some Demo.kubeHandler)
              kubepods_distinct)
    as (id & metrics & s' & _ & H & _ & Hreg & Hnd & _).
  - vm_compute. lia.
  - exists Demo.kubeHandler, ∅. split; [reflexivity|]. split; [reflexivity|].
    intros k rs Hk. rewrite lookup_empty in Hk. discriminate.
  - exists id, metrics, s'. auto.
Defined.

Lemma GetStats_last_reader_wins_witness :
  Cgroup.readersOf Demo.abcHandler "abc" = Some Demo.abcReaders
  /\ Cgroup.GetStats Demo.readAt Demo.kubepods Demo.abcHandler "abc" !! "cpu_usage"
     = Some 9.
Proof.
  assert (H : Cgroup.readersOf Demo.abcHandler "abc" = Some Demo.abcReaders)
    by (vm_compute; reflexivity).
  split; [exact H|].
  apply (proj1 (GetStats_last_reader_wins Demo.readAt Demo.kubepods Demo.abcHandler
                  "abc" Demo.abcReaders H)
           [Cgroup.CPUStatReader "/c"; Cgroup.MemoryStatReader "/m"]
           (Cgroup.IOStatReader "/i") [] "cpu_usage" 9 eq_refl).
  - vm_compute. reflexivity.
  - intros r' [].
Defined.

Lemma TryInitStatReaders_paths_below_top_witness :
  Cgroup.TryInitStatReaders (fun (_ : unit) top id => (top ++ "/pod1/" ++ id)%string) tt
    (Some Demo.legacyHandler) "abc"
  = Done (Some (Cgroup.withReaders Demo.legacyHandler
       (<["abc" := [Cgroup.CPUStatReader "/sys/fs/cgroup/cpu/pod1/abc";
                    Cgroup.MemoryStatReader "/sys/fs/cgroup/memory/pod1/abc";
                    Cgroup.IOStatReader "/sys/fs/cgroup/blkio/pod1/abc"]]> ∅))).
Proof.
  apply (TryInitStatReaders_paths_below_top
           (fun (_ : unit) top id => (top ++ "/pod1/" ++ id)%string) tt
           Demo.legacyHandler ∅ "abc" "/pod1/abc"); reflexivity.
Defined.

Lemma TryInitStatReaders_not_found_witness :
  Cgroup.TryInitStatReaders Demo.searchIn Demo.kubepods_idle
    (Some Demo.kubeHandler) "abc"
  = Done (Some (Cgroup.withReaders Demo.kubeHandler
       (<["abc" := [Cgroup.CPUStatReader ""; Cgroup.MemoryStatReader "";
                    Cgroup.IOStatReader ""]]> ∅)))
  /\ Cgroup.TryInitStatReaders Demo.searchIn Demo.kubepods_idle
       (Some Demo.rootlessHandler) "abc"
     = Done (Some (Cgroup.withReaders Demo.rootlessHandler
          (<["abc" := [Cgroup.CPUStatReader ""; Cgroup.MemoryStatReader "/mem";
                       Cgroup.IOStatReader "/io"]]> ∅))).
Proof.
  split.
  - apply (TryInitStatReaders_not_found Demo.searchIn Demo.kubepods_idle
             Demo.kubeHandler ∅ "abc"); try reflexivity. discriminate.
  - apply (TryInitStatReaders_not_found Demo.searchIn Demo.kubepods_idle
             Demo.rootlessHandler ∅ "abc"); reflexivity.
Defined.

Lemma TryInitStatReaders_frame_witness :
  Cgroup.topPaths
    (Cgroup.withReaders Demo.kubeHandler
       (<["abc" := [Cgroup.CPUStatReader ""; Cgroup.MemoryStatReader "";
                    Cgroup.IOStatReader ""]]> ∅))
  = Cgroup.topPaths Demo.kubeHandler
  /\ forall id', id' <> "abc" ->
       Cgroup.readersOf
         (Cgroup.withReaders Demo.kubeHandler
            (<["abc" := [Cgroup.CPUStatReader ""; Cgroup.MemoryStatReader "";
                         Cgroup.IOStatReader ""]]> ∅)) id'
       = Cgroup.readersOf Demo.kubeHandler id'.
Proof.
  apply (TryInitStatReaders_frame Demo.searchIn Demo.kubepods_idle Demo.kubeHandler
           _ "abc").
  vm_compute. reflexivity.
Defined.

Lemma init_without_flag_witness :
  Components.powerImpl
    (Components.init (Demo.backendOf (fun _ => false) 0) (Demo.backendOf (fun _ => true) 0)
       Demo.node Components.declared)
  = Components.Dummy
  /\ Components.powerImpl
       (Components.init (Demo.backendOf (fun _ => false) 0)
          (Demo.backendOf (fun _ => true) 0) Demo.node Components.declared)
     <> Components.MSR.
Proof.
  apply (init_without_flag (Demo.backendOf (fun _ => false) 0)
           (Demo.backendOf (fun _ => true) 0) Demo.node Components.declared eq_refl).
Defined.

Lemma init_selected_is_supported_witness :
  Components.IsSystemCollectionSupported (Collector.sysfsImpl Demo.sys)
    (Collector.msrImpl Demo.sys) (Collector.dummyImpl Demo.sys)
    (Components.init (Collector.sysfsImpl Demo.sys) (Collector.msrImpl Demo.sys)
       Demo.node Components.declared) Demo.node
  = true.
Proof.
  apply (init_selected_is_supported (Collector.sysfsImpl Demo.sys)
           (Collector.msrImpl Demo.sys) (Collector.dummyImpl Demo.sys)
           Demo.node Components.declared).
  discriminate.
Defined.

Lemma component_model_sees_platform_energy_witness :
  Collector.CNodeMetrics
    (Collector.coll
       (Collector.updateNodeEnergyMetrics Demo.sys Demo.gpu_off Demo.node_modelled
          Demo.start))
  = [Demo.ComponentsEnergy (Demo.socket0 3); Demo.PlatformEnergy (Demo.platformMap 7)].
Proof.
  apply (component_model_sees_platform_energy Demo.sys Demo.gpu_off Demo.node_modelled
           Demo.start); reflexivity.
Defined.

Lemma sysfs_reading_recorded_witness :
  Collector.CNodeMetrics
    (Collector.coll
       (Collector.updateNodeComponentsEnergy Demo.sys Demo.gpu_on Demo.node Demo.start))
  = [Demo.ComponentsEnergy (Demo.socket0 18)].
Proof.
  apply (sysfs_reading_recorded Demo.sys Demo.gpu_on Components.declared Demo.node
           Demo.node Demo.start); reflexivity.
Defined.

Lemma start_ready : Collector.ready Demo.start.
Proof.
  split; [right; left; reflexivity|]. split; [right; right; left; reflexivity|].
  intros id cm H. cbn in H. rewrite lookup_empty in H. discriminate.
Qed.



Lemma updateAcceleratorMetrics_never_panics_witness :
  exists st' : Collector.state Demo.sys,
    Collector.updateAcceleratorMetrics Demo.sys Demo.node Demo.start = Done st'
    /\ Collector.ready st'.
Proof.
  exact (updateAcceleratorMetrics_never_panics Demo.sys Demo.node Demo.start start_ready).
Defined.

Lemma updateAcceleratorMetrics_adds_up_witness :
  exists st' : Collector.state Demo.sys,
    Collector.updateAcceleratorMetrics Demo.sys Demo.node Demo.start = Done st'
    /\ Collector.currOf st' "system_processes" "gpu_sm_util"
       = Collector.currOf Demo.start "system_processes" "gpu_sm_util"
         + Collector.attributed Demo.sys Demo.node "system_processes" "system_processes"
             Collector.SmUtil (Collector.samplesOf Demo.sys Demo.node Demo.start)
    /\ Collector.attributed Demo.sys Demo.node "system_processes" "system_processes"
         Collector.SmUtil (Collector.samplesOf Demo.sys Demo.node Demo.start) = 16.
Proof.
  destruct (updateAcceleratorMetrics_Done Demo.sys Demo.node Demo.start start_ready)
    as (st' & Hrun & _).
  exists st'. split; [exact Hrun|]. split; [|vm_compute; reflexivity].
  exact (proj1 (updateAcceleratorMetrics_adds_up Demo.sys Demo.node Demo.start st'
                  "system_processes" ltac:(discriminate) Hrun)).
Defined.

Lemma updateAcceleratorMetrics_frame_witness :
  exists st' : Collector.state Demo.sys,
    Collector.updateAcceleratorMetrics Demo.sys Demo.node Demo.start = Done st'
    /\ Collector.preserved Demo.start st'
    /\ Collector.lastUtilizationTimestamp st' = 3000.
Proof.
  destruct (updateAcceleratorMetrics_Done Demo.sys Demo.node Demo.start start_ready)
    as (st' & Hrun & _).
  exists st'. split; [exact Hrun|].
  exact (updateAcceleratorMetrics_frame Demo.sys Demo.node Demo.start st' Hrun).
Defined.

Lemma updateAcceleratorMetrics_no_samples_witness :
  exists st' : Collector.state Demo.sys,
    Collector.updateAcceleratorMetrics Demo.sys Demo.node_quiet Demo.start = Done st'
    /\ Collector.coll st' = Collector.coll Demo.start
    /\ Collector.lastUtilizationTimestamp st' = 3000.
Proof.
  apply (updateAcceleratorMetrics_no_samples Demo.sys Demo.node_quiet Demo.start).
  intros d [<-|[<-|[]]]; reflexivity.
Defined.

Lemma resolved_pid_to_its_container_witness :
  exists st' : Collector.state Demo.sys,
    Collector.accountSample Demo.sys Demo.node Demo.start (7, Collector.mkSample 30 10)
    = Done st'
    /\ Collector.channelOf st' "containerA" "gpu_sm_util"
       = Some (Channel.mkChannel 30 0 30 ∅)
    /\ Collector.channelOf st' "containerA" "gpu_mem_util"
       = Some (Channel.mkChannel 10 0 10 ∅).
Proof.
  destruct (accountSample_Done Demo.sys Demo.node (7, Collector.mkSample 30 10)
              Demo.start start_ready) as (st' & Hrun & _).
  exists st'. split; [exact Hrun|].
  destruct (resolved_pid_to_its_container Demo.sys Demo.node Demo.start st'
              7 (Collector.mkSample 30 10) "containerA") as (Hs & Hm & _);
    [discriminate | reflexivity | exact Hrun |].
  split; [refine (eq_trans Hs _) | refine (eq_trans Hm _)]; vm_compute; reflexivity.
Defined.

End MoreRuns.
